(** * bananazone: the insight aggregator and the freshness fetcher

    A shallow embedding of [vercel_trading_bot_example.js] (class
    [CryptoTradingBot]) and of [vercel_cache_solution.js] (class
    [CryptoDataFetcher]), with the properties their specification states.

    JavaScript numbers are IEEE 754 binary64 values: they are modelled by
    Rocq's primitive floats, whose operations the kernel evaluates, so the
    thresholds ([> 0.7], [> 0.25], [> 80] ...) behave as they do in the
    program, rounding included.

    JavaScript strings are sequences of UTF-16 code units: a string is
    modelled by the Rocq string of its UTF-8 bytes, [trim] strips the white
    space of Unicode, and [>] on strings compares the code units. *)

From Stdlib Require Import List String Ascii Bool Arith NArith ZArith Lia.
From Stdlib Require Import PrimFloat Uint63 DecimalString DecimalN.
From Stdlib Require Import SpecFloat FloatOps FloatAxioms.
Import ListNotations.

Set Warnings "-inexact-float".
Local Open Scope string_scope.
Local Open Scope list_scope.

(** ** JavaScript helpers shared by both classes *)

(** [x || 0] on a numeric field that may be missing: [undefined], [0], [-0]
    and [NaN] are falsy and give [0]. *)
Definition orZero (x : option float) : float :=
  match x with
  | None => 0%float
  | Some f => if (PrimFloat.eqb f 0 || PrimFloat.is_nan f)%bool then 0%float else f
  end.

(** [xs || []] on a collection that may be missing (an array is truthy even
    when it is empty). *)
Definition orEmpty {A : Type} (xs : option (list A)) : list A :=
  match xs with
  | None => []
  | Some l => l
  end.

(** [a > b] on numbers. *)
Definition gt (a b : float) : bool := PrimFloat.ltb b a.

(** An array length as a number. *)
Definition lengthNum {A : Type} (l : list A) : float :=
  PrimFloat.of_uint63 (Uint63.of_Z (Z.of_nat (List.length l))).

(** [array.forEach(x => out.push(f x))]. *)
Definition forEachPush {A B : Type} (f : A -> B) (l : list A) (out : list B) : list B :=
  fold_left (fun acc x => acc ++ [f x]) l out.

(** The same loop when its body constructs a [new Date()]: the [k]-th [Date]
    constructed during the run is read from the clock. *)
Definition forEachPushStamped {A B : Type} (f : nat -> A -> B)
    (l : list A) (out : list B) (k : nat) : list B * nat :=
  fold_left (fun st x => (fst st ++ [f (snd st) x], S (snd st))) l (out, k).

(** ** The insight document *)

Module Signal.
Record t := mk {
  exchange : string;
  asset : string;
  direction : string;
  strength : float;
  confidence : float;
  data_type : option string
}.
End Signal.

Module Opportunity.
Record t := mk {
  asset : string;
  high_exchange : string;
  low_exchange : string;
  high_price : float;
  low_price : float;
  price_difference_pct : float
}.
End Opportunity.

Module ExchangeHealth.
Record t := mk { health_score : option float }.
End ExchangeHealth.

Module MarketOverview.
(** [average_spreads_L5] is [overview.average_spreads?.L5]. *)
Record t := mk {
  total_market_volume : option float;
  average_spreads_L5 : option float;
  market_volatility : option float
}.
(** [insights.market_overview || {}]. *)
Definition orDefault (o : option t) : t :=
  match o with
  | Some v => v
  | None => mk None None None
  end.
End MarketOverview.

Module Insights.
(** [exchange_health] is an object: its entries are kept in the order
    [Object.values] enumerates them. *)
Record t := mk {
  current_signals : option (list Signal.t);
  arbitrage_opportunities : option (list Opportunity.t);
  exchange_health : option (list (string * ExchangeHealth.t));
  market_overview : option MarketOverview.t
}.
End Insights.

(** ** What the analysis produces *)

Module Decision.
Record t := mk {
  timestamp : string;
  exchange : string;
  asset : string;
  action : string;
  strength : float;
  confidence : float;
  reason : string;
  dataType : option string
}.
(** The signal a decision was made from. *)
Definition signal (d : t) : Signal.t :=
  Signal.mk (exchange d) (asset d) (action d) (strength d) (confidence d) (dataType d).
End Decision.

Module ArbitrageAction.
Record t := mk {
  timestamp : string;
  type : string;
  asset : string;
  buyExchange : string;
  sellExchange : string;
  buyPrice : float;
  sellPrice : float;
  grossProfitPct : float;
  netProfitPct : float;
  reason : string
}.
(** The opportunity an action was made from. *)
Definition opportunity (a : t) : Opportunity.t :=
  Opportunity.mk (asset a) (sellExchange a) (buyExchange a) (sellPrice a) (buyPrice a)
    (grossProfitPct a).
End ArbitrageAction.

Inductive HealthStatus := healthy | degraded | poor.

Module MarketCondition.
Record t := mk {
  timestamp : string;
  overallHealth : float;
  healthStatus : HealthStatus;
  totalVolume : float;
  avgSpread : float;
  volatility : float;
  recommendation : string
}.
End MarketCondition.

Module Recommendations.
Record t := mk {
  timestamp : string;
  marketCondition : MarketCondition.t;
  tradingSignals : list Decision.t;
  arbitrageOpportunities : list ArbitrageAction.t;
  actionItems : list string
}.
End Recommendations.

(** ** class CryptoTradingBot *)

Module CryptoTradingBot.
Section Bot.

(** Built-ins of the host: [Number.prototype.toFixed],
    [String.prototype.toUpperCase], and [new Date().toISOString()] for the
    [k]-th [Date] constructed. *)
Variable toFixed : float -> nat -> string.
Variable toUpperCase : string -> string.
Variable isoNow : nat -> string.

Definition strongSignal (signal : Signal.t) : bool :=
  gt (Signal.strength signal) 0.7 && gt (Signal.confidence signal) 0.6.

Definition decide (k : nat) (signal : Signal.t) : Decision.t :=
  Decision.mk (isoNow k) (Signal.exchange signal) (Signal.asset signal)
    (Signal.direction signal) (Signal.strength signal) (Signal.confidence signal)
    ("ML signal: " ++ toFixed (Signal.strength signal) 2 ++ " strength, "
       ++ toFixed (Signal.confidence signal) 2 ++ " confidence")
    (Signal.data_type signal).

Definition analyzeSignals (insights : Insights.t) (k : nat) : list Decision.t * nat :=
  let signals := orEmpty (Insights.current_signals insights) in
  let strongSignals := filter strongSignal signals in
  forEachPushStamped decide strongSignals [] k.

Definition profitable (opp : Opportunity.t) : bool :=
  gt (Opportunity.price_difference_pct opp) 0.25.

Definition arbitrageAction (k : nat) (opp : Opportunity.t) : ArbitrageAction.t :=
  let netProfit := (Opportunity.price_difference_pct opp - 0.2)%float in
  ArbitrageAction.mk (isoNow k) "arbitrage" (Opportunity.asset opp)
    (Opportunity.low_exchange opp) (Opportunity.high_exchange opp)
    (Opportunity.low_price opp) (Opportunity.high_price opp)
    (Opportunity.price_difference_pct opp) netProfit
    ("Arbitrage opportunity: " ++ toFixed netProfit 2 ++ "% net profit").

Definition analyzeArbitrage (insights : Insights.t) (k : nat)
    : list ArbitrageAction.t * nat :=
  let opportunities := orEmpty (Insights.arbitrage_opportunities insights) in
  let profitableArbitrage := filter profitable opportunities in
  forEachPushStamped arbitrageAction profitableArbitrage [] k.

Definition getMarketRecommendation (health : float) (overview : MarketOverview.t) : string :=
  if PrimFloat.ltb health 60 then "CAUTION: Poor data quality, avoid trading"
  else
    let volatility := orZero (MarketOverview.market_volatility overview) in
    let avgSpread := orZero (MarketOverview.average_spreads_L5 overview) in
    if gt volatility 0.05 then "HIGH_VOLATILITY: Good for scalping, risky for holds"
    else if PrimFloat.ltb avgSpread 0.01 then "TIGHT_SPREADS: Good liquidity, favorable for trading"
    else if gt avgSpread 0.05 then "WIDE_SPREADS: Poor liquidity, trade with caution"
    else "NORMAL_CONDITIONS: Standard trading environment".

Definition classify (avgHealth : float) : HealthStatus :=
  if gt avgHealth 80 then healthy
  else if gt avgHealth 60 then degraded
  else poor.

Definition averageHealth (health : list (string * ExchangeHealth.t)) : float :=
  let exchangeHealthScores :=
    map (fun h => orZero (ExchangeHealth.health_score h)) (map snd health) in
  if Nat.ltb 0 (List.length exchangeHealthScores)
  then (fold_left (fun a b => a + b)%float exchangeHealthScores 0%float
          / lengthNum exchangeHealthScores)%float
  else 0%float.

Definition analyzeMarketConditions (insights : Insights.t) (k : nat) : MarketCondition.t * nat :=
  let health := orEmpty (Insights.exchange_health insights) in
  let overview := MarketOverview.orDefault (Insights.market_overview insights) in
  let avgHealth := averageHealth health in
  (MarketCondition.mk (isoNow k) avgHealth (classify avgHealth)
     (orZero (MarketOverview.total_market_volume overview))
     (orZero (MarketOverview.average_spreads_L5 overview))
     (orZero (MarketOverview.market_volatility overview))
     (getMarketRecommendation avgHealth overview),
   S k).

(** The lines [generateActionItems] pushes. *)
Definition waitLine : string :=
  "⚠️  WAIT - Poor data quality, avoid trading until health improves".
Definition holdLine : string :=
  "😴 No strong signals or arbitrage - HOLD current positions".
Definition arbitrageLine (arb : ArbitrageAction.t) : string :=
  "💰 ARBITRAGE: " ++ ArbitrageAction.asset arb ++ " - "
    ++ toFixed (ArbitrageAction.netProfitPct arb) 2 ++ "% profit available".
Definition signalLine (signal : Decision.t) : string :=
  "🎯 " ++ toUpperCase (Decision.action signal) ++ ": " ++ Decision.asset signal
    ++ " on " ++ Decision.exchange signal ++ " ("
    ++ toFixed (Decision.strength signal * 100)%float 0 ++ "% strength)".
Definition marketLine (market : MarketCondition.t) : string :=
  "📊 Market: " ++ MarketCondition.recommendation market.

Definition highProfit (a : ArbitrageAction.t) : bool :=
  gt (ArbitrageAction.netProfitPct a) 0.5.
Definition veryStrong (s : Decision.t) : bool :=
  gt (Decision.strength s) 0.8.

Definition generateActionItems (signals : list Decision.t)
    (arbitrage : list ArbitrageAction.t) (market : MarketCondition.t) : list string :=
  let actions : list string := [] in
  match MarketCondition.healthStatus market with
  | poor => actions ++ [waitLine]
  | _ =>
    let highProfitArbitrage := filter highProfit arbitrage in
    let actions := forEachPush arbitrageLine highProfitArbitrage actions in
    let veryStrongSignals := filter veryStrong signals in
    let actions := forEachPush signalLine veryStrongSignals actions in
    let actions := actions ++ [marketLine market] in
    if Nat.eqb (List.length actions) 1 then actions ++ [holdLine] else actions
  end.

(** [executeAnalysis], from the value [getMLInsights] resolved to ([None]
    when the document could not be retrieved: the method then returns
    [undefined]). What it writes to the console and appends to
    [tradingHistory] is not part of what it returns. *)
Definition executeAnalysis (fetched : option Insights.t) (k : nat)
    : option Recommendations.t :=
  match fetched with
  | None => None
  | Some insights =>
    let '(signals, k1) := analyzeSignals insights k in
    let '(arbitrage, k2) := analyzeArbitrage insights k1 in
    let '(market, k3) := analyzeMarketConditions insights k2 in
    Some (Recommendations.mk (isoNow k3) market signals arbitrage
            (generateActionItems signals arbitrage market))
  end.

End Bot.
End CryptoTradingBot.

(** ** Strings and maps of the host *)

Module Js.

(** A string stands for the JavaScript string that it encodes in UTF-8.
    The characters of a string are its code points, each kept with the
    bytes that encode it. A code point above U+007F is a leading byte with
    one, two or three continuation bytes, each of which brings six bits. A
    byte that neither begins nor continues a sequence, and a sequence cut
    short, stand for U+FFFD. *)
Definition isContinuation (b : N) : bool := N.leb 128 b && N.ltb b 192.

(** The continuation bytes a leading byte asks for, with the bits it
    brings itself. *)
Definition leading (b : N) : option (nat * N) :=
  if N.ltb b 192 then None
  else if N.ltb b 224 then Some (1, (b mod 32)%N)
  else if N.ltb b 240 then Some (2, (b mod 16)%N)
  else if N.ltb b 248 then Some (3, (b mod 8)%N)
  else None.

(** [pending] are the bytes of the sequence being read, [acc] the bits
    read so far and [need] the continuation bytes still to come. *)
Fixpoint charsFrom (s : string) (pending : string) (acc : N) (need : nat)
    : list (N * string) :=
  match s with
  | EmptyString =>
    match pending with
    | EmptyString => []
    | _ => [(65533%N, pending)]
    end
  | String c rest =>
    let b := N_of_ascii c in
    let fresh :=
      if N.ltb b 128 then (b, String c EmptyString) :: charsFrom rest EmptyString 0%N 0
      else match leading b with
           | Some (n, bits) => charsFrom rest (String c EmptyString) bits n
           | None => (65533%N, String c EmptyString) :: charsFrom rest EmptyString 0%N 0
           end in
    match need with
    | 0 => fresh
    | S n =>
      if isContinuation b then
        let acc' := (acc * 64 + b mod 64)%N in
        let pending' := (pending ++ String c EmptyString)%string in
        match n with
        | 0 => (acc', pending') :: charsFrom rest EmptyString 0%N 0
        | _ => charsFrom rest pending' acc' n
        end
      else (65533%N, pending) :: fresh
    end
  end.

Definition chars (s : string) : list (N * string) := charsFrom s EmptyString 0%N 0.

(** The code points [String.prototype.trim] strips: the white space of
    ECMAScript (tab, vertical tab, form feed, space, no-break space, the
    byte order mark and the space separators of Unicode) and its line
    terminators (line feed, carriage return, line and paragraph
    separator). *)
Definition isWhiteSpace (cp : N) : bool :=
  (N.leb 9 cp && N.leb cp 13)
  || N.eqb cp 32 || N.eqb cp 160 || N.eqb cp 5760
  || (N.leb 8192 cp && N.leb cp 8202)
  || N.eqb cp 8232 || N.eqb cp 8233 || N.eqb cp 8239 || N.eqb cp 8287
  || N.eqb cp 12288 || N.eqb cp 65279.

Fixpoint dropLeading (cs : list (N * string)) : list (N * string) :=
  match cs with
  | [] => []
  | c :: rest => if isWhiteSpace (fst c) then dropLeading rest else cs
  end.

Fixpoint dropTrailing (cs : list (N * string)) : list (N * string) :=
  match cs with
  | [] => []
  | c :: rest =>
    match dropTrailing rest with
    | [] => if isWhiteSpace (fst c) then [] else [c]
    | kept => c :: kept
    end
  end.

(** [s.trim()]. *)
Definition trim (s : string) : string :=
  String.concat EmptyString (map snd (dropTrailing (dropLeading (chars s)))).

(** The UTF-16 code units of a string: a code point above U+FFFF is a
    pair of surrogates. *)
Definition codeUnits (s : string) : list N :=
  flat_map
    (fun c =>
       let cp := fst c in
       if N.ltb cp 65536 then [cp]
       else [(55296 + (cp - 65536) / 1024)%N; (56320 + (cp - 65536) mod 1024)%N])
    (chars s).

(** The order of strings: code unit by code unit, a proper prefix
    first. *)
Fixpoint unitsLtb (a b : list N) : bool :=
  match a, b with
  | _, [] => false
  | [], _ :: _ => true
  | x :: a', y :: b' =>
    if N.ltb x y then true else if N.eqb x y then unitsLtb a' b' else false
  end.

(** [a > b] on strings. *)
Definition gtString (a b : string) : bool := unitsLtb (codeUnits b) (codeUnits a).

(** A string is truthy when it is not empty. *)
Definition truthy (s : string) : bool :=
  match s with
  | EmptyString => false
  | String _ _ => true
  end.

(** [s.split(sep)] for a one-character separator. *)
Fixpoint split (sep : ascii) (s : string) : list string :=
  match s with
  | EmptyString => [EmptyString]
  | String c s' =>
    if Ascii.eqb c sep then EmptyString :: split sep s'
    else match split sep s' with
         | [] => [String c EmptyString]
         | w :: ws => String c w :: ws
         end
  end.

(** [s.substring(n)]. *)
Definition substringFrom (n : nat) (s : string) : string :=
  String.substring n (String.length s - n) s.

(** [s.startsWith(prefix)]. *)
Fixpoint startsWith (s prefix : string) {struct prefix} : bool :=
  match prefix with
  | EmptyString => true
  | String a prefix' =>
    match s with
    | EmptyString => false
    | String b s' => Ascii.eqb a b && startsWith s' prefix'
    end
  end.

(** [s.endsWith(suffix)]. *)
Definition endsWith (s suffix : string) : bool :=
  let n := String.length s in
  let m := String.length suffix in
  Nat.leb m n && String.eqb (String.substring (n - m) m s) suffix.

(** A non-negative integer printed in a template literal. *)
Definition showN (n : N) : string := DecimalString.NilEmpty.string_of_uint (N.to_uint n).

(** [xs[xs.length - 1]]. *)
Fixpoint lastOf {A : Type} (xs : list A) : option A :=
  match xs with
  | [] => None
  | [x] => Some x
  | _ :: rest => lastOf rest
  end.

(** [xs.filter(x => x !== null)]. *)
Fixpoint filterNotNull {A : Type} (xs : list (option A)) : list A :=
  match xs with
  | [] => []
  | Some x :: rest => x :: filterNotNull rest
  | None :: rest => filterNotNull rest
  end.

(** A [Map] with string keys, in insertion order. *)
Module Map.
Definition t (V : Type) := list (string * V).

Fixpoint get {V : Type} (key : string) (m : t V) : option V :=
  match m with
  | [] => None
  | (k, v) :: rest => if String.eqb key k then Some v else get key rest
  end.

Definition has {V : Type} (key : string) (m : t V) : bool :=
  match get key m with
  | Some _ => true
  | None => false
  end.

Fixpoint set {V : Type} (key : string) (value : V) (m : t V) : t V :=
  match m with
  | [] => [(key, value)]
  | (k, v) :: rest =>
    if String.eqb key k then (k, value) :: rest else (k, v) :: set key value rest
  end.

Fixpoint delete {V : Type} (key : string) (m : t V) : t V :=
  match m with
  | [] => []
  | (k, v) :: rest =>
    if String.eqb key k then rest else (k, v) :: delete key rest
  end.
End Map.

(** A string without the character [-]. *)
Fixpoint noDash (s : string) : Prop :=
  match s with
  | EmptyString => True
  | String c s' => c <> "-"%char /\ noDash s'
  end.

(** A string without the character [sep]. *)
Fixpoint without (sep : ascii) (s : string) : Prop :=
  match s with
  | EmptyString => True
  | String c s' => Ascii.eqb c sep = false /\ without sep s'
  end.

End Js.

(** ** The bot as an object: the document it fetches, the history it keeps *)

Module BotRun.
Local Open Scope string_scope.

(** What [fetch] resolved to for the insight document. [json] is what
    [response.json()] resolves to: [None] when it rejects, the body not
    being JSON, and when the value is falsy ([null], [0], [false], the
    empty string), which [executeAnalysis] treats alike; any other value is
    read through the fields the analysis asks for, each of which may be
    missing. *)
Record Reply := mkReply {
  status : N;
  json : option Insights.t
}.

(** [response.ok]. *)
Definition ok (r : Reply) : bool := N.leb 200 (status r) && N.leb (status r) 299.

(** The fields of the object, with what it has done so far: the Dates it
    constructed, the times it read [Date.now()], the URLs it requested. *)
Record Bot := mkBot {
  isRunning : bool;
  tradingHistory : list Recommendations.t;
  datesMade : nat;
  clockReads : nat;
  sent : list string
}.

Section Run.

(** The host: the three built-ins of the analysis, [Date.now()] at its
    [k]-th reading, and what [fetch(url)] resolves to when it is the [k]-th
    request ([None]: it rejects). *)
Variable toFixed : float -> nat -> string.
Variable toUpperCase : string -> string.
Variable isoNow : nat -> string.
Variable dateNow : nat -> N.
Variable network : string -> nat -> option Reply.

Definition insightsUrl : string :=
  "https://storage.googleapis.com/bananazone/ml_insights/latest.json".

(** [new CryptoTradingBot()]. *)
Definition newBot : Bot := mkBot false [] 0 0 [].

(** [getMLInsights]: every failure is caught and gives [null]. *)
Definition getMLInsights (bot : Bot) : option Insights.t * Bot :=
  let url := insightsUrl ++ "?t=" ++ Js.showN (dateNow (clockReads bot)) in
  let bot' := mkBot (isRunning bot) (tradingHistory bot) (datesMade bot)
                (S (clockReads bot)) (sent bot ++ [url])%list in
  match network url (List.length (sent bot)) with
  | None => (None, bot')
  | Some response => if negb (ok response) then (None, bot') else (json response, bot')
  end.

(** [executeAnalysis], on the object: [None] is [undefined]. *)
Definition executeAnalysis (bot : Bot) : option Recommendations.t * Bot :=
  let '(insights, bot1) := getMLInsights bot in
  match insights with
  | None => (None, bot1)
  | Some insights =>
    let '(signals, k1) := CryptoTradingBot.analyzeSignals toFixed isoNow insights (datesMade bot1) in
    let '(arbitrage, k2) := CryptoTradingBot.analyzeArbitrage toFixed isoNow insights k1 in
    let '(market, k3) := CryptoTradingBot.analyzeMarketConditions isoNow insights k2 in
    let recommendations :=
      Recommendations.mk (isoNow k3) market signals arbitrage
        (CryptoTradingBot.generateActionItems toFixed toUpperCase signals arbitrage market) in
    (Some recommendations,
     mkBot (isRunning bot1) (tradingHistory bot1 ++ [recommendations])%list (S k3)
       (clockReads bot1) (sent bot1))
  end.

(** [stop]. *)
Definition stop (bot : Bot) : Bot :=
  mkBot false (tradingHistory bot) (datesMade bot) (clockReads bot) (sent bot).

(** [n] analyses made one after the other, with what each returned. *)
Fixpoint analyses (n : nat) (bot : Bot) : list (option Recommendations.t) * Bot :=
  match n with
  | 0 => ([], bot)
  | S n' =>
    let '(result, bot1) := executeAnalysis bot in
    let '(results, bot2) := analyses n' bot1 in
    (result :: results, bot2)
  end.

End Run.
End BotRun.

(** ** Records, responses and results of the fetcher *)

Module NdRecord.
(** One line of a [.jsonl] file, with the fields the fetcher reads; [t] is
    the ISO 8601 time the collector stamped the line with. *)
Record record := mk {
  t : string;
  mid : float;
  spread_L5_pct : float;
  vol_L50_bids : float;
  vol_L50_asks : float
}.
End NdRecord.

Module Response.
(** What [fetch] resolved to; [body] is what [text()] resolves to, [None]
    when reading the body fails. *)
Record t := mk {
  status : N;
  body : option string
}.
(** [response.ok]. *)
Definition ok (r : t) : bool := N.leb 200 (status r) && N.leb (status r) 299.
End Response.

Module Metadata.
Record t := mk {
  url : string;
  timestamp : string;
  recordCount : nat;
  fetchTime : string
}.
End Metadata.

Module FetchResult.
Record t := mk {
  records : list NdRecord.record;
  metadata : Metadata.t
}.
End FetchResult.

Module Options.
(** The [options] argument; a key that is absent takes its default. *)
Record t := mk {
  maxRetries : option nat;
  consistencyCheck : option bool;
  useCache : option bool
}.
Definition default {A : Type} (d : A) (o : option A) : A :=
  match o with
  | Some v => v
  | None => d
  end.
End Options.

Module PriceSummary.
Record t := mk {
  price : float;
  timestamp : string;
  spread : float;
  volume : float;
  recordCount : nat;
  fetchTime : string
}.
End PriceSummary.

Inductive Error :=
| HttpError (status : N)
| TransportError
| BodyError
| TypeError
| FetchExhausted (exchange asset : string).

(** ** The state a fetcher runs in *)

(** [cache] is [this.cache]. The other fields count what the run has taken
    from its environment: the clock readings, the [Math.random()] draws, and
    the requests sent, each with what it resolved to ([None] when [fetch]
    rejected). *)
Record State := mkState {
  cache : Js.Map.t FetchResult.t;
  ticks : nat;
  draws : nat;
  requests : list (string * option Response.t)
}.

Definition withCache (c : Js.Map.t FetchResult.t) (s : State) : State :=
  mkState c (ticks s) (draws s) (requests s).

(** A computation changes the state and returns a value or throws; the
    state it reached is kept when it throws. *)
Definition M (A : Type) : Type := State -> (Error + A) * State.

Definition ret {A : Type} (a : A) : M A := fun s => (inr a, s).

Definition throw {A : Type} (e : Error) : M A := fun s => (inl e, s).

Definition bind {A B : Type} (m : M A) (k : A -> M B) : M B :=
  fun s =>
    match m s with
    | (inr a, s') => k a s'
    | (inl e, s') => (inl e, s')
    end.

(** [try { m } catch (error) { handler error }]. *)
Definition tryCatch {A : Type} (m : M A) (handler : Error -> M A) : M A :=
  fun s =>
    match m s with
    | (inr a, s') => (inr a, s')
    | (inl e, s') => handler e s'
    end.

Declare Scope js_scope.
Delimit Scope js_scope with js.
Notation "x <- m ;; k" := (bind m (fun x => k))
  (at level 61, m at next level, right associativity) : js_scope.
Notation "m ;;; k" := (bind m (fun _ => k))
  (at level 61, right associativity) : js_scope.

(** ** class CryptoDataFetcher *)

Module CryptoDataFetcher.
Section Fetcher.
Local Open Scope js_scope.
Local Open Scope string_scope.

(** The environment of a run.  [clock k] is the [k]-th reading of the
    clock ([Date.now()] or [new Date()]), in milliseconds; [random k] is
    the [k]-th [Math.random()]; [network url k] is what [fetch(url)]
    resolves to when it is the [k]-th request sent ([None]: it rejects).
    The others are built-ins: [JSON.parse] ([None] when it throws or gives
    [null], the line is dropped either way), [Date.prototype.toISOString],
    and the printing of a number in base 10 and in base 36. *)
Variable bucketName : string.
Variable clock : nat -> N.
Variable random : nat -> float.
Variable network : string -> nat -> option Response.t.
Variable JSON_parse : string -> option NdRecord.record.
Variable toISOString : N -> string.
Variable numberToString : float -> string.
Variable toString36 : float -> string.

Definition baseUrl : string := "https://storage.googleapis.com/" ++ bucketName.
Definition cacheTimeout : N := 30000.

(** *** Primitive effects *)

Definition dateNow : M N :=
  fun s => (inr (clock (ticks s)), mkState (cache s) (S (ticks s)) (draws s) (requests s)).

Definition newDateISOString : M string :=
  now <- dateNow ;; ret (toISOString now).

Definition mathRandom : M float :=
  fun s => (inr (random (draws s)), mkState (cache s) (ticks s) (S (draws s)) (requests s)).

(** [await fetch(url, ...)]: the request is logged with its outcome. *)
Definition fetch (url : string) : M Response.t :=
  fun s =>
    let outcome := network url (List.length (requests s)) in
    let s' := mkState (cache s) (ticks s) (draws s) ((requests s ++ [(url, outcome)])%list) in
    match outcome with
    | Some response => (inr response, s')
    | None => (inl TransportError, s')
    end.

(** [await response.text()]; [response] is [None] when it is [undefined]. *)
Definition responseText (response : option Response.t) : M string :=
  match response with
  | None => throw TypeError
  | Some r =>
    match Response.body r with
    | Some text => ret text
    | None => throw BodyError
    end
  end.

Definition cacheGet (key : string) : M (option FetchResult.t) :=
  fun s => (inr (Js.Map.get key (cache s)), s).

Definition cacheSet (key : string) (value : FetchResult.t) : M unit :=
  fun s => (inr tt, withCache (Js.Map.set key value (cache s)) s).

Definition cacheDelete (key : string) : M unit :=
  fun s => (inr tt, withCache (Js.Map.delete key (cache s)) s).

Definition cacheEntries : M (list (string * FetchResult.t)) :=
  fun s => (inr (cache s), s).

(** *** getCacheBustingUrl *)

Definition getCacheBustingUrl (path : string) : M string :=
  timestamp <- dateNow ;;
  r <- mathRandom ;;
  let random := Js.substringFrom 7 (toString36 r) in
  cb <- dateNow ;;
  ret (baseUrl ++ "/" ++ path ++ "?t=" ++ Js.showN timestamp ++ "&v=" ++ random
         ++ "&cb=" ++ Js.showN cb).

(** *** fetchWithCacheBusting *)

(** The [for] loop, from [attempt] on. [fuel] bounds the iterations left;
    [maxRetries] of them are enough from [attempt = 1]. The loop falls
    through ([None], the method returns [undefined]) when [attempt]
    exceeds [maxRetries]. The wait between two attempts changes nothing
    in the state. *)
Fixpoint attempts (url : string) (maxRetries attempt fuel : nat) : M (option Response.t) :=
  match fuel with
  | 0 => ret None
  | S fuel' =>
    if Nat.leb attempt maxRetries then
      tryCatch
        (response <- fetch url ;;
         if negb (Response.ok response) then throw (HttpError (Response.status response))
         else ret (Some response))
        (fun error =>
           if Nat.eqb attempt maxRetries then throw error
           else attempts url maxRetries (S attempt) fuel')
    else ret None
  end.

Definition fetchWithCacheBusting (url : string) (maxRetries : nat) : M (option Response.t) :=
  (* the X-Requested-With header *)
  _ <- dateNow ;;
  _ <- mathRandom ;;
  attempts url maxRetries 1 maxRetries.

(** *** fetchCryptoData *)

(** [!latestTimestamp]. *)
Definition unset (latestTimestamp : option string) : bool :=
  match latestTimestamp with
  | None => true
  | Some ts => negb (Js.truthy ts)
  end.

(** [timestamp > latestTimestamp], on strings, when [latestTimestamp] is
    set. *)
Definition later (timestamp : string) (latestTimestamp : option string) : bool :=
  match latestTimestamp with
  | None => false
  | Some ts => Js.gtString timestamp ts
  end.

Definition nonBlank (line : string) : bool := Js.truthy (Js.trim line).

(** [bestResult] and [latestTimestamp]. *)
Definition Best : Type := option FetchResult.t * option string.

(** The body of the loop over the candidate URLs. *)
Definition tryUrl (url : string) (best : Best) : M Best :=
  tryCatch
    (response <- fetchWithCacheBusting url 2 ;;
     text <- responseText response ;;
     if negb (Js.truthy (Js.trim text)) then ret best
     else
       let lines := filter nonBlank (Js.split "010"%char (Js.trim text)) in
       if Nat.eqb (List.length lines) 0 then ret best
       else
         let records := Js.filterNotNull (map JSON_parse lines) in
         match Js.lastOf records with
         | None => ret best
         | Some lastRecord =>
           let timestamp := NdRecord.t lastRecord in
           if unset (snd best) || later timestamp (snd best) then
             fetchTime <- newDateISOString ;;
             ret (Some (FetchResult.mk records
                          (Metadata.mk url timestamp (List.length records) fetchTime)),
                  Some timestamp)
           else ret best
         end)
    (fun error => ret best).

Fixpoint tryUrls (urls : list string) (best : Best) : M Best :=
  match urls with
  | [] => ret best
  | url :: rest => best' <- tryUrl url best ;; tryUrls rest best'
  end.

(** The loop that cleans old cache entries, over the entries the map held
    when it started; the clock is read anew for each entry. *)
Fixpoint cleanOldEntries (entries : list (string * FetchResult.t)) : M unit :=
  match entries with
  | [] => ret tt
  | (key, _) :: rest =>
    now <- dateNow ;;
    (if negb (Js.endsWith key ("-" ++ Js.showN (now / cacheTimeout)))
     then cacheDelete key else ret tt) ;;;
    cleanOldEntries rest
  end.

(** [// Cache the result]. *)
Definition storeResult (cacheKey : string) (bestResult : FetchResult.t) : M unit :=
  cacheSet cacheKey bestResult ;;;
  entries <- cacheEntries ;;
  cleanOldEntries entries.

Definition pathOf (exchange asset timeframe date : string) : string :=
  exchange ++ "/" ++ asset ++ "/" ++ timeframe ++ "/" ++ date ++ ".jsonl".

Definition cacheKeyOf (path : string) (now : N) : string :=
  path ++ "-" ++ Js.showN (now / cacheTimeout).

Definition candidateUrls (path : string) : M (list string) :=
  u1 <- getCacheBustingUrl path ;;
  n2 <- dateNow ;;
  r3 <- mathRandom ;;
  ret [u1;
       baseUrl ++ "/" ++ path ++ "?nocache=" ++ Js.showN n2;
       baseUrl ++ "/" ++ path ++ "?_=" ++ numberToString r3].

(** The consistency check only logs; it reads the clock once. *)
Definition checkConsistency (bestResult : FetchResult.t) : M unit :=
  _ <- dateNow ;; ret tt.

(** [this.cache.has(cacheKey)] holds exactly when [this.cache.get(cacheKey)]
    finds a result, so the two are read at once; the map is not looked at
    when [useCache] is off. [maxRetries] is taken from the options, as in
    the method, and as there nothing uses it: the attempts on a URL are the
    2 that the loop body passes to [fetchWithCacheBusting]. *)
Definition fetchCryptoData (exchange asset timeframe date : string) (options : Options.t)
    : M FetchResult.t :=
  let maxRetries := Options.default 3 (Options.maxRetries options) in
  let consistencyCheck := Options.default true (Options.consistencyCheck options) in
  let useCache := Options.default true (Options.useCache options) in
  let path := pathOf exchange asset timeframe date in
  now <- dateNow ;;
  let cacheKey := cacheKeyOf path now in
  cached <- (if useCache then cacheGet cacheKey else ret None) ;;
  match cached with
  | Some result => ret result
  | None =>
    urls <- candidateUrls path ;;
    best <- tryUrls urls (None, None) ;;
    match fst best with
    | None => throw (FetchExhausted exchange asset)
    | Some bestResult =>
      (if consistencyCheck then checkConsistency bestResult else ret tt) ;;;
      (if useCache then storeResult cacheKey bestResult else ret tt) ;;;
      ret bestResult
    end
  end.

(** *** getLatestPrices *)

(** [obj[key] = value] on an object kept as its list of properties. *)
Definition objSet {V : Type} (key : string) (value : V) (obj : list (string * V))
    : list (string * V) := Js.Map.set key value obj.

Definition summarize (data : FetchResult.t) : M (option PriceSummary.t) :=
  match Js.lastOf (FetchResult.records data) with
  | None => throw TypeError
  | Some lastRecord =>
    ret (Some (PriceSummary.mk
                 (NdRecord.mid lastRecord)
                 (NdRecord.t lastRecord)
                 (NdRecord.spread_L5_pct lastRecord)
                 (NdRecord.vol_L50_bids lastRecord + NdRecord.vol_L50_asks lastRecord)%float
                 (List.length (FetchResult.records data))
                 (Metadata.fetchTime (FetchResult.metadata data))))
  end.

Definition priceOf (exchange asset date : string) (options : Options.t)
    : M (option PriceSummary.t) :=
  tryCatch
    (data <- fetchCryptoData exchange asset "1min" date options ;;
     summarize data)
    (fun error => ret None).

Fixpoint assetsLoop (exchange date : string) (options : Options.t) (assets : list string)
    (row : list (string * option PriceSummary.t)) : M (list (string * option PriceSummary.t)) :=
  match assets with
  | [] => ret row
  | asset :: rest =>
    entry <- priceOf exchange asset date options ;;
    assetsLoop exchange date options rest (objSet asset entry row)
  end.

(** The row of an exchange is put into [results] once it is filled. *)
Fixpoint exchangesLoop (date : string) (options : Options.t) (exchanges assets : list string)
    (results : list (string * list (string * option PriceSummary.t)))
    : M (list (string * list (string * option PriceSummary.t))) :=
  match exchanges with
  | [] => ret results
  | exchange :: rest =>
    row <- assetsLoop exchange date options assets [] ;;
    exchangesLoop date options rest assets (objSet exchange row results)
  end.

Definition exchanges : list string := ["coinbase"; "kraken"].
Definition assets : list string := ["BTC"; "ETH"; "ADA"; "XRP"].

(** [date] is [None] for [null]; an empty string is falsy too. *)
Definition getLatestPrices (date : option string) (options : Options.t)
    : M (list (string * list (string * option PriceSummary.t))) :=
  date' <- (match date with
            | Some d => if Js.truthy d then ret d
                        else iso <- newDateISOString ;; ret (hd "" (Js.split "T"%char iso))
            | None => iso <- newDateISOString ;; ret (hd "" (Js.split "T"%char iso))
            end) ;;
  exchangesLoop date' options exchanges assets [].

(** The wait before the attempt that follows a failed [attempt]:
    [Math.min(1000 * Math.pow(2, attempt - 1), 5000)] milliseconds. *)
Definition backoffDelay (attempt : nat) : N :=
  N.min (1000 * 2 ^ N.of_nat (attempt - 1)) 5000.

End Fetcher.
End CryptoDataFetcher.

(** ** What a computation may do to the state *)

(** The clock readings, the draws and the request log only grow. *)
Definition grows (s s' : State) : Prop :=
  ticks s <= ticks s' /\ draws s <= draws s'
  /\ exists new, requests s' = requests s ++ new.

(** The same, with the cache left as it is. *)
Definition quiet (s s' : State) : Prop := cache s' = cache s /\ grows s s'.

(** [m] relates every state it starts in to the state it ends in, whether
    it returns or throws. *)
Definition preserves {A : Type} (R : State -> State -> Prop) (m : M A) : Prop :=
  forall s, R s (snd (m s)).

(** [m] neither reads nor writes the cache: run on another cache, it does
    the same and leaves that cache in place. *)
Definition blind {A : Type} (m : M A) : Prop :=
  forall c s, m (withCache c s) = (fst (m s), withCache c (snd (m s))).

(** Nothing is sent: the request log is left as it is. *)
Definition offline (s s' : State) : Prop := requests s' = requests s.

(** ** What a run of the fetcher shows *)

(** The notions the properties of the fetcher are stated with: the
    candidates a request log holds, the freshest of them, the buckets of the
    clock, calls made one after the other, the entries of the price
    summary. *)

Module FetcherSpec.
Section Spec.
Local Open Scope js_scope.

Variable bucketName : string.
Variable clock : nat -> N.
Variable random : nat -> float.
Variable network : string -> nat -> option Response.t.
Variable JSON_parse : string -> option NdRecord.record.
Variable toISOString : N -> string.
Variable numberToString : float -> string.
Variable toString36 : float -> string.

Abbreviation fetchCryptoData :=
  (CryptoDataFetcher.fetchCryptoData bucketName clock random network JSON_parse
     toISOString numberToString toString36).
Abbreviation cacheTimeout := CryptoDataFetcher.cacheTimeout.

(** The records a response body yields: its non-blank lines that parse. *)
Definition recordsOf (text : string) : list NdRecord.record :=
  Js.filterNotNull
    (map JSON_parse (filter CryptoDataFetcher.nonBlank (Js.split "010"%char (Js.trim text)))).

(** What a logged request contributed to the round: nothing, unless it was
    answered with a success status and a body that yields at least one
    record; then its URL, its records and the last of them. *)
Definition candidateOf (e : string * option Response.t)
    : option (string * list NdRecord.record * NdRecord.record) :=
  match snd e with
  | None => None
  | Some r =>
    if Response.ok r then
      match Response.body r with
      | None => None
      | Some text =>
        match Js.lastOf (recordsOf text) with
        | None => None
        | Some lastRecord => Some (fst e, recordsOf text, lastRecord)
        end
      end
    else None
  end.

(** A request for [url] that failed: rejected, or answered with a status
    that is not a success. *)
Definition failed (url : string) (e : string * option Response.t) : Prop :=
  fst e = url
  /\ match snd e with
     | Some r => Response.ok r = false
     | None => True
     end.

(** A request for [url] answered with the status 500. *)
Definition answered500 (url : string) (e : string * option Response.t) : Prop :=
  fst e = url /\ exists body, snd e = Some (Response.mk 500 body).

(** [bestResult] and [latestTimestamp] after a candidate with these records
    was looked at. *)
Definition pick (best : CryptoDataFetcher.Best) (url : string)
    (records : list NdRecord.record) (lastRecord : NdRecord.record) (fetchTime : string)
    : CryptoDataFetcher.Best :=
  if CryptoDataFetcher.unset (snd best)
     || CryptoDataFetcher.later (NdRecord.t lastRecord) (snd best)
  then (Some (FetchResult.mk records
                (Metadata.mk url (NdRecord.t lastRecord) (List.length records) fetchTime)),
        Some (NdRecord.t lastRecord))
  else best.

(** [best] is the freshest of the candidates logged in [log]: no candidate
    has a last record stamped later than the result [best] holds, and that
    result is one of them. *)
Definition freshest (best : CryptoDataFetcher.Best) (log : list (string * option Response.t))
    : Prop :=
  (forall e url recs lr,
      In e log -> candidateOf e = Some (url, recs, lr) ->
      exists res,
        fst best = Some res
        /\ Js.gtString (NdRecord.t lr) (Metadata.timestamp (FetchResult.metadata res)) = false)
  /\ (forall res,
        fst best = Some res ->
        snd best = Some (Metadata.timestamp (FetchResult.metadata res))
        /\ exists e lr,
            In e log
            /\ candidateOf e
               = Some (Metadata.url (FetchResult.metadata res), FetchResult.records res, lr)
            /\ Metadata.timestamp (FetchResult.metadata res) = NdRecord.t lr)
  /\ (fst best = None -> snd best = None).

(** The state after one reading of the clock. *)
Definition tick (s : State) : State :=
  mkState (cache s) (S (ticks s)) (draws s) (requests s).

(** The three candidate URLs built from the state [s] on. *)
Definition urlsAt (path : string) (s : State) : list string :=
  [ (CryptoDataFetcher.baseUrl bucketName ++ "/" ++ path ++ "?t="
       ++ Js.showN (clock (ticks s)) ++ "&v="
       ++ Js.substringFrom 7 (toString36 (random (draws s)))
       ++ "&cb=" ++ Js.showN (clock (S (ticks s))))%string;
    (CryptoDataFetcher.baseUrl bucketName ++ "/" ++ path ++ "?nocache="
       ++ Js.showN (clock (S (S (ticks s)))))%string;
    (CryptoDataFetcher.baseUrl bucketName ++ "/" ++ path ++ "?_="
       ++ numberToString (random (S (draws s))))%string ].

(** The time bucket of the [i]-th reading of the clock. *)
Definition bucket (i : nat) : N := (clock i / cacheTimeout)%N.

(** The test of the cleaning loop on a key, at the [i]-th reading. *)
Definition current (key : string) (i : nat) : bool :=
  Js.endsWith key ("-" ++ Js.showN (bucket i)).

(** The arguments of a call. *)
Record Call := mkCall {
  callExchange : string;
  callAsset : string;
  callTimeframe : string;
  callDate : string;
  callOptions : Options.t
}.

(** The state after the calls [calls], made one after the other from [s],
    whether they return or throw. *)
Definition after (calls : list Call) (s : State) : State :=
  fold_left
    (fun s c =>
       snd (fetchCryptoData (callExchange c) (callAsset c) (callTimeframe c) (callDate c)
              (callOptions c) s))
    calls s.

(** The price summary made from the last record of a result; none when the
    result has no record. *)
Definition summaryOf (data : FetchResult.t) : option PriceSummary.t :=
  match Js.lastOf (FetchResult.records data) with
  | None => None
  | Some lastRecord =>
    Some (PriceSummary.mk
            (NdRecord.mid lastRecord)
            (NdRecord.t lastRecord)
            (NdRecord.spread_L5_pct lastRecord)
            (NdRecord.vol_L50_bids lastRecord + NdRecord.vol_L50_asks lastRecord)%float
            (List.length (FetchResult.records data))
            (Metadata.fetchTime (FetchResult.metadata data)))
  end.

(** The entry of a pair whose fetch starts in the state [s0]: [null] when
    the fetch throws, the summary of its result when it returns. *)
Definition entryFor (exchange asset date : string) (options : Options.t) (s0 : State)
    : option PriceSummary.t :=
  match fst (fetchCryptoData exchange asset "1min" date options s0) with
  | inl _ => None
  | inr data => summaryOf data
  end.

(** An entry made during a run that started in [s]. *)
Definition entryOfRun (exchange date : string) (options : Options.t) (s : State)
    (asset : string) (entry : option PriceSummary.t) : Prop :=
  exists s0, grows s s0 /\ entry = entryFor exchange asset date options s0.

(** The date [getLatestPrices] fetches for: the one it is given, or the day
    of a reading of the clock when it is given none. *)
Definition dateFor (date : option string) (s : State) : string :=
  match date with
  | Some d => if Js.truthy d then d else hd "" (Js.split "T"%char (toISOString (clock (ticks s))))
  | None => hd "" (Js.split "T"%char (toISOString (clock (ticks s))))
  end.

(** The error the attempt on [url] that is the [k]-th request ends with. *)
Definition errorOf (url : string) (k : nat) : Error :=
  match network url k with
  | Some r => HttpError (Response.status r)
  | None => TransportError
  end.

(** A result as a round makes it: it has a last record, whose time is its
    timestamp, and it counts its records. *)
Definition wellFormed (r : FetchResult.t) : Prop :=
  exists lastRecord,
    Js.lastOf (FetchResult.records r) = Some lastRecord
    /\ Metadata.timestamp (FetchResult.metadata r) = NdRecord.t lastRecord
    /\ Metadata.recordCount (FetchResult.metadata r) = List.length (FetchResult.records r).

(** A cache as the fetcher keeps it: no key twice, every key the key of a
    path and a bucket, every result well formed. *)
Definition cacheOk (c : Js.Map.t FetchResult.t) : Prop :=
  NoDup (map fst c)
  /\ forall key r,
      In (key, r) c ->
      wellFormed r /\ exists path now, key = CryptoDataFetcher.cacheKeyOf path now.

(** The fetches [getLatestPrices] makes for [date]: every asset of the
    first exchange, then every asset of the second. *)
Definition latestCalls (date : string) (options : Options.t) : list Call :=
  flat_map
    (fun exchange =>
       map (fun asset => mkCall exchange asset "1min" date options) CryptoDataFetcher.assets)
    CryptoDataFetcher.exchanges.

(** The state in which the first of them starts: the clock has been read
    once when no date was given. *)
Definition startOf (date : option string) (s : State) : State :=
  match date with
  | Some d => if Js.truthy d then s else tick s
  | None => tick s
  end.

(** The requests one turn of the loop over the candidate URLs sends for
    [url]: one, or two when the first failed; a second is sent only
    then. *)
Definition asked (url : string) (round : list (string * option Response.t)) : Prop :=
  exists fails last,
    round = fails ++ [last]
    /\ fst last = url
    /\ Forall (failed url) fails
    /\ List.length fails <= 1
    /\ (failed url last -> List.length fails = 1).

(** Every candidate of [log] is stamped before [stamp], or with the empty
    string. *)
Definition allOlder (log : list (string * option Response.t)) (stamp : string) : Prop :=
  forall e url recs lr,
    In e log -> candidateOf e = Some (url, recs, lr) ->
    Js.gtString stamp (NdRecord.t lr) = true \/ Js.truthy (NdRecord.t lr) = false.

(** [stamp] is not empty, and no candidate of [log] is stamped after
    it. *)
Definition noneLater (log : list (string * option Response.t)) (stamp : string) : Prop :=
  forall e url recs lr,
    In e log -> candidateOf e = Some (url, recs, lr) ->
    Js.truthy stamp = true /\ Js.gtString (NdRecord.t lr) stamp = false.

(** The result [best] holds is a candidate of [log], and the one the loop
    keeps: every candidate before it is older or unstamped, and none after
    it is later. *)
Definition placed (best : CryptoDataFetcher.Best) (log : list (string * option Response.t))
    : Prop :=
  forall res,
    fst best = Some res ->
    exists before e after lr,
      log = before ++ e :: after
      /\ candidateOf e
         = Some (Metadata.url (FetchResult.metadata res), FetchResult.records res, lr)
      /\ Metadata.timestamp (FetchResult.metadata res) = NdRecord.t lr
      /\ allOlder before (NdRecord.t lr)
      /\ noneLater after (NdRecord.t lr).

(** What the cleaning loop leaves of [entries], the first of which it
    tests at the [i]-th reading of the clock, the next at the reading after
    that, and so on. *)
Fixpoint survivors (entries : list (string * FetchResult.t)) (i : nat)
    : list (string * FetchResult.t) :=
  match entries with
  | [] => []
  | (key, v) :: rest =>
    if current key i then (key, v) :: survivors rest (S i) else survivors rest (S i)
  end.

End Spec.
End FetcherSpec.

(** ** An environment to run the fetcher in *)

Module Demo.
Local Open Scope string_scope.

Definition bucketName : string := "bananazone".

(** A clock that shows 2025-09-09T17:44:37Z at first and is one millisecond
    later at each reading. *)
Definition clock (k : nat) : N := (1757439877000 + N.of_nat k)%N.

Definition random (k : nat) : float := 0.5%float.
Definition toISOString (now : N) : string := "2025-09-09T17:44:37.000Z".
Definition numberToString (x : float) : string := "0.5".
Definition toString36 (x : float) : string := "0.4fzyo82mvyr".

(** A stand-in for [JSON.parse]: a line that opens a brace parses, to a
    record stamped with the rest of the line; any other line fails. *)
Definition JSON_parse (line : string) : option NdRecord.record :=
  match line with
  | String "{" t => Some (NdRecord.mk t 0 0 0 0)
  | _ => None
  end.

Definition newline : string := String "010" EmptyString.

(** A network that answers every request with HTTP 500. *)
Definition down (url : string) (k : nat) : option Response.t :=
  Some (Response.mk 500 (Some "Internal Server Error")).

(** A network seen through a stale edge cache. The first request fails; the
    second is answered with an old copy of the file; the third, the first
    for the second URL, with the fresh file, one line of it damaged; the
    fourth with 404; and the rest are rejected. *)
Definition stale (url : string) (k : nat) : option Response.t :=
  match k with
  | 0 => Some (Response.mk 500 None)
  | 1 => Some (Response.mk 200 (Some ("{2025-09-09T17:40:00Z" ++ newline)))
  | 2 => Some (Response.mk 200
                 (Some ("{2025-09-09T17:43:00Z" ++ newline ++ "2025-09-" ++ newline
                          ++ "{2025-09-09T17:44:00Z" ++ newline)))
  | 3 => Some (Response.mk 404 (Some "Not Found"))
  | _ => None
  end.

Definition start : State := mkState [] 0 0 [].

Definition defaults : Options.t := Options.mk None None None.
Definition threeRetries : Options.t := Options.mk (Some 3) None None.
Definition noCache : Options.t := Options.mk None None (Some false).

(** One call through the stale network. *)
Definition firstRun : (Error + FetchResult.t) * State :=
  CryptoDataFetcher.fetchCryptoData bucketName clock random stale JSON_parse toISOString
    numberToString toString36 "coinbase" "BTC" "1min" "2025-09-09" defaults start.

Definition firstResult : FetchResult.t :=
  Eval vm_compute in
    match fst firstRun with
    | inr result => result
    | inl _ => FetchResult.mk [] (Metadata.mk "" "" 0 "")
    end.

Definition afterFirst : State := Eval vm_compute in snd firstRun.

(** A network that answers every request with the same file: two records
    among white space, a blank line and a line cut short. *)
Definition damagedFile : string :=
  "  " ++ newline ++ "{2025-09-09T17:43:00Z" ++ newline ++ "2025-09-" ++ newline
    ++ "   " ++ newline ++ "{2025-09-09T17:44:00Z" ++ newline.

Definition damaged (url : string) (k : nat) : option Response.t :=
  Some (Response.mk 200 (Some damagedFile)).

(** The prices that network gives for 2025-09-09, to a fresh fetcher. *)
Definition damagedPrices : list (string * list (string * option PriceSummary.t)) :=
  Eval vm_compute in
    match fst (CryptoDataFetcher.getLatestPrices bucketName clock random damaged JSON_parse
                 toISOString numberToString toString36 (Some "2025-09-09") defaults start) with
    | inr results => results
    | inl _ => []
    end.

(** White space that is not ASCII, in UTF-8: the no-break space U+00A0,
    the ideographic space U+3000 and the line separator U+2028. *)
Definition noBreakSpace : string := String "194" (String "160" EmptyString).
Definition ideographicSpace : string :=
  String "227" (String "128" (String "128" EmptyString)).
Definition lineSeparator : string :=
  String "226" (String "128" (String "168" EmptyString)).

(** A network that answers every request with a file of two records, a
    line cut short and a blank line, with white space around. *)
Definition paddedFile : string :=
  noBreakSpace ++ newline ++ "{2025-09-09T17:43:00Z" ++ newline ++ "2025-09-" ++ newline
    ++ ideographicSpace ++ newline ++ "{2025-09-09T17:44:00Z" ++ lineSeparator ++ " ".

Definition padded (url : string) (k : nat) : option Response.t :=
  Some (Response.mk 200 (Some paddedFile)).

(** A clock that starts twenty milliseconds before the boundary between
    the buckets 58581329 and 58581330 and moves one millisecond from one
    reading to the next; and two calls on it, one after the other, through
    the network of the damaged file. *)
Definition lateClock (k : nat) : N := (1757439899980 + N.of_nat k)%N.

Definition lateFetch :=
  CryptoDataFetcher.fetchCryptoData bucketName lateClock random damaged JSON_parse
    toISOString numberToString toString36.

Definition lateFirst : (Error + FetchResult.t) * State :=
  lateFetch "coinbase" "BTC" "1min" "2025-09-09" defaults start.

Definition lateSecond : (Error + FetchResult.t) * State :=
  lateFetch "kraken" "ETH" "1min" "2025-09-09" defaults (snd lateFirst).

End Demo.

(** ** The ranking the specification words, and example inputs *)

(** A stable sort by descending key: an element stays behind the elements
    before it whose key is not smaller. *)
Fixpoint insertDesc {A : Type} (key : A -> float) (x : A) (l : list A) : list A :=
  match l with
  | [] => [x]
  | y :: l' => if PrimFloat.ltb (key x) (key y) then y :: insertDesc key x l' else x :: l
  end.

Definition sortDescBy {A : Type} (key : A -> float) (l : list A) : list A :=
  fold_right (insertDesc key) [] l.

(** The action items as the specification ranks them: every arbitrage
    action by descending net profit, then the signals with [strength > 0.8]
    by descending strength, then the market line, then the hold line when
    neither an arbitrage nor a strong signal is listed. *)
Definition rankedActionItems (toFixed : float -> nat -> string)
    (toUpperCase : string -> string) (signals : list Decision.t)
    (arbitrage : list ArbitrageAction.t) (market : MarketCondition.t) : list string :=
  let arbitrageItems := sortDescBy ArbitrageAction.netProfitPct arbitrage in
  let signalItems :=
    sortDescBy Decision.strength (filter CryptoTradingBot.veryStrong signals) in
  map (CryptoTradingBot.arbitrageLine toFixed) arbitrageItems
  ++ map (CryptoTradingBot.signalLine toFixed toUpperCase) signalItems
  ++ [CryptoTradingBot.marketLine market]
  ++ match arbitrageItems, signalItems with
     | [], [] => [CryptoTradingBot.holdLine]
     | _, _ => []
     end.

(** An action item that announces an arbitrage. *)
Definition isArbitrageLine (line : string) : bool :=
  Js.startsWith line "💰 ARBITRAGE: ".

(** Stand-ins for the host's formatting, for the runs on concrete inputs:
    every number prints as [#], the clock always shows the same instant. *)
Definition plainFixed (x : float) (digits : nat) : string := "#".
Definition plainUpper (s : string) : string := s.
Definition plainNow (k : nat) : string := "2025-09-09T21:45:00.000Z".

(** The two signals of the specification's example. *)
Definition exampleSignals : list Signal.t :=
  [ Signal.mk "coinbase" "BTC" "bullish" 0.8 0.7 None;
    Signal.mk "kraken" "ETH" "bearish" 0.5 0.9 None ].

Definition healthOf (scores : list (string * float)) : list (string * ExchangeHealth.t) :=
  map (fun e => (fst e, ExchangeHealth.mk (Some (snd e)))) scores.

(** A document with a price difference of 0.3% and one of 0.2%, on healthy
    exchanges. *)
Definition arbitrageDocument : Insights.t :=
  Insights.mk (Some [])
    (Some [ Opportunity.mk "ETH" "kraken" "coinbase" 4310.5 4297.6 0.3;
            Opportunity.mk "BTC" "kraken" "coinbase" 111088.5 110866.7 0.2 ])
    (Some (healthOf [("coinbase", 95%float); ("kraken", 90%float)]))
    None.

(** A document whose collections are all empty, and one where they are
    missing. *)
Definition emptyDocument : Insights.t := Insights.mk (Some []) (Some []) (Some []) None.
Definition bareDocument : Insights.t := Insights.mk None None None None.

(** A document whose only exchange has the health score 60. *)
Definition boundaryDocument : Insights.t :=
  Insights.mk None None (Some (healthOf [("kraken", 60%float)])) None.

(** A document on healthy exchanges with three profitable opportunities and
    two strong signals, each kind in ascending order, and the lowest of the
    opportunities below the 0.5% net profit the action items ask for. *)
Definition rankingDocument : Insights.t :=
  Insights.mk
    (Some [ Signal.mk "coinbase" "ADA" "bullish" 0.85 0.9 None;
            Signal.mk "kraken" "XRP" "bearish" 0.95 0.9 None ])
    (Some [ Opportunity.mk "SOL" "kraken" "coinbase" 100.3 100 0.3;
            Opportunity.mk "BTC" "kraken" "coinbase" 100.8 100 0.8;
            Opportunity.mk "ETH" "kraken" "coinbase" 101.1 100 1.1 ])
    (Some (healthOf [("coinbase", 95%float); ("kraken", 90%float)]))
    None.

(** What the three analyses make of it. *)
Definition unsortedSignals : list Decision.t :=
  Eval vm_compute in
    fst (CryptoTradingBot.analyzeSignals plainFixed plainNow rankingDocument 0).
Definition unsortedArbitrage : list ArbitrageAction.t :=
  Eval vm_compute in
    fst (CryptoTradingBot.analyzeArbitrage plainFixed plainNow rankingDocument 2).
Definition calmMarket : MarketCondition.t :=
  Eval vm_compute in
    fst (CryptoTradingBot.analyzeMarketConditions plainNow rankingDocument 5).

(** The recommendations an example document is analysed into, from the
    first Date on. *)
Definition analysisOf (document : Insights.t) : Recommendations.t :=
  match CryptoTradingBot.executeAnalysis plainFixed plainUpper plainNow (Some document) 0 with
  | Some recommendations => recommendations
  | None => Recommendations.mk "" calmMarket [] [] []
  end.

(** A host for the bot as an object: the clock of the examples, and a
    network that is down for the second request and serves the ranking
    document otherwise. *)
Definition insightReplies (url : string) (k : nat) : option BotRun.Reply :=
  match k with
  | 1 => Some (BotRun.mkReply 503 None)
  | _ => Some (BotRun.mkReply 200 (Some rankingDocument))
  end.

(** * Properties of the insight aggregator *)

Lemma forEachPush_spec {A B : Type} (f : A -> B) (l : list A) (out : list B) :
  forEachPush f l out = out ++ map f l.
Proof.
  unfold forEachPush. revert out.
  induction l as [|x l IH]; intros out; simpl.
  - now rewrite app_nil_r.
  - rewrite IH, <- app_assoc. reflexivity.
Qed.

Lemma forEachPushStamped_map {A B C : Type} (f : nat -> A -> B) (g : B -> C) (h : A -> C)
    (l : list A) (out : list B) (k : nat) :
  (forall i x, g (f i x) = h x) ->
  map g (fst (forEachPushStamped f l out k)) = map g out ++ map h l.
Proof.
  intros Hgf. unfold forEachPushStamped. revert out k.
  induction l as [|x l IH]; intros out k; simpl.
  - now rewrite app_nil_r.
  - rewrite IH. simpl. rewrite map_app, <- app_assoc. simpl. now rewrite Hgf.
Qed.

Lemma forEachPushStamped_nil {A B : Type} (f : nat -> A -> B) (out : list B) (k : nat) :
  forEachPushStamped f [] out k = (out, k).
Proof. reflexivity. Qed.

Lemma forEachPushStamped_cons {A B : Type} (f : nat -> A -> B) x l (out : list B) (k : nat) :
  forEachPushStamped f (x :: l) out k = forEachPushStamped f l (out ++ [f k x]) (S k).
Proof. reflexivity. Qed.

(** ** The order of binary64 numbers *)

(** [<] on floats is a strict order, total on the numbers that are not
    NaN; the comparisons of the program are read through it. *)

Module FloatFacts.

Lemma compare_cont_Eq m1 m2 : Pos.compare_cont Eq m1 m2 = Pos.compare m1 m2.
Proof. reflexivity. Qed.

Ltac order_cases :=
  repeat match goal with
         | H : context [Z.compare ?a ?b] |- _ =>
           destruct (Z.compare_spec a b); subst
         | |- context [Z.compare ?a ?b] =>
           destruct (Z.compare_spec a b); subst
         | H : context [Pos.compare_cont Eq ?a ?b] |- _ =>
           rewrite compare_cont_Eq in H; destruct (Pos.compare_spec a b); subst
         | |- context [Pos.compare_cont Eq ?a ?b] =>
           rewrite compare_cont_Eq; destruct (Pos.compare_spec a b); subst
         end;
  simpl in *; try reflexivity; try discriminate; try lia.

Lemma SFltb_asym a b : SFltb a b = true -> SFltb b a = false.
Proof.
  unfold SFltb, SFcompare.
  destruct a as [sa|sa| |sa ma ea], b as [sb|sb| |sb mb eb];
    try destruct sa; try destruct sb; simpl; try reflexivity; try discriminate;
    order_cases.
Qed.

Lemma SFltb_trans a b c : SFltb a b = true -> SFltb b c = true -> SFltb a c = true.
Proof.
  unfold SFltb, SFcompare.
  destruct a as [sa|sa| |sa ma ea], b as [sb|sb| |sb mb eb], c as [sc|sc| |sc mc ec];
    try destruct sa; try destruct sb; try destruct sc; simpl;
    try reflexivity; try discriminate; intros H1 H2; order_cases.
Qed.

Lemma SFeqb_not_ltb a b : SFeqb a b = true -> SFltb a b = false /\ SFltb b a = false.
Proof.
  unfold SFeqb, SFltb, SFcompare.
  destruct a as [sa|sa| |sa ma ea], b as [sb|sb| |sb mb eb];
    try destruct sa; try destruct sb; simpl; try (split; reflexivity); try discriminate;
    intros H; split; order_cases.
Qed.

Lemma SFeqb_refl a : a <> S754_nan -> SFeqb a a = true.
Proof.
  unfold SFeqb, SFcompare.
  destruct a as [sa|sa| |sa ma ea]; try destruct sa; simpl; try reflexivity; try congruence;
    intros _; rewrite Z.compare_refl, compare_cont_Eq, Pos.compare_refl; reflexivity.
Qed.

Lemma SFeqb_nan_l b : SFeqb S754_nan b = false.
Proof. reflexivity. Qed.

Lemma SF_total a b :
  SFeqb a a = true -> SFeqb b b = true ->
  SFltb a b = false -> SFltb b a = false -> SFeqb a b = true.
Proof.
  unfold SFeqb, SFltb, SFcompare.
  destruct a as [sa|sa| |sa ma ea], b as [sb|sb| |sb mb eb];
    try destruct sa; try destruct sb; simpl; try reflexivity; try discriminate;
    intros _ _ H1 H2; order_cases.
Qed.

Lemma float_ltb_asym x y : PrimFloat.ltb x y = true -> PrimFloat.ltb y x = false.
Proof. rewrite !ltb_spec. apply SFltb_asym. Qed.

Lemma float_ltb_trans x y z :
  PrimFloat.ltb x y = true -> PrimFloat.ltb y z = true -> PrimFloat.ltb x z = true.
Proof. rewrite !ltb_spec. apply SFltb_trans. Qed.

Lemma float_eqb_not_ltb x y :
  PrimFloat.eqb x y = true -> PrimFloat.ltb x y = false /\ PrimFloat.ltb y x = false.
Proof. rewrite eqb_spec, !ltb_spec. apply SFeqb_not_ltb. Qed.

Lemma float_ltb_total x y :
  PrimFloat.is_nan x = false -> PrimFloat.is_nan y = false ->
  PrimFloat.ltb x y = false -> PrimFloat.ltb y x = false -> PrimFloat.eqb x y = true.
Proof.
  unfold PrimFloat.is_nan. rewrite !negb_false_iff, !eqb_spec, !ltb_spec. apply SF_total.
Qed.

Lemma float_ltb_nan_l x y : PrimFloat.is_nan x = true -> PrimFloat.ltb x y = false.
Proof.
  unfold PrimFloat.is_nan. rewrite negb_true_iff, eqb_spec, ltb_spec.
  unfold SFeqb, SFltb, SFcompare.
  destruct (Prim2SF x) as [sa|sa| |sa ma ea]; try destruct sa; simpl; try discriminate;
    try reflexivity;
    rewrite Z.compare_refl, compare_cont_Eq, Pos.compare_refl; discriminate.
Qed.

Lemma float_ltb_nan_r x y : PrimFloat.is_nan y = true -> PrimFloat.ltb x y = false.
Proof.
  unfold PrimFloat.is_nan. rewrite negb_true_iff, eqb_spec, ltb_spec.
  unfold SFeqb, SFltb, SFcompare.
  destruct (Prim2SF y) as [sa|sa| |sa ma ea]; try destruct sa; simpl; try discriminate;
    try (destruct (Prim2SF x) as [sb|sb| |sb mb eb]; reflexivity);
    rewrite Z.compare_refl, compare_cont_Eq, Pos.compare_refl; discriminate.
Qed.

Lemma SFltb_eqb_r a b c : SFltb c a = true -> SFeqb a b = true -> SFltb c b = true.
Proof.
  unfold SFeqb, SFltb, SFcompare.
  destruct a as [sa|sa| |sa ma ea], b as [sb|sb| |sb mb eb], c as [sc|sc| |sc mc ec];
    try destruct sa; try destruct sb; try destruct sc; simpl;
    try reflexivity; try discriminate; intros H1 H2; order_cases.
Qed.

Lemma float_ltb_eqb_r x y z :
  PrimFloat.ltb z x = true -> PrimFloat.eqb x y = true -> PrimFloat.ltb z y = true.
Proof. rewrite eqb_spec, !ltb_spec. apply SFltb_eqb_r. Qed.

End FloatFacts.

Module BotFacts.
Section Facts.

Variable toFixed : float -> nat -> string.
Variable toUpperCase : string -> string.
Variable isoNow : nat -> string.

Abbreviation analyzeSignals := (CryptoTradingBot.analyzeSignals toFixed isoNow).
Abbreviation analyzeArbitrage := (CryptoTradingBot.analyzeArbitrage toFixed isoNow).
Abbreviation analyzeMarketConditions := (CryptoTradingBot.analyzeMarketConditions isoNow).
Abbreviation generateActionItems := (CryptoTradingBot.generateActionItems toFixed toUpperCase).
Abbreviation executeAnalysis := (CryptoTradingBot.executeAnalysis toFixed toUpperCase isoNow).
Abbreviation arbitrageLine := (CryptoTradingBot.arbitrageLine toFixed).
Abbreviation signalLine := (CryptoTradingBot.signalLine toFixed toUpperCase).
Abbreviation decide := (CryptoTradingBot.decide toFixed isoNow).
Abbreviation arbitrageAction := (CryptoTradingBot.arbitrageAction toFixed isoNow).

Lemma signal_of_decide k s : Decision.signal (decide k s) = s.
Proof. destruct s; reflexivity. Qed.

Lemma analyzeSignals_signals insights k :
  map Decision.signal (fst (analyzeSignals insights k))
  = filter CryptoTradingBot.strongSignal (orEmpty (Insights.current_signals insights)).
Proof.
  unfold CryptoTradingBot.analyzeSignals.
  rewrite (forEachPushStamped_map _ Decision.signal (fun s => s)).
  - simpl. now rewrite map_id.
  - intros; apply signal_of_decide.
Qed.

(** C8: the decisions [analyzeSignals] returns are made from exactly the
    signals of the document with [strength > 0.7] and [confidence > 0.6],
    in the order of the document; of the two signals
    [{strength: 0.8, confidence: 0.7}] and [{strength: 0.5, confidence: 0.9}]
    only the first is kept. *)
Theorem signal_filter_keeps_exactly :
  (forall insights k,
      let kept := map Decision.signal (fst (analyzeSignals insights k)) in
      let signals := orEmpty (Insights.current_signals insights) in
      (forall s, In s kept <->
                 In s signals
                 /\ PrimFloat.ltb 0.7 (Signal.strength s) = true
                 /\ PrimFloat.ltb 0.6 (Signal.confidence s) = true)
      /\ kept = filter (fun s => PrimFloat.ltb 0.7 (Signal.strength s)
                                 && PrimFloat.ltb 0.6 (Signal.confidence s)) signals)
  /\ (forall arbitrage health overview k,
        map Decision.signal
          (fst (analyzeSignals
                  (Insights.mk (Some exampleSignals) arbitrage health overview) k))
        = [ Signal.mk "coinbase" "BTC" "bullish" 0.8 0.7 None ]).
Proof.
  split.
  - intros insights k kept signals. subst kept signals.
    rewrite analyzeSignals_signals. split.
    + intros s. rewrite filter_In. unfold CryptoTradingBot.strongSignal, gt.
      rewrite andb_true_iff. tauto.
    + reflexivity.
  - intros. rewrite analyzeSignals_signals. reflexivity.
Qed.

Lemma analyzeSignals_empty insights k :
  orEmpty (Insights.current_signals insights) = [] ->
  analyzeSignals insights k = ([], k).
Proof. intros H. unfold CryptoTradingBot.analyzeSignals. now rewrite H. Qed.

Lemma analyzeArbitrage_empty insights k :
  orEmpty (Insights.arbitrage_opportunities insights) = [] ->
  analyzeArbitrage insights k = ([], k).
Proof. intros H. unfold CryptoTradingBot.analyzeArbitrage. now rewrite H. Qed.

(** What [generateActionItems] returns, as one list. *)
Lemma generateActionItems_spec signals arbitrage market :
  generateActionItems signals arbitrage market
  = match MarketCondition.healthStatus market with
    | poor => [CryptoTradingBot.waitLine]
    | _ =>
      map arbitrageLine (filter CryptoTradingBot.highProfit arbitrage)
      ++ map signalLine (filter CryptoTradingBot.veryStrong signals)
      ++ [CryptoTradingBot.marketLine market]
      ++ match filter CryptoTradingBot.highProfit arbitrage,
               filter CryptoTradingBot.veryStrong signals with
         | [], [] => [CryptoTradingBot.holdLine]
         | _, _ => []
         end
    end.
Proof.
  unfold CryptoTradingBot.generateActionItems.
  destruct (MarketCondition.healthStatus market); try reflexivity;
    rewrite !forEachPush_spec; simpl app at 1;
    rewrite !length_app, !length_map; simpl List.length;
    rewrite <- !app_assoc;
    destruct (filter CryptoTradingBot.highProfit arbitrage) as [|a la];
    destruct (filter CryptoTradingBot.veryStrong signals) as [|d ld];
    try reflexivity; simpl List.length;
    match goal with
    | |- context [Nat.eqb ?n 1] =>
      replace (Nat.eqb n 1) with false by (symmetry; apply Nat.eqb_neq; lia)
    end; simpl; rewrite ?app_nil_r; reflexivity.
Qed.

Lemma executeAnalysis_spec insights k :
  exists recs,
    executeAnalysis (Some insights) k = Some recs
    /\ Recommendations.tradingSignals recs = fst (analyzeSignals insights k)
    /\ Recommendations.arbitrageOpportunities recs
       = fst (analyzeArbitrage insights (snd (analyzeSignals insights k)))
    /\ MarketCondition.healthStatus (Recommendations.marketCondition recs)
       = CryptoTradingBot.classify
           (CryptoTradingBot.averageHealth (orEmpty (Insights.exchange_health insights)))
    /\ Recommendations.actionItems recs
       = generateActionItems (Recommendations.tradingSignals recs)
           (Recommendations.arbitrageOpportunities recs)
           (Recommendations.marketCondition recs).
Proof.
  unfold CryptoTradingBot.executeAnalysis.
  destruct (analyzeSignals insights k) as [signals k1] eqn:Hs.
  destruct (analyzeArbitrage insights k1) as [arbitrage k2] eqn:Ha.
  destruct (analyzeMarketConditions insights k2) as [market k3] eqn:Hm.
  eexists; split; [reflexivity|]. simpl. rewrite Ha. simpl.
  unfold CryptoTradingBot.analyzeMarketConditions in Hm. inversion Hm; subst.
  repeat split; reflexivity.
Qed.

Lemma arbitrageLine_is_arbitrage a : isArbitrageLine (arbitrageLine a) = true.
Proof. reflexivity. Qed.

Lemma signalLine_not_arbitrage d : isArbitrageLine (signalLine d) = false.
Proof. reflexivity. Qed.

Lemma marketLine_not_arbitrage m : isArbitrageLine (CryptoTradingBot.marketLine m) = false.
Proof. reflexivity. Qed.

(** C3, as the program has it: an opportunity with a price difference of
    0.3% passes the 0.25% filter and becomes an arbitrage action whose net
    profit is [0.3 - 0.2], which is 0.09999999999999998 in binary64 (printed
    [0.10]); an opportunity with 0.2% is not among the arbitrage actions.
    Neither reaches the action items, which list an arbitrage only when its
    net profit exceeds 0.5%. *)
Theorem arbitrage_03_and_02 :
  forall opp03 opp02 insights k,
    Opportunity.price_difference_pct opp03 = 0.3%float ->
    Opportunity.price_difference_pct opp02 = 0.2%float ->
    Insights.arbitrage_opportunities insights = Some [opp03; opp02] ->
    exists recs,
    executeAnalysis (Some insights) k = Some recs /\
    (exists a,
        Recommendations.arbitrageOpportunities recs = [a]
        /\ ArbitrageAction.asset a = Opportunity.asset opp03
        /\ ArbitrageAction.grossProfitPct a = 0.3%float
        /\ ArbitrageAction.netProfitPct a = 0x1.9999999999998p-4%float
        /\ PrimFloat.eqb (ArbitrageAction.netProfitPct a) 0.1 = false
        /\ CryptoTradingBot.highProfit a = false)
    /\ (forall line, In line (Recommendations.actionItems recs) ->
                     isArbitrageLine line = false).
Proof.
  intros opp03 opp02 insights k H03 H02 Hopps.
  destruct (executeAnalysis_spec insights k) as (recs & Hrun & _ & Harb & _ & Hitems).
  exists recs. split; [exact Hrun|].
  assert (Hlist : Recommendations.arbitrageOpportunities recs
                  = [arbitrageAction (snd (analyzeSignals insights k)) opp03]).
  { rewrite Harb. unfold CryptoTradingBot.analyzeArbitrage. rewrite Hopps. simpl.
    unfold CryptoTradingBot.profitable. rewrite H03, H02. reflexivity. }
  split.
  - eexists. split; [exact Hlist|].
    unfold CryptoTradingBot.highProfit, CryptoTradingBot.arbitrageAction. simpl.
    rewrite H03. repeat split; reflexivity.
  - intros line Hin. rewrite Hitems, generateActionItems_spec in Hin.
    rewrite Hlist in Hin.
    assert (Hlow : CryptoTradingBot.highProfit
                     (arbitrageAction (snd (analyzeSignals insights k)) opp03) = false).
    { unfold CryptoTradingBot.highProfit. simpl. rewrite H03. reflexivity. }
    simpl in Hin. rewrite Hlow in Hin. simpl in Hin.
    destruct (MarketCondition.healthStatus (Recommendations.marketCondition recs)).
    + rewrite in_app_iff in Hin. destruct Hin as [Hin|Hin].
      * apply in_map_iff in Hin. destruct Hin as (d & <- & _).
        apply signalLine_not_arbitrage.
      * destruct Hin as [<-|Hin]; [reflexivity|].
        destruct (filter CryptoTradingBot.veryStrong (Recommendations.tradingSignals recs));
          simpl in Hin; [destruct Hin as [<-|[]]; reflexivity | destruct Hin].
    + rewrite in_app_iff in Hin. destruct Hin as [Hin|Hin].
      * apply in_map_iff in Hin. destruct Hin as (d & <- & _).
        apply signalLine_not_arbitrage.
      * destruct Hin as [<-|Hin]; [reflexivity|].
        destruct (filter CryptoTradingBot.veryStrong (Recommendations.tradingSignals recs));
          simpl in Hin; [destruct Hin as [<-|[]]; reflexivity | destruct Hin].
    + destruct Hin as [<-|[]]. reflexivity.
Qed.

(** C5, as the program has it: when the market is not poor, the action
    items are, in this order, one line for each arbitrage action whose net
    profit exceeds 0.5, in the order the actions were given; one line for
    each signal whose strength exceeds 0.8, in the order the signals were
    given; exactly one market line; and the hold line exactly when no
    arbitrage line and no signal line was listed. Nothing is sorted. *)
Theorem action_items_in_given_order :
  forall signals arbitrage market,
    MarketCondition.healthStatus market <> poor ->
    let arbitrageItems := filter (fun a => PrimFloat.ltb 0.5 (ArbitrageAction.netProfitPct a))
                                 arbitrage in
    let signalItems := filter (fun s => PrimFloat.ltb 0.8 (Decision.strength s)) signals in
    generateActionItems signals arbitrage market
    = map arbitrageLine arbitrageItems
      ++ map signalLine signalItems
      ++ [CryptoTradingBot.marketLine market]
      ++ (if (Nat.eqb (List.length arbitrageItems) 0 && Nat.eqb (List.length signalItems) 0)%bool
          then [CryptoTradingBot.holdLine] else []).
Proof.
  intros signals arbitrage market Hpoor arbitrageItems signalItems.
  rewrite generateActionItems_spec.
  change (filter CryptoTradingBot.highProfit arbitrage) with arbitrageItems.
  change (filter CryptoTradingBot.veryStrong signals) with signalItems.
  destruct (MarketCondition.healthStatus market); try congruence;
    destruct arbitrageItems, signalItems; reflexivity.
Qed.

(** The classification, case by case. *)
Lemma classify_healthy avg :
  CryptoTradingBot.classify avg = healthy <-> PrimFloat.ltb 80 avg = true.
Proof.
  unfold CryptoTradingBot.classify, gt.
  destruct (PrimFloat.ltb 80 avg); [tauto|].
  destruct (PrimFloat.ltb 60 avg); split; congruence.
Qed.

Lemma classify_degraded avg :
  CryptoTradingBot.classify avg = degraded
  <-> PrimFloat.ltb 80 avg = false /\ PrimFloat.ltb 60 avg = true.
Proof.
  unfold CryptoTradingBot.classify, gt.
  destruct (PrimFloat.ltb 80 avg); [split; [congruence | intros []; congruence]|].
  destruct (PrimFloat.ltb 60 avg); split; try tauto; try congruence.
  intros []; congruence.
Qed.

Lemma classify_poor avg :
  CryptoTradingBot.classify avg = poor
  <-> PrimFloat.ltb 80 avg = false /\ PrimFloat.ltb 60 avg = false.
Proof.
  unfold CryptoTradingBot.classify, gt.
  destruct (PrimFloat.ltb 80 avg); [split; [congruence | intros []; congruence]|].
  destruct (PrimFloat.ltb 60 avg); split; try tauto; try congruence.
  intros []; congruence.
Qed.

(** The specification's example: the scores 95 and 60 average to 77.5,
    which is degraded. *)
Lemma health_95_60_degraded overview k :
  let market :=
    fst (analyzeMarketConditions
           (Insights.mk None None (Some (healthOf [("a", 95%float); ("b", 60%float)])) overview)
           k) in
  MarketCondition.overallHealth market = 77.5%float
  /\ MarketCondition.healthStatus market = degraded.
Proof. split; reflexivity. Qed.

(** C6, at its boundary: a document whose only exchange has the health
    score 60 averages to exactly 60, and [analyzeMarketConditions] calls it
    poor, so that the action items are the single wait line; yet the
    recommendation the same method asks of [getMarketRecommendation], which
    tests [health < 60], is not the one for poor data. *)
Theorem health_60_is_called_poor :
  forall k,
    exists recs,
      executeAnalysis (Some boundaryDocument) k = Some recs
      /\ MarketCondition.overallHealth (Recommendations.marketCondition recs) = 60%float
      /\ MarketCondition.healthStatus (Recommendations.marketCondition recs) = poor
      /\ MarketCondition.recommendation (Recommendations.marketCondition recs)
         = "TIGHT_SPREADS: Good liquidity, favorable for trading"
      /\ Recommendations.actionItems recs = [CryptoTradingBot.waitLine].
Proof.
  intros k. eexists. split; [reflexivity|]. repeat split; reflexivity.
Qed.

(** C7, as the program has it: a document whose signals and arbitrage
    opportunities are empty or missing is analysed without an error, into
    empty trading signals and empty arbitrage opportunities. Its action items
    are the market line followed by the hold line when the market is not
    poor, and the single wait line when it is; and it is poor whenever
    [exchange_health] is empty or missing too, the average then being 0. *)
Theorem empty_collections_analysis :
  forall insights k,
    orEmpty (Insights.current_signals insights) = [] ->
    orEmpty (Insights.arbitrage_opportunities insights) = [] ->
    exists recs,
      executeAnalysis (Some insights) k = Some recs
      /\ Recommendations.tradingSignals recs = []
      /\ Recommendations.arbitrageOpportunities recs = []
      /\ Recommendations.actionItems recs
         = match MarketCondition.healthStatus (Recommendations.marketCondition recs) with
           | poor => [CryptoTradingBot.waitLine]
           | _ => [CryptoTradingBot.marketLine (Recommendations.marketCondition recs);
                   CryptoTradingBot.holdLine]
           end
      /\ (orEmpty (Insights.exchange_health insights) = [] ->
          MarketCondition.healthStatus (Recommendations.marketCondition recs) = poor
          /\ Recommendations.actionItems recs = [CryptoTradingBot.waitLine]).
Proof.
  intros insights k Hs Ha.
  destruct (executeAnalysis_spec insights k) as (recs & Hrun & Hsig & Harb & Hst & Hitems).
  exists recs. split; [exact Hrun|].
  rewrite (analyzeSignals_empty _ _ Hs) in Hsig, Harb. simpl in Hsig, Harb.
  rewrite (analyzeArbitrage_empty _ _ Ha) in Harb. simpl in Harb.
  assert (Hact : Recommendations.actionItems recs
            = match MarketCondition.healthStatus (Recommendations.marketCondition recs) with
              | poor => [CryptoTradingBot.waitLine]
              | _ => [CryptoTradingBot.marketLine (Recommendations.marketCondition recs);
                      CryptoTradingBot.holdLine]
              end).
  { rewrite Hitems, generateActionItems_spec, Hsig, Harb.
    destruct (MarketCondition.healthStatus (Recommendations.marketCondition recs));
      reflexivity. }
  split; [exact Hsig|]. split; [exact Harb|]. split; [exact Hact|].
  intros Hh. split; [rewrite Hst, Hh | rewrite Hact, Hst, Hh]; reflexivity.
Qed.

(** *** From the document to the action items *)

Lemma forEachPushStamped_spec {A B : Type} (f : nat -> A -> B) (l : list A) :
  forall (out : list B) (k : nat),
    forEachPushStamped f l out k
    = (out ++ map (fun p => f (fst p) (snd p)) (combine (seq k (List.length l)) l),
       k + List.length l).
Proof.
  induction l as [|x l IH]; intros out k.
  - rewrite forEachPushStamped_nil. simpl. now rewrite app_nil_r, Nat.add_0_r.
  - rewrite forEachPushStamped_cons, IH. simpl. rewrite <- app_assoc. simpl.
    f_equal. lia.
Qed.

Lemma stamps_of_combine {A B : Type} (f : nat -> A -> B) (stamp : B -> string)
    (l : list A) (k : nat) :
  (forall i x, stamp (f i x) = isoNow i) ->
  map stamp (map (fun p => f (fst p) (snd p)) (combine (seq k (List.length l)) l))
  = map isoNow (seq k (List.length l)).
Proof.
  intros Hstamp. revert k. induction l as [|x l IH]; intros k; [reflexivity|].
  simpl. now rewrite Hstamp, IH.
Qed.

Lemma length_stamped {A B : Type} (f : nat -> A -> B) (l : list A) (k : nat) :
  List.length (fst (forEachPushStamped f l [] k)) = List.length l.
Proof.
  rewrite forEachPushStamped_spec. simpl.
  rewrite length_map, length_combine, length_seq. apply Nat.min_id.
Qed.

Lemma opportunity_of_action k o :
  ArbitrageAction.opportunity (arbitrageAction k o) = o.
Proof. destruct o; reflexivity. Qed.

Lemma analyzeArbitrage_opportunities insights k :
  map ArbitrageAction.opportunity (fst (analyzeArbitrage insights k))
  = filter CryptoTradingBot.profitable (orEmpty (Insights.arbitrage_opportunities insights)).
Proof.
  unfold CryptoTradingBot.analyzeArbitrage.
  rewrite (forEachPushStamped_map _ _ (fun o => o)).
  - simpl. apply map_id.
  - intros i o. apply opportunity_of_action.
Qed.

Lemma arbitrage_stamps insights k :
  map ArbitrageAction.timestamp (fst (analyzeArbitrage insights k))
  = map isoNow (seq k (List.length (fst (analyzeArbitrage insights k))))
  /\ snd (analyzeArbitrage insights k) = k + List.length (fst (analyzeArbitrage insights k)).
Proof.
  unfold CryptoTradingBot.analyzeArbitrage.
  set (l := filter CryptoTradingBot.profitable _).
  rewrite length_stamped. rewrite forEachPushStamped_spec. cbn [fst snd app].
  split; [|reflexivity]. apply stamps_of_combine. reflexivity.
Qed.

(** X11: the arbitrage actions mirror the opportunities of the document
    whose price difference exceeds 0.25, one action for each, in the order
    of the document: bought on the low exchange at the low price, sold on
    the high exchange at the high price, with the price difference as gross
    profit and the gross profit less 0.2 as net profit. The actions are
    stamped by the Dates constructed one after the other from the [k]-th
    on, one for each action. *)
Theorem arbitrage_actions_mirror_opportunities :
  forall insights k,
    let actions := fst (analyzeArbitrage insights k) in
    let opportunities := orEmpty (Insights.arbitrage_opportunities insights) in
    map ArbitrageAction.opportunity actions
    = filter (fun o => PrimFloat.ltb 0.25 (Opportunity.price_difference_pct o)) opportunities
    /\ Forall (fun a =>
                 ArbitrageAction.type a = "arbitrage"
                 /\ ArbitrageAction.netProfitPct a = (ArbitrageAction.grossProfitPct a - 0.2)%float
                 /\ ArbitrageAction.reason a
                    = ("Arbitrage opportunity: " ++ toFixed (ArbitrageAction.netProfitPct a) 2
                         ++ "% net profit")%string)
              actions
    /\ map ArbitrageAction.timestamp actions = map isoNow (seq k (List.length actions))
    /\ snd (analyzeArbitrage insights k) = k + List.length actions.
Proof.
  intros insights k actions opportunities.
  split; [apply analyzeArbitrage_opportunities|].
  split; [|apply arbitrage_stamps].
  unfold actions, CryptoTradingBot.analyzeArbitrage.
  rewrite forEachPushStamped_spec. cbn [fst app].
  apply Forall_forall. intros a Ha. apply in_map_iff in Ha.
  destruct Ha as ([i o] & <- & _). repeat split.
Qed.

Lemma executeAnalysis_run insights k :
  let signals := analyzeSignals insights k in
  let arbitrage := analyzeArbitrage insights (snd signals) in
  let market := analyzeMarketConditions insights (snd arbitrage) in
  executeAnalysis (Some insights) k
  = Some (Recommendations.mk (isoNow (snd market)) (fst market) (fst signals) (fst arbitrage)
            (generateActionItems (fst signals) (fst arbitrage) (fst market))).
Proof.
  intros signals arbitrage market. unfold CryptoTradingBot.executeAnalysis.
  fold signals. destruct signals as [sg k1] eqn:Hs. cbn [snd] in arbitrage.
  unfold arbitrage in *. clear arbitrage.
  destruct (analyzeArbitrage insights k1) as [ar k2] eqn:Ha. cbn [snd] in market.
  unfold market. clear market.
  destruct (analyzeMarketConditions insights k2) as [mk k3] eqn:Hm. reflexivity.
Qed.

(** X12: an analysis constructs its Dates in the order of its steps: one
    for each decision, then one for each arbitrage action, then the one of
    the market condition, and last the one of the recommendations. From the
    [k]-th Date on, the decisions carry the times [k], [k + 1], ...; the
    arbitrage actions the times that follow; the market condition the next;
    and the recommendations the one after. *)
Theorem analysis_is_stamped_step_by_step :
  forall insights k recs,
    executeAnalysis (Some insights) k = Some recs ->
    let n1 := List.length (Recommendations.tradingSignals recs) in
    let n2 := List.length (Recommendations.arbitrageOpportunities recs) in
    map Decision.timestamp (Recommendations.tradingSignals recs) = map isoNow (seq k n1)
    /\ map ArbitrageAction.timestamp (Recommendations.arbitrageOpportunities recs)
       = map isoNow (seq (k + n1) n2)
    /\ MarketCondition.timestamp (Recommendations.marketCondition recs) = isoNow (k + n1 + n2)
    /\ Recommendations.timestamp recs = isoNow (k + n1 + n2 + 1).
Proof.
  intros insights k recs Hrun. rewrite executeAnalysis_run in Hrun.
  cbv zeta in Hrun. injection Hrun as <-. intros n1 n2.
  cbn [Recommendations.tradingSignals Recommendations.arbitrageOpportunities
       Recommendations.marketCondition Recommendations.timestamp] in n1, n2 |- *.
  assert (H1 : snd (analyzeSignals insights k) = k + n1
               /\ map Decision.timestamp (fst (analyzeSignals insights k))
                  = map isoNow (seq k n1)).
  { unfold n1. unfold CryptoTradingBot.analyzeSignals.
    set (l := filter CryptoTradingBot.strongSignal _).
    rewrite length_stamped. rewrite forEachPushStamped_spec. cbn [fst snd app].
    split; [reflexivity|]. apply stamps_of_combine. reflexivity. }
  destruct H1 as [Hk1 Ht1]. subst n2. rewrite Hk1.
  destruct (arbitrage_stamps insights (k + n1)) as [Ht2 Hk2]. rewrite Hk2.
  split; [exact Ht1|]. split; [exact Ht2|].
  unfold CryptoTradingBot.analyzeMarketConditions. cbn [fst snd MarketCondition.timestamp].
  split; [reflexivity|]. f_equal. lia.
Qed.

Lemma filter_map_commute {A B : Type} (f : A -> B) (p : B -> bool) (l : list A) :
  filter p (map f l) = map f (filter (fun x => p (f x)) l).
Proof.
  induction l as [|x l IH]; [reflexivity|]. simpl.
  destruct (p (f x)); simpl; now rewrite IH.
Qed.

Lemma filter_filter {A : Type} (p q : A -> bool) (l : list A) :
  filter p (filter q l) = filter (fun x => p x && q x) l.
Proof.
  induction l as [|x l IH]; [reflexivity|]. simpl.
  destruct (q x); simpl; rewrite ?andb_false_r, ?andb_true_r.
  - destruct (p x); now rewrite IH.
  - exact IH.
Qed.

(** A strength above 0.8 is above 0.7. *)
Lemma above_08_is_above_07 x : PrimFloat.ltb 0.8 x = true -> PrimFloat.ltb 0.7 x = true.
Proof. apply FloatFacts.float_ltb_trans. reflexivity. Qed.

(** X13: what reaches the action items from the document, when the market
    is not poor. The arbitrage lines are made, in the order of the
    document, of the opportunities whose price difference exceeds 0.25 and,
    less 0.2, exceeds 0.5. The signal lines are made, in the order of the
    document, of the signals whose strength exceeds 0.8 and whose
    confidence exceeds 0.6: the threshold 0.7 of the first filter plays no
    part. The market line follows, and the hold line when nothing else was
    listed. *)
Theorem from_document_to_action_items :
  forall insights k recs,
    executeAnalysis (Some insights) k = Some recs ->
    MarketCondition.healthStatus (Recommendations.marketCondition recs) <> poor ->
    exists listedArbitrage listedSignals,
      Recommendations.actionItems recs
      = map arbitrageLine listedArbitrage
        ++ map signalLine listedSignals
        ++ [CryptoTradingBot.marketLine (Recommendations.marketCondition recs)]
        ++ match listedArbitrage, listedSignals with
           | [], [] => [CryptoTradingBot.holdLine]
           | _, _ => []
           end
      /\ map ArbitrageAction.opportunity listedArbitrage
         = filter (fun o =>
                     PrimFloat.ltb 0.25 (Opportunity.price_difference_pct o)
                     && PrimFloat.ltb 0.5 (Opportunity.price_difference_pct o - 0.2)%float)
             (orEmpty (Insights.arbitrage_opportunities insights))
      /\ map Decision.signal listedSignals
         = filter (fun s =>
                     PrimFloat.ltb 0.8 (Signal.strength s)
                     && PrimFloat.ltb 0.6 (Signal.confidence s))
             (orEmpty (Insights.current_signals insights)).
Proof.
  intros insights k recs Hrun Hstatus.
  destruct (executeAnalysis_spec insights k) as (recs' & Hrun' & Hsig & Harb & _ & Hitems).
  rewrite Hrun in Hrun'. inversion Hrun'; subst recs'; clear Hrun'.
  exists (filter CryptoTradingBot.highProfit (Recommendations.arbitrageOpportunities recs)),
         (filter CryptoTradingBot.veryStrong (Recommendations.tradingSignals recs)).
  split; [|split].
  - rewrite Hitems, generateActionItems_spec.
    destruct (MarketCondition.healthStatus (Recommendations.marketCondition recs));
      [reflexivity | reflexivity | now elim Hstatus].
  - rewrite Harb.
    transitivity
      (filter (fun o => PrimFloat.ltb 0.5 (Opportunity.price_difference_pct o - 0.2)%float)
         (map ArbitrageAction.opportunity
            (fst (analyzeArbitrage insights (snd (analyzeSignals insights k)))))).
    + rewrite filter_map_commute. f_equal. apply filter_ext_in. intros a Ha.
      unfold CryptoTradingBot.analyzeArbitrage in Ha.
      rewrite forEachPushStamped_spec in Ha. cbn [fst app] in Ha.
      apply in_map_iff in Ha. destruct Ha as ([i o] & <- & _). reflexivity.
    + rewrite analyzeArbitrage_opportunities, filter_filter.
      apply filter_ext. intros o. apply andb_comm.
  - rewrite Hsig.
    transitivity
      (filter (fun s => PrimFloat.ltb 0.8 (Signal.strength s))
         (map Decision.signal (fst (analyzeSignals insights k)))).
    + rewrite filter_map_commute. f_equal.
    + rewrite analyzeSignals_signals, filter_filter.
      apply filter_ext. intros s. unfold CryptoTradingBot.strongSignal, gt.
      destruct (PrimFloat.ltb 0.8 (Signal.strength s)) eqn:H08; [|reflexivity].
      now rewrite (above_08_is_above_07 _ H08).
Qed.

(** *** The health status and the recommendation *)

Lemma recommendation_caution health overview :
  CryptoTradingBot.getMarketRecommendation health overview
  = "CAUTION: Poor data quality, avoid trading"%string
  <-> PrimFloat.ltb health 60 = true.
Proof.
  unfold CryptoTradingBot.getMarketRecommendation.
  destruct (PrimFloat.ltb health 60); [tauto|].
  split; [|discriminate].
  destruct (gt _ 0.05); [discriminate|].
  destruct (PrimFloat.ltb _ 0.01); [discriminate|].
  destruct (gt _ 0.05); discriminate.
Qed.

(** X14: the health status and the recommendation of a market condition
    are computed from the same average by two tests, [> 60] and [< 60].
    They agree whenever the average is below 60: the recommendation is the
    one for poor data, the status is poor, and the action items are the
    wait line alone. They part only at the boundary: a status of poor with
    another recommendation means that the average is exactly 60, or is not
    a number; and in both of these cases that is what happens. *)
Theorem caution_and_poor_part_only_at_60 :
  forall insights k recs,
    executeAnalysis (Some insights) k = Some recs ->
    let market := Recommendations.marketCondition recs in
    let avgHealth := MarketCondition.overallHealth market in
    let caution := "CAUTION: Poor data quality, avoid trading"%string in
    (MarketCondition.recommendation market = caution <-> PrimFloat.ltb avgHealth 60 = true)
    /\ (MarketCondition.recommendation market = caution ->
        MarketCondition.healthStatus market = poor
        /\ Recommendations.actionItems recs = [CryptoTradingBot.waitLine])
    /\ (MarketCondition.healthStatus market = poor
        /\ MarketCondition.recommendation market <> caution
        <-> PrimFloat.eqb avgHealth 60 = true \/ PrimFloat.is_nan avgHealth = true).
Proof.
  intros insights k recs Hrun. rewrite executeAnalysis_run in Hrun.
  cbv zeta in Hrun. injection Hrun as <-. intros market avgHealth caution.
  unfold CryptoTradingBot.analyzeMarketConditions in market.
  cbn [fst Recommendations.marketCondition] in market.
  cbn [MarketCondition.overallHealth market] in avgHealth.
  assert (Hrec : MarketCondition.recommendation market = caution
                 <-> PrimFloat.ltb avgHealth 60 = true).
  { apply recommendation_caution. }
  assert (Hpoor : MarketCondition.healthStatus market = poor
                  <-> PrimFloat.ltb 80 avgHealth = false /\ PrimFloat.ltb 60 avgHealth = false).
  { apply classify_poor. }
  assert (Hbelow : PrimFloat.ltb avgHealth 60 = true ->
                   PrimFloat.ltb 80 avgHealth = false /\ PrimFloat.ltb 60 avgHealth = false).
  { intros Hlt. split; [|now apply FloatFacts.float_ltb_asym].
    destruct (PrimFloat.ltb 80 avgHealth) eqn:H80; [|reflexivity].
    pose proof (FloatFacts.float_ltb_trans _ _ _ H80 Hlt) as Habs.
    vm_compute in Habs. discriminate. }
  split; [exact Hrec|]. split.
  - intros Hc. apply Hrec in Hc. pose proof (proj2 Hpoor (Hbelow Hc)) as Hst.
    split; [exact Hst|].
    cbn [Recommendations.actionItems]. rewrite generateActionItems_spec.
    fold market. now rewrite Hst.
  - split.
    + intros [Hst Hne]. apply Hpoor in Hst. destruct Hst as [_ H60].
      destruct (PrimFloat.ltb avgHealth 60) eqn:Hlt; [elim Hne; now apply Hrec|].
      destruct (PrimFloat.is_nan avgHealth) eqn:Hnan; [now right|]. left.
      apply FloatFacts.float_ltb_total; auto.
    + intros [Heq|Hnan].
      * destruct (FloatFacts.float_eqb_not_ltb _ _ Heq) as [Hlt Hgt].
        split.
        -- apply Hpoor. split; [|exact Hgt].
           destruct (PrimFloat.ltb 80 avgHealth) eqn:H80; [|reflexivity].
           pose proof (FloatFacts.float_ltb_eqb_r _ _ _ H80 Heq) as Habs.
           vm_compute in Habs. discriminate.
        -- intros Hc. apply Hrec in Hc. congruence.
      * split.
        -- apply Hpoor. split; now apply FloatFacts.float_ltb_nan_r.
        -- intros Hc. apply Hrec in Hc.
           rewrite (FloatFacts.float_ltb_nan_l _ _ Hnan) in Hc. discriminate.
Qed.

(** X15: a document without [market_overview] is analysed as a market
    with no volume, no spread and no volatility, and a spread of 0 counts
    as tight: unless the average health is below 60, the recommendation is
    the one for tight spreads and good liquidity. The same holds with an
    overview that lacks the L5 spread, as long as its volatility does not
    exceed 0.05. *)
Theorem missing_overview_reads_as_tight_spreads :
  forall insights k,
    let market := fst (analyzeMarketConditions insights k) in
    let overview := MarketOverview.orDefault (Insights.market_overview insights) in
    MarketOverview.average_spreads_L5 overview = None ->
    PrimFloat.ltb 0.05 (orZero (MarketOverview.market_volatility overview)) = false ->
    MarketCondition.avgSpread market = 0%float
    /\ MarketCondition.recommendation market
       = (if PrimFloat.ltb (MarketCondition.overallHealth market) 60
          then "CAUTION: Poor data quality, avoid trading"
          else "TIGHT_SPREADS: Good liquidity, favorable for trading")%string
    /\ (Insights.market_overview insights = None ->
        MarketCondition.totalVolume market = 0%float
        /\ MarketCondition.volatility market = 0%float).
Proof.
  intros insights k market overview Hspread Hvol.
  unfold market, CryptoTradingBot.analyzeMarketConditions.
  cbn [fst MarketCondition.avgSpread MarketCondition.recommendation
       MarketCondition.overallHealth MarketCondition.totalVolume MarketCondition.volatility].
  fold overview. rewrite Hspread. split; [reflexivity|]. split.
  - unfold CryptoTradingBot.getMarketRecommendation, gt. rewrite Hspread, Hvol.
    reflexivity.
  - intros Hnone. unfold overview. rewrite Hnone. split; reflexivity.
Qed.

End Facts.

(** *** Runs on the example documents *)

Abbreviation runAnalysis := (CryptoTradingBot.executeAnalysis plainFixed plainUpper plainNow).

Lemma arbitrage_03_and_02_run :
  exists recs,
    runAnalysis (Some arbitrageDocument) 0 = Some recs /\
    (exists a,
        Recommendations.arbitrageOpportunities recs = [a]
        /\ ArbitrageAction.asset a = "ETH"
        /\ ArbitrageAction.grossProfitPct a = 0.3%float
        /\ ArbitrageAction.netProfitPct a = 0x1.9999999999998p-4%float
        /\ PrimFloat.eqb (ArbitrageAction.netProfitPct a) 0.1 = false
        /\ CryptoTradingBot.highProfit a = false)
    /\ (forall line, In line (Recommendations.actionItems recs) ->
                     isArbitrageLine line = false).
Proof.
  apply (arbitrage_03_and_02 plainFixed plainUpper plainNow
           (Opportunity.mk "ETH" "kraken" "coinbase" 4310.5 4297.6 0.3)
           (Opportunity.mk "BTC" "kraken" "coinbase" 111088.5 110866.7 0.2)
           arbitrageDocument 0); reflexivity.
Defined.

(** The opportunity with a price difference of 0.3% becomes an arbitrage
    action, but no action item is made of it: the items of that run are the
    market line and the hold line. *)
Lemma arbitrage_03_not_an_action_item :
  exists recs a,
    runAnalysis (Some arbitrageDocument) 0 = Some recs
    /\ Recommendations.arbitrageOpportunities recs = [a]
    /\ ArbitrageAction.grossProfitPct a = 0.3%float
    /\ Recommendations.actionItems recs
       = [ "📊 Market: TIGHT_SPREADS: Good liquidity, favorable for trading";
           "😴 No strong signals or arbitrage - HOLD current positions" ]
    /\ ~ In (CryptoTradingBot.arbitrageLine plainFixed a) (Recommendations.actionItems recs).
Proof.
  eexists. eexists. split; [reflexivity|]. split; [reflexivity|].
  split; [reflexivity|]. split; [reflexivity|].
  simpl. intros [H|[H|[]]]; discriminate H.
Qed.

Lemma action_items_in_given_order_run :
  CryptoTradingBot.generateActionItems plainFixed plainUpper
    unsortedSignals unsortedArbitrage calmMarket
  = [ "💰 ARBITRAGE: BTC - #% profit available";
      "💰 ARBITRAGE: ETH - #% profit available";
      "🎯 bullish: ADA on coinbase (#% strength)";
      "🎯 bearish: XRP on kraken (#% strength)";
      "📊 Market: TIGHT_SPREADS: Good liquidity, favorable for trading" ].
Proof.
  rewrite (action_items_in_given_order plainFixed plainUpper
             unsortedSignals unsortedArbitrage calmMarket).
  - reflexivity.
  - discriminate.
Defined.

(** On the document with opportunities and signals in ascending order, the
    action items are not the ranking the specification words: they keep the
    order of the document, and leave out the arbitrage whose net profit is
    below 0.5. *)
Lemma action_items_not_ranked :
  exists recs,
    runAnalysis (Some rankingDocument) 0 = Some recs
    /\ Recommendations.tradingSignals recs = unsortedSignals
    /\ Recommendations.arbitrageOpportunities recs = unsortedArbitrage
    /\ Recommendations.marketCondition recs = calmMarket
    /\ MarketCondition.healthStatus calmMarket = healthy
    /\ Recommendations.actionItems recs
       = [ "💰 ARBITRAGE: BTC - #% profit available";
           "💰 ARBITRAGE: ETH - #% profit available";
           "🎯 bullish: ADA on coinbase (#% strength)";
           "🎯 bearish: XRP on kraken (#% strength)";
           "📊 Market: TIGHT_SPREADS: Good liquidity, favorable for trading" ]
    /\ rankedActionItems plainFixed plainUpper unsortedSignals unsortedArbitrage calmMarket
       = [ "💰 ARBITRAGE: ETH - #% profit available";
           "💰 ARBITRAGE: BTC - #% profit available";
           "💰 ARBITRAGE: SOL - #% profit available";
           "🎯 bearish: XRP on kraken (#% strength)";
           "🎯 bullish: ADA on coinbase (#% strength)";
           "📊 Market: TIGHT_SPREADS: Good liquidity, favorable for trading" ]
    /\ Recommendations.actionItems recs
       <> rankedActionItems plainFixed plainUpper unsortedSignals unsortedArbitrage calmMarket.
Proof.
  eexists. split; [reflexivity|]. repeat (split; [reflexivity|]).
  vm_compute. discriminate.
Qed.

Lemma empty_collections_analysis_run :
  exists recs,
    runAnalysis (Some bareDocument) 0 = Some recs
    /\ Recommendations.tradingSignals recs = []
    /\ Recommendations.arbitrageOpportunities recs = []
    /\ Recommendations.actionItems recs
       = match MarketCondition.healthStatus (Recommendations.marketCondition recs) with
         | poor => [CryptoTradingBot.waitLine]
         | _ => [CryptoTradingBot.marketLine (Recommendations.marketCondition recs);
                 CryptoTradingBot.holdLine]
         end
    /\ (orEmpty (Insights.exchange_health bareDocument) = [] ->
        MarketCondition.healthStatus (Recommendations.marketCondition recs) = poor
        /\ Recommendations.actionItems recs = [CryptoTradingBot.waitLine]).
Proof.
  apply (empty_collections_analysis plainFixed plainUpper plainNow bareDocument 0);
    reflexivity.
Defined.

(** A document with empty collections, or with none, yields the wait line
    alone: no hold item is among its action items. *)
Lemma empty_document_has_no_hold_item :
  (exists recs,
      runAnalysis (Some emptyDocument) 0 = Some recs
      /\ Recommendations.actionItems recs
         = ["⚠️  WAIT - Poor data quality, avoid trading until health improves"]
      /\ ~ In CryptoTradingBot.holdLine (Recommendations.actionItems recs))
  /\ (exists recs,
      runAnalysis (Some bareDocument) 0 = Some recs
      /\ ~ In CryptoTradingBot.holdLine (Recommendations.actionItems recs)).
Proof.
  split; eexists; (split; [reflexivity|]).
  - split; [reflexivity|]. simpl. intros [H|[]]; discriminate H.
  - simpl. intros [H|[]]; discriminate H.
Qed.

(** On the ranking document, analysed from the first Date on: two
    decisions, three arbitrage actions, and the Dates 0 to 6. *)
Lemma analysis_is_stamped_step_by_step_run :
  map Decision.timestamp (Recommendations.tradingSignals (analysisOf rankingDocument))
  = map plainNow [0; 1]
  /\ map ArbitrageAction.timestamp
       (Recommendations.arbitrageOpportunities (analysisOf rankingDocument))
     = map plainNow [2; 3; 4]
  /\ MarketCondition.timestamp (Recommendations.marketCondition (analysisOf rankingDocument))
     = plainNow 5
  /\ Recommendations.timestamp (analysisOf rankingDocument) = plainNow 6.
Proof.
  apply (analysis_is_stamped_step_by_step plainFixed plainUpper plainNow
           rankingDocument 0 (analysisOf rankingDocument)).
  reflexivity.
Defined.

(** On the ranking document the opportunity with a price difference of
    0.3 is not listed, the two others are; both signals are. *)
Lemma from_document_to_action_items_run :
  exists listedArbitrage listedSignals,
    Recommendations.actionItems (analysisOf rankingDocument)
    = map (CryptoTradingBot.arbitrageLine plainFixed) listedArbitrage
      ++ map (CryptoTradingBot.signalLine plainFixed plainUpper) listedSignals
      ++ [CryptoTradingBot.marketLine (Recommendations.marketCondition
                                         (analysisOf rankingDocument))]
      ++ match listedArbitrage, listedSignals with
         | [], [] => [CryptoTradingBot.holdLine]
         | _, _ => []
         end
    /\ map ArbitrageAction.opportunity listedArbitrage
       = [ Opportunity.mk "BTC" "kraken" "coinbase" 100.8 100 0.8;
           Opportunity.mk "ETH" "kraken" "coinbase" 101.1 100 1.1 ]
    /\ map Decision.signal listedSignals
       = [ Signal.mk "coinbase" "ADA" "bullish" 0.85 0.9 None;
           Signal.mk "kraken" "XRP" "bearish" 0.95 0.9 None ].
Proof.
  apply (from_document_to_action_items plainFixed plainUpper plainNow
           rankingDocument 0 (analysisOf rankingDocument)).
  - reflexivity.
  - vm_compute. discriminate.
Defined.

(** On the document whose only score is 60: poor, and not the
    recommendation for poor data. *)
Lemma caution_and_poor_part_only_at_60_run :
  let market := Recommendations.marketCondition (analysisOf boundaryDocument) in
  MarketCondition.healthStatus market = poor
  /\ MarketCondition.recommendation market <> "CAUTION: Poor data quality, avoid trading".
Proof.
  destruct (caution_and_poor_part_only_at_60 plainFixed plainUpper plainNow
              boundaryDocument 0 (analysisOf boundaryDocument) eq_refl)
    as (_ & _ & Hboundary).
  apply Hboundary. left. reflexivity.
Defined.

(** The document with two opportunities has no market overview. *)
Lemma missing_overview_reads_as_tight_spreads_run :
  let market :=
    fst (CryptoTradingBot.analyzeMarketConditions plainNow arbitrageDocument 0) in
  MarketCondition.avgSpread market = 0%float
  /\ MarketCondition.recommendation market
     = "TIGHT_SPREADS: Good liquidity, favorable for trading"
  /\ (Insights.market_overview arbitrageDocument = None ->
      MarketCondition.totalVolume market = 0%float
      /\ MarketCondition.volatility market = 0%float).
Proof.
  apply (missing_overview_reads_as_tight_spreads plainNow arbitrageDocument 0).
  - reflexivity.
  - reflexivity.
Defined.

End BotFacts.

(** * Properties of the bot as an object *)

Module BotRunFacts.
Section Facts.
Local Open Scope string_scope.

Variable toFixed : float -> nat -> string.
Variable toUpperCase : string -> string.
Variable isoNow : nat -> string.
Variable dateNow : nat -> N.
Variable network : string -> nat -> option BotRun.Reply.

Abbreviation getMLInsights := (BotRun.getMLInsights dateNow network).
Abbreviation executeAnalysis :=
  (BotRun.executeAnalysis toFixed toUpperCase isoNow dateNow network).
Abbreviation analyses := (BotRun.analyses toFixed toUpperCase isoNow dateNow network).
Abbreviation analysisOf := (CryptoTradingBot.executeAnalysis toFixed toUpperCase isoNow).

Lemma getMLInsights_effect bot :
  let url := BotRun.insightsUrl ++ "?t=" ++ Js.showN (dateNow (BotRun.clockReads bot)) in
  snd (getMLInsights bot)
  = BotRun.mkBot (BotRun.isRunning bot) (BotRun.tradingHistory bot) (BotRun.datesMade bot)
      (S (BotRun.clockReads bot)) (BotRun.sent bot ++ [url])%list
  /\ fst (getMLInsights bot)
     = match network url (List.length (BotRun.sent bot)) with
       | Some response => if BotRun.ok response then BotRun.json response else None
       | None => None
       end.
Proof.
  intros url. unfold BotRun.getMLInsights. fold url.
  destruct (network url (List.length (BotRun.sent bot))) as [response|]; [|split; reflexivity].
  destruct (BotRun.ok response); split; reflexivity.
Qed.

(** The analysis on the object returns what the analysis of the fetched
    document gives, and records it. *)
Lemma executeAnalysis_effect bot :
  let fetched := fst (getMLInsights bot) in
  let bot1 := snd (getMLInsights bot) in
  let result := analysisOf fetched (BotRun.datesMade bot) in
  fst (executeAnalysis bot) = result
  /\ BotRun.tradingHistory (snd (executeAnalysis bot))
     = (BotRun.tradingHistory bot
        ++ match result with Some recs => [recs] | None => [] end)%list
  /\ BotRun.sent (snd (executeAnalysis bot)) = BotRun.sent bot1
  /\ BotRun.clockReads (snd (executeAnalysis bot)) = BotRun.clockReads bot1
  /\ BotRun.isRunning (snd (executeAnalysis bot)) = BotRun.isRunning bot
  /\ BotRun.datesMade (snd (executeAnalysis bot))
     = BotRun.datesMade bot
       + match result with
         | Some recs =>
           List.length (Recommendations.tradingSignals recs)
           + List.length (Recommendations.arbitrageOpportunities recs) + 2
         | None => 0
         end.
Proof.
  intros fetched bot1 result.
  destruct (getMLInsights_effect bot) as [Hbot1 _]. cbv zeta in Hbot1. fold bot1 in Hbot1.
  unfold BotRun.executeAnalysis, result.
  destruct (getMLInsights bot) as [insights b1] eqn:Hget.
  cbn [fst snd] in fetched, bot1. subst fetched bot1.
  destruct insights as [insights|].
  - rewrite BotFacts.executeAnalysis_run. cbv zeta.
    assert (Hd : BotRun.datesMade b1 = BotRun.datesMade bot) by now rewrite Hbot1.
    rewrite Hd.
    destruct (CryptoTradingBot.analyzeSignals toFixed isoNow insights (BotRun.datesMade bot))
      as [signals k1] eqn:Hs.
    cbn [fst snd].
    destruct (CryptoTradingBot.analyzeArbitrage toFixed isoNow insights k1)
      as [arbitrage k2] eqn:Ha.
    cbn [fst snd].
    pose proof (BotFacts.length_stamped (CryptoTradingBot.decide toFixed isoNow)
                  (filter CryptoTradingBot.strongSignal
                     (orEmpty (Insights.current_signals insights)))
                  (BotRun.datesMade bot)) as Hl1.
    pose proof (BotFacts.forEachPushStamped_spec (CryptoTradingBot.decide toFixed isoNow)
                  (filter CryptoTradingBot.strongSignal
                     (orEmpty (Insights.current_signals insights)))
                  [] (BotRun.datesMade bot)) as Hk1.
    unfold CryptoTradingBot.analyzeSignals in Hs. rewrite Hs in Hl1, Hk1.
    cbn [fst] in Hl1. injection Hk1 as _ Hk1. rewrite <- Hl1 in Hk1.
    destruct (BotFacts.arbitrage_stamps toFixed isoNow insights k1) as [_ Hk2].
    rewrite Ha in Hk2. cbn [fst snd] in Hk2.
    unfold CryptoTradingBot.analyzeMarketConditions.
    cbn [fst snd BotRun.tradingHistory BotRun.sent BotRun.clockReads BotRun.isRunning
         BotRun.datesMade Recommendations.tradingSignals
         Recommendations.arbitrageOpportunities].
    rewrite Hbot1. cbn [BotRun.tradingHistory BotRun.isRunning].
    repeat split. lia.
  - cbn [fst snd CryptoTradingBot.executeAnalysis]. rewrite Hbot1.
    cbn [BotRun.tradingHistory BotRun.isRunning BotRun.datesMade].
    rewrite app_nil_r, Nat.add_0_r. repeat split.
Qed.

(** X16: one analysis on the object. It reads the clock once and sends one
    request, for the insight document with the reading as the [t]
    parameter. It returns nothing exactly when no document came back: the
    request was rejected, or answered with a status that is not a success,
    or its body could not be used. Otherwise it returns the analysis of the
    document, stamped from the Dates the object has constructed so far,
    and appends it to the trading history; the history is left as it was
    when nothing is returned. [isRunning] is not touched. *)
Theorem analysis_is_recorded :
  forall bot,
    let url := BotRun.insightsUrl ++ "?t=" ++ Js.showN (dateNow (BotRun.clockReads bot)) in
    let fetched :=
      match network url (List.length (BotRun.sent bot)) with
      | Some response => if BotRun.ok response then BotRun.json response else None
      | None => None
      end in
    let result := fst (executeAnalysis bot) in
    let bot' := snd (executeAnalysis bot) in
    result = analysisOf fetched (BotRun.datesMade bot)
    /\ (result = None <-> fetched = None)
    /\ BotRun.tradingHistory bot'
       = (BotRun.tradingHistory bot
          ++ match result with Some recs => [recs] | None => [] end)%list
    /\ BotRun.sent bot' = (BotRun.sent bot ++ [url])%list
    /\ BotRun.clockReads bot' = S (BotRun.clockReads bot)
    /\ BotRun.isRunning bot' = BotRun.isRunning bot
    /\ BotRun.datesMade bot'
       = BotRun.datesMade bot
         + match result with
           | Some recs =>
             List.length (Recommendations.tradingSignals recs)
             + List.length (Recommendations.arbitrageOpportunities recs) + 2
           | None => 0
           end.
Proof.
  intros bot url fetched result bot'.
  destruct (getMLInsights_effect bot) as [Hbot1 Hfetched]. cbv zeta in Hbot1, Hfetched.
  fold url in Hbot1, Hfetched. fold fetched in Hfetched.
  destruct (executeAnalysis_effect bot) as (Hres & Hhist & Hsent & Hclock & Hrun & Hdates).
  rewrite Hfetched in Hres, Hhist, Hdates. rewrite Hbot1 in Hsent, Hclock.
  fold result in Hres. fold bot' in Hhist, Hsent, Hclock, Hrun, Hdates.
  rewrite <- Hres in Hhist, Hdates.
  split; [exact Hres|]. split.
  - rewrite Hres. destruct fetched as [insights|]; [|tauto].
    rewrite BotFacts.executeAnalysis_run. cbv zeta. split; discriminate.
  - repeat split; assumption.
Qed.

Lemma analyses_step n bot :
  BotRun.analyses toFixed toUpperCase isoNow dateNow network (S n) bot
  = (fst (executeAnalysis bot) :: fst (analyses n (snd (executeAnalysis bot))),
     snd (analyses n (snd (executeAnalysis bot)))).
Proof.
  cbn [BotRun.analyses]. destruct (executeAnalysis bot) as [result bot1].
  cbn [fst snd]. destruct (analyses n bot1) as [results bot2]. reflexivity.
Qed.

(** X17: the trading history is a record of what the analyses returned.
    After [n] analyses made one after the other, it is the history from
    before followed by the recommendations these analyses returned, in
    their order, an analysis that returned nothing leaving no trace; so
    nothing recorded is ever changed or dropped. The object has then sent
    [n] more requests and read the clock [n] more times, and the Dates it
    constructs are counted on. *)
Theorem history_keeps_every_recommendation :
  forall n bot,
    let results := fst (analyses n bot) in
    let bot' := snd (analyses n bot) in
    BotRun.tradingHistory bot' = (BotRun.tradingHistory bot ++ Js.filterNotNull results)%list
    /\ List.length results = n
    /\ List.length (BotRun.sent bot') = List.length (BotRun.sent bot) + n
    /\ BotRun.clockReads bot' = BotRun.clockReads bot + n
    /\ BotRun.datesMade bot <= BotRun.datesMade bot'
    /\ BotRun.isRunning bot' = BotRun.isRunning bot.
Proof.
  induction n as [|n IH]; intros bot results bot'.
  - unfold results, bot'. cbn [BotRun.analyses fst snd Js.filterNotNull List.length].
    rewrite app_nil_r, !Nat.add_0_r. repeat split. lia.
  - unfold results, bot'. rewrite analyses_step. cbn [fst snd].
    destruct (executeAnalysis_effect bot) as (_ & Hhist & Hsent & Hclock & Hrun & Hdates).
    destruct (getMLInsights_effect bot) as [Hbot1 _]. cbv zeta in Hbot1.
    rewrite Hbot1 in Hsent, Hclock. cbn [BotRun.sent BotRun.clockReads] in Hsent, Hclock.
    destruct (executeAnalysis bot) as [result bot1] eqn:Hexec. cbn [fst snd] in *.
    specialize (IH bot1). cbv zeta in IH.
    destruct IH as (IHhist & IHlen & IHsent & IHclock & IHdates & IHrun).
    assert (Hresult : result
                      = analysisOf (fst (getMLInsights bot)) (BotRun.datesMade bot)).
    { pose proof (proj1 (executeAnalysis_effect bot)) as H. cbv zeta in H.
      rewrite Hexec in H. exact H. }
    rewrite <- Hresult in Hhist, Hdates.
    split; [|split; [|split; [|split; [|split]]]].
    + rewrite IHhist, Hhist, <- app_assoc. f_equal. destruct result; reflexivity.
    + cbn [List.length]. now rewrite IHlen.
    + rewrite IHsent, Hsent, length_app. cbn [List.length]. lia.
    + rewrite IHclock, Hclock. lia.
    + lia.
    + congruence.
Qed.

End Facts.

(** *** A run of the object *)

(** Three analyses, the second of which finds the document unavailable:
    the history holds the first and the third. *)
Lemma history_of_three_analyses :
  let run := BotRun.analyses plainFixed plainUpper plainNow Demo.clock insightReplies 3
               BotRun.newBot in
  map (fun result => match result with Some _ => true | None => false end) (fst run)
  = [true; false; true]
  /\ List.length (BotRun.tradingHistory (snd run)) = 2
  /\ BotRun.sent (snd run)
     = [ "https://storage.googleapis.com/bananazone/ml_insights/latest.json?t=1757439877000";
         "https://storage.googleapis.com/bananazone/ml_insights/latest.json?t=1757439877001";
         "https://storage.googleapis.com/bananazone/ml_insights/latest.json?t=1757439877002" ]%string
  /\ BotRun.datesMade (snd run) = 14.
Proof. vm_compute. repeat split. Qed.

End BotRunFacts.

(** * Properties of the host's strings and maps *)

Module JsFacts.
Local Open Scope string_scope.

Abbreviation noDash := Js.noDash.

Lemma noDash_app_dash x y : noDash (x ++ String "-" y) -> False.
Proof.
  induction x as [|c x IH]; simpl.
  - intros [H _]. now apply H.
  - intros [_ H]. now apply IH.
Qed.

Lemma noDash_digits d : noDash (DecimalString.NilEmpty.string_of_uint d).
Proof.
  induction d; simpl; (exact I || (split; [discriminate | assumption])).
Qed.

Lemma noDash_showN n : noDash (Js.showN n).
Proof. apply noDash_digits. Qed.

Lemma showN_inj n n' : Js.showN n = Js.showN n' -> n = n'.
Proof.
  unfold Js.showN. intros H. apply DecimalN.Unsigned.to_uint_inj.
  assert (Hs : Some (N.to_uint n) = Some (N.to_uint n')).
  { rewrite <- !DecimalString.NilEmpty.usu. now rewrite H. }
  now inversion Hs.
Qed.

(** The last [-] of a string cuts it in one way only. *)
Lemma dash_split_unique a b d d' :
  noDash d -> noDash d' ->
  a ++ String "-" d = b ++ String "-" d' -> a = b /\ d = d'.
Proof.
  intros Hd Hd'. revert b.
  induction a as [|c a IH]; intros [|c' b] H; simpl in H.
  - inversion H. now split.
  - inversion H; subst. exfalso. now apply (noDash_app_dash b d').
  - inversion H; subst. exfalso. now apply (noDash_app_dash a d).
  - inversion H; subst. destruct (IH b) as [-> ->]; auto.
Qed.

Lemma length_append s1 s2 : String.length (s1 ++ s2) = String.length s1 + String.length s2.
Proof. induction s1; simpl; congruence. Qed.

Lemma append_assoc (s1 s2 s3 : string) : (s1 ++ s2) ++ s3 = s1 ++ (s2 ++ s3).
Proof. induction s1; simpl; congruence. Qed.

Lemma append_inv_head (p a b : string) : p ++ a = p ++ b -> a = b.
Proof. induction p; simpl; intros H; [assumption | inversion H; auto]. Qed.

Lemma substring_all s : String.substring 0 (String.length s) s = s.
Proof. induction s; simpl; congruence. Qed.

Lemma substring_skip pre s m :
  String.substring (String.length pre) m (pre ++ s) = String.substring 0 m s.
Proof. induction pre; simpl; auto. Qed.

Lemma substring_cut s k :
  k <= String.length s ->
  s = String.substring 0 k s ++ String.substring k (String.length s - k) s.
Proof.
  revert k. induction s as [|c s IH]; intros [|k] Hk; simpl in *.
  - reflexivity.
  - lia.
  - now rewrite substring_all.
  - f_equal. apply IH. lia.
Qed.

(** [endsWith] holds exactly of the strings that end with the suffix. *)
Lemma endsWith_iff s suffix :
  Js.endsWith s suffix = true <-> exists pre, s = pre ++ suffix.
Proof.
  unfold Js.endsWith. rewrite andb_true_iff, Nat.leb_le, String.eqb_eq. split.
  - intros [Hle Hsub].
    exists (String.substring 0 (String.length s - String.length suffix) s).
    pose proof (substring_cut s (String.length s - String.length suffix)) as Hcut.
    replace (String.length s - (String.length s - String.length suffix))
      with (String.length suffix) in Hcut by lia.
    rewrite Hsub in Hcut. apply Hcut. lia.
  - intros [pre ->]. rewrite length_append. split; [lia|].
    replace (String.length pre + String.length suffix - String.length suffix)
      with (String.length pre) by lia.
    rewrite substring_skip. apply substring_all.
Qed.

(** *** Maps *)

Lemma get_set_same {V : Type} key (v : V) m : Js.Map.get key (Js.Map.set key v m) = Some v.
Proof.
  induction m as [|[k w] m IH]; simpl.
  - now rewrite String.eqb_refl.
  - destruct (String.eqb key k) eqn:E; simpl; rewrite E; auto.
Qed.

Lemma get_set_other {V : Type} key key' (v : V) m :
  key <> key' -> Js.Map.get key (Js.Map.set key' v m) = Js.Map.get key m.
Proof.
  intros Hne. induction m as [|[k w] m IH]; simpl.
  - apply String.eqb_neq in Hne. now rewrite Hne.
  - destruct (String.eqb key' k) eqn:E; simpl.
    + apply String.eqb_eq in E. subst k.
      apply String.eqb_neq in Hne. now rewrite Hne.
    + now rewrite IH.
Qed.

Lemma get_delete_other {V : Type} key key' (m : Js.Map.t V) :
  key <> key' -> Js.Map.get key (Js.Map.delete key' m) = Js.Map.get key m.
Proof.
  intros Hne. induction m as [|[k w] m IH]; simpl; [reflexivity|].
  destruct (String.eqb key' k) eqn:E; simpl.
  - apply String.eqb_eq in E. subst k.
    apply String.eqb_neq in Hne. now rewrite Hne.
  - now rewrite IH.
Qed.

Lemma get_In {V : Type} key (v : V) m : Js.Map.get key m = Some v -> In (key, v) m.
Proof.
  induction m as [|[k w] m IH]; simpl; [discriminate|].
  destruct (String.eqb key k) eqn:E.
  - apply String.eqb_eq in E. intros H. inversion H. subst. now left.
  - intros H. right. auto.
Qed.

Lemma get_None_not_In {V : Type} key (m : Js.Map.t V) :
  (forall v, ~ In (key, v) m) -> Js.Map.get key m = None.
Proof.
  intros H. destruct (Js.Map.get key m) as [v|] eqn:E; [|reflexivity].
  exfalso. apply (H v). now apply get_In.
Qed.

(** Deleting a key that the entries before it do not hold. *)
Lemma delete_middle {V : Type} key (v : V) kept rest :
  (forall w, ~ In (key, w) kept) ->
  Js.Map.delete key (kept ++ (key, v) :: rest)%list = (kept ++ rest)%list.
Proof.
  induction kept as [|[k w] kept IH]; intros Hnot; simpl.
  - now rewrite String.eqb_refl.
  - destruct (String.eqb key k) eqn:E.
    + apply String.eqb_eq in E. subst k. exfalso. apply (Hnot w). now left.
    + f_equal. apply IH. intros w' Hin. apply (Hnot w'). now right.
Qed.

(** *** The order of strings *)

Lemma unitsLtb_nil_r a : Js.unitsLtb a [] = false.
Proof. destruct a; reflexivity. Qed.

Lemma unitsLtb_nil_l a : Js.unitsLtb [] a = false -> a = [].
Proof. destruct a; [reflexivity | discriminate]. Qed.

Lemma unitsLtb_irrefl a : Js.unitsLtb a a = false.
Proof.
  induction a as [|x a IH]; [reflexivity|]. simpl.
  now rewrite N.ltb_irrefl, N.eqb_refl.
Qed.

Lemma unitsLtb_trans a : forall b c,
  Js.unitsLtb a b = true -> Js.unitsLtb b c = true -> Js.unitsLtb a c = true.
Proof.
  induction a as [|x a IH]; intros [|y b] [|z c]; simpl; try congruence.
  destruct (N.ltb_spec x y) as [Hxy|Hxy].
  - intros _. destruct (N.ltb_spec y z) as [Hyz|Hyz].
    + intros _. destruct (N.ltb_spec x z); [reflexivity | lia].
    + destruct (N.eqb_spec y z) as [->|Hne]; [|discriminate].
      intros _. destruct (N.ltb_spec x z); [reflexivity | lia].
  - destruct (N.eqb_spec x y) as [->|Hne]; [|discriminate].
    intros Hab. destruct (N.ltb_spec y z) as [Hyz|Hyz]; [reflexivity|].
    destruct (N.eqb_spec y z) as [->|Hne]; [|discriminate].
    apply IH. exact Hab.
Qed.

(** What is not above [b] is below what [b] is below. *)
Lemma unitsLtb_le_trans a : forall b c,
  Js.unitsLtb b a = false -> Js.unitsLtb b c = true -> Js.unitsLtb a c = true.
Proof.
  induction a as [|x a IH]; intros [|y b] [|z c]; simpl; try congruence.
  destruct (N.ltb_spec y x) as [Hyx|Hyx]; [discriminate|].
  destruct (N.eqb_spec y x) as [->|Hne].
  - intros Hba. destruct (N.ltb_spec x z); [reflexivity|].
    destruct (N.eqb_spec x z); [|discriminate]. apply IH. exact Hba.
  - intros _. destruct (N.ltb_spec y z) as [Hyz|Hyz].
    + intros _. destruct (N.ltb_spec x z); [reflexivity | lia].
    + destruct (N.eqb_spec y z) as [->|Hne']; [|discriminate].
      intros _. destruct (N.ltb_spec x z); [reflexivity | lia].
Qed.

Lemma gtString_trans a b c :
  Js.gtString a b = true -> Js.gtString b c = true -> Js.gtString a c = true.
Proof. unfold Js.gtString. intros Hab Hbc. exact (unitsLtb_trans _ _ _ Hbc Hab). Qed.

Lemma gtString_irrefl a : Js.gtString a a = false.
Proof. apply unitsLtb_irrefl. Qed.

Lemma gtString_asym a b : Js.gtString a b = true -> Js.gtString b a = false.
Proof.
  intros Hab. destruct (Js.gtString b a) eqn:Hba; [|reflexivity].
  rewrite <- (gtString_irrefl a). symmetry. exact (gtString_trans _ _ _ Hab Hba).
Qed.

(** Nothing is below the empty string. *)
Lemma gtString_empty a : Js.gtString "" a = false.
Proof. unfold Js.gtString. apply unitsLtb_nil_r. Qed.

(** What is not above the empty string is above nothing. *)
Lemma gtString_below_empty a : Js.gtString a "" = false -> forall b, Js.gtString a b = false.
Proof.
  unfold Js.gtString. intros H b. change (Js.codeUnits "") with (@nil N) in H.
  apply unitsLtb_nil_l in H. rewrite H. apply unitsLtb_nil_r.
Qed.

(** What is not above [b] is below what is above [b]. *)
Lemma gtString_le_trans a b c :
  Js.gtString a b = false -> Js.gtString c b = true -> Js.gtString c a = true.
Proof. unfold Js.gtString. apply unitsLtb_le_trans. Qed.

Lemma not_truthy s : Js.truthy s = false -> s = "".
Proof. destruct s; [reflexivity | discriminate]. Qed.

(** *** Splitting *)

Lemma split_without sep s : Js.without sep s -> Js.split sep s = [s].
Proof.
  induction s as [|c s IH]; simpl; [reflexivity|].
  intros [Hc Hs]. rewrite Hc, (IH Hs). reflexivity.
Qed.

Lemma split_append sep s rest :
  Js.without sep s -> Js.split sep (s ++ String sep rest) = s :: Js.split sep rest.
Proof.
  induction s as [|c s IH]; simpl.
  - intros _. now rewrite Ascii.eqb_refl.
  - intros [Hc Hs]. rewrite Hc, (IH Hs). reflexivity.
Qed.

(** Splitting what [join] made gives the lines back, for lines that do not
    hold the separator. *)
Lemma split_concat sep lines :
  lines <> [] -> Forall (Js.without sep) lines ->
  Js.split sep (String.concat (String sep "") lines) = lines.
Proof.
  induction lines as [|l lines IH]; [congruence|].
  intros _ Hall. inversion Hall as [|? ? Hl Hrest]; subst.
  destruct lines as [|l2 lines].
  - simpl. now apply split_without.
  - change (String.concat (String sep "") (l :: l2 :: lines))
      with (l ++ String sep (String.concat (String sep "") (l2 :: lines))).
    rewrite split_append by exact Hl. f_equal. apply IH; [discriminate | exact Hrest].
Qed.

End JsFacts.

(** * Properties of the fetcher *)

(** ** How computations compose *)

Lemma grows_refl s : grows s s.
Proof. repeat split; auto. exists []. now rewrite app_nil_r. Qed.

Lemma grows_trans s1 s2 s3 : grows s1 s2 -> grows s2 s3 -> grows s1 s3.
Proof.
  intros (Ht & Hd & n1 & Hr) (Ht' & Hd' & n2 & Hr').
  repeat split; try lia. exists (n1 ++ n2). now rewrite Hr', Hr, app_assoc.
Qed.

Lemma quiet_refl s : quiet s s.
Proof. split; [reflexivity | apply grows_refl]. Qed.

Lemma quiet_trans s1 s2 s3 : quiet s1 s2 -> quiet s2 s3 -> quiet s1 s3.
Proof.
  intros [Hc Hg] [Hc' Hg']. split; [congruence | eapply grows_trans; eauto].
Qed.

Lemma quiet_grows s s' : quiet s s' -> grows s s'.
Proof. now intros [_ H]. Qed.

Lemma offline_refl s : offline s s.
Proof. reflexivity. Qed.

Lemma offline_trans s1 s2 s3 : offline s1 s2 -> offline s2 s3 -> offline s1 s3.
Proof. unfold offline. congruence. Qed.

Section Preserves.

Variable R : State -> State -> Prop.
Hypothesis R_refl : forall s, R s s.
Hypothesis R_trans : forall s1 s2 s3, R s1 s2 -> R s2 s3 -> R s1 s3.

Lemma preserves_ret {A : Type} (a : A) : preserves R (ret a).
Proof. intros s. apply R_refl. Qed.

Lemma preserves_throw {A : Type} (e : Error) : preserves R (@throw A e).
Proof. intros s. apply R_refl. Qed.

Lemma preserves_bind {A B : Type} (m : M A) (k : A -> M B) :
  preserves R m -> (forall a, preserves R (k a)) -> preserves R (bind m k).
Proof.
  intros Hm Hk s. unfold bind. specialize (Hm s).
  destruct (m s) as [[e|a] s1]; simpl in *; [assumption|].
  eapply R_trans; [exact Hm | apply Hk].
Qed.

Lemma preserves_tryCatch {A : Type} (m : M A) (handler : Error -> M A) :
  preserves R m -> (forall e, preserves R (handler e)) -> preserves R (tryCatch m handler).
Proof.
  intros Hm Hh s. unfold tryCatch. specialize (Hm s).
  destruct (m s) as [[e|a] s1]; simpl in *; [|assumption].
  eapply R_trans; [exact Hm | apply Hh].
Qed.

End Preserves.

Lemma blind_ret {A : Type} (a : A) : blind (ret a).
Proof. intros c s. reflexivity. Qed.

Lemma blind_throw {A : Type} (e : Error) : blind (@throw A e).
Proof. intros c s. reflexivity. Qed.

Lemma blind_bind {A B : Type} (m : M A) (k : A -> M B) :
  blind m -> (forall a, blind (k a)) -> blind (bind m k).
Proof.
  intros Hm Hk c s. unfold bind. rewrite Hm.
  destruct (m s) as [[e|a] s1]; simpl; [reflexivity | apply Hk].
Qed.

Lemma blind_tryCatch {A : Type} (m : M A) (handler : Error -> M A) :
  blind m -> (forall e, blind (handler e)) -> blind (tryCatch m handler).
Proof.
  intros Hm Hh c s. unfold tryCatch. rewrite Hm.
  destruct (m s) as [[e|a] s1]; simpl; [apply Hh | reflexivity].
Qed.

Lemma withCache_same s : withCache (cache s) s = s.
Proof. now destruct s. Qed.

(** A computation that is blind to the cache leaves it as it was. *)
Lemma blind_keeps_cache {A : Type} (m : M A) s : blind m -> cache (snd (m s)) = cache s.
Proof.
  intros Hm. specialize (Hm (cache s) s). rewrite withCache_same in Hm.
  rewrite Hm at 1. reflexivity.
Qed.

Create HintDb fx.

#[local] Hint Resolve quiet_refl grows_refl offline_refl : fx.

Ltac fx_rel :=
  first [ exact quiet_trans | exact grows_trans | exact offline_trans
        | exact quiet_refl | exact grows_refl | exact offline_refl ].

Ltac fx :=
  repeat first
    [ progress intros
    | solve [auto with fx]
    | apply preserves_ret; fx_rel
    | apply preserves_throw; fx_rel
    | apply preserves_bind; [fx_rel | | ]
    | apply preserves_tryCatch; [fx_rel | | ]
    | apply blind_ret
    | apply blind_throw
    | apply blind_bind
    | apply blind_tryCatch
    | match goal with
      | |- preserves _ (if ?b then _ else _) => destruct b
      | |- preserves _ (match ?x with _ => _ end) => destruct x
      | |- blind (if ?b then _ else _) => destruct b
      | |- blind (match ?x with _ => _ end) => destruct x
      end ].

Module FetcherFacts.
Section Facts.
Local Open Scope js_scope.

Variable bucketName : string.
Variable clock : nat -> N.
Variable random : nat -> float.
Variable network : string -> nat -> option Response.t.
Variable JSON_parse : string -> option NdRecord.record.
Variable toISOString : N -> string.
Variable numberToString : float -> string.
Variable toString36 : float -> string.

Abbreviation dateNow := (CryptoDataFetcher.dateNow clock).
Abbreviation newDateISOString := (CryptoDataFetcher.newDateISOString clock toISOString).
Abbreviation mathRandom := (CryptoDataFetcher.mathRandom random).
Abbreviation fetch := (CryptoDataFetcher.fetch network).
Abbreviation getCacheBustingUrl :=
  (CryptoDataFetcher.getCacheBustingUrl bucketName clock random toString36).
Abbreviation attempts := (CryptoDataFetcher.attempts network).
Abbreviation fetchWithCacheBusting :=
  (CryptoDataFetcher.fetchWithCacheBusting clock random network).
Abbreviation tryUrl :=
  (CryptoDataFetcher.tryUrl clock random network JSON_parse toISOString).
Abbreviation tryUrls :=
  (CryptoDataFetcher.tryUrls clock random network JSON_parse toISOString).
Abbreviation cleanOldEntries := (CryptoDataFetcher.cleanOldEntries clock).
Abbreviation storeResult := (CryptoDataFetcher.storeResult clock).
Abbreviation candidateUrls :=
  (CryptoDataFetcher.candidateUrls bucketName clock random numberToString toString36).
Abbreviation checkConsistency := (CryptoDataFetcher.checkConsistency clock).
Abbreviation fetchCryptoData :=
  (CryptoDataFetcher.fetchCryptoData bucketName clock random network JSON_parse
     toISOString numberToString toString36).
Abbreviation priceOf :=
  (CryptoDataFetcher.priceOf bucketName clock random network JSON_parse
     toISOString numberToString toString36).
Abbreviation assetsLoop :=
  (CryptoDataFetcher.assetsLoop bucketName clock random network JSON_parse
     toISOString numberToString toString36).
Abbreviation exchangesLoop :=
  (CryptoDataFetcher.exchangesLoop bucketName clock random network JSON_parse
     toISOString numberToString toString36).
Abbreviation getLatestPrices :=
  (CryptoDataFetcher.getLatestPrices bucketName clock random network JSON_parse
     toISOString numberToString toString36).
Abbreviation cacheKeyOf := CryptoDataFetcher.cacheKeyOf.
Abbreviation pathOf := CryptoDataFetcher.pathOf.
Abbreviation cacheTimeout := CryptoDataFetcher.cacheTimeout.
Abbreviation recordsOf := (FetcherSpec.recordsOf JSON_parse).
Abbreviation candidateOf := (FetcherSpec.candidateOf JSON_parse).
Abbreviation failed := FetcherSpec.failed.
Abbreviation answered500 := FetcherSpec.answered500.
Abbreviation pick := FetcherSpec.pick.
Abbreviation freshest := (FetcherSpec.freshest JSON_parse).
Abbreviation tick := FetcherSpec.tick.
Abbreviation urlsAt := (FetcherSpec.urlsAt bucketName clock random numberToString toString36).
Abbreviation bucket := (FetcherSpec.bucket clock).
Abbreviation current := (FetcherSpec.current clock).
Abbreviation Call := FetcherSpec.Call.
Abbreviation mkCall := FetcherSpec.mkCall.
Abbreviation callExchange := FetcherSpec.callExchange.
Abbreviation callAsset := FetcherSpec.callAsset.
Abbreviation callTimeframe := FetcherSpec.callTimeframe.
Abbreviation callDate := FetcherSpec.callDate.
Abbreviation callOptions := FetcherSpec.callOptions.
Abbreviation after :=
  (FetcherSpec.after bucketName clock random network JSON_parse
     toISOString numberToString toString36).
Abbreviation summaryOf := FetcherSpec.summaryOf.
Abbreviation entryFor :=
  (FetcherSpec.entryFor bucketName clock random network JSON_parse
     toISOString numberToString toString36).
Abbreviation entryOfRun :=
  (FetcherSpec.entryOfRun bucketName clock random network JSON_parse
     toISOString numberToString toString36).
Abbreviation dateFor := (FetcherSpec.dateFor clock toISOString).
Abbreviation survivors := (FetcherSpec.survivors clock).
Abbreviation asked := FetcherSpec.asked.
Abbreviation allOlder := (FetcherSpec.allOlder JSON_parse).
Abbreviation noneLater := (FetcherSpec.noneLater JSON_parse).
Abbreviation placed := (FetcherSpec.placed JSON_parse).
Abbreviation latestCalls := FetcherSpec.latestCalls.
Abbreviation startOf := FetcherSpec.startOf.
Abbreviation errorOf := (FetcherSpec.errorOf network).
Abbreviation wellFormed := FetcherSpec.wellFormed.
Abbreviation cacheOk := FetcherSpec.cacheOk.

(** *** The primitive effects *)

Lemma quiet_dateNow : preserves quiet dateNow.
Proof.
  intros s. simpl. repeat split; simpl; try lia. exists []. now rewrite app_nil_r.
Qed.

Lemma blind_dateNow : blind dateNow.
Proof. intros c s. reflexivity. Qed.

Lemma quiet_mathRandom : preserves quiet mathRandom.
Proof.
  intros s. simpl. repeat split; simpl; try lia. exists []. now rewrite app_nil_r.
Qed.

Lemma blind_mathRandom : blind mathRandom.
Proof. intros c s. reflexivity. Qed.

Lemma quiet_fetch url : preserves quiet (fetch url).
Proof.
  intros s. unfold CryptoDataFetcher.fetch.
  destruct (network url (List.length (requests s))); simpl;
    repeat split; simpl; try lia; eexists; reflexivity.
Qed.

Lemma blind_fetch url : blind (fetch url).
Proof.
  intros c s. unfold CryptoDataFetcher.fetch. simpl.
  destruct (network url (List.length (requests s))); reflexivity.
Qed.

Lemma quiet_responseText response : preserves quiet (CryptoDataFetcher.responseText response).
Proof. unfold CryptoDataFetcher.responseText. fx. Qed.

Lemma blind_responseText response : blind (CryptoDataFetcher.responseText response).
Proof. unfold CryptoDataFetcher.responseText. fx. Qed.

#[local] Hint Resolve quiet_dateNow blind_dateNow quiet_mathRandom blind_mathRandom
  quiet_fetch blind_fetch quiet_responseText blind_responseText : fx.

Lemma quiet_newDateISOString : preserves quiet newDateISOString.
Proof. unfold CryptoDataFetcher.newDateISOString. fx. Qed.

Lemma blind_newDateISOString : blind newDateISOString.
Proof. unfold CryptoDataFetcher.newDateISOString. fx. Qed.

Lemma quiet_getCacheBustingUrl path : preserves quiet (getCacheBustingUrl path).
Proof. unfold CryptoDataFetcher.getCacheBustingUrl. fx. Qed.

Lemma blind_getCacheBustingUrl path : blind (getCacheBustingUrl path).
Proof. unfold CryptoDataFetcher.getCacheBustingUrl. fx. Qed.

Lemma quiet_attempts url maxRetries fuel :
  forall attempt, preserves quiet (attempts url maxRetries attempt fuel).
Proof. induction fuel as [|fuel IH]; intros attempt; simpl; fx. Qed.

Lemma blind_attempts url maxRetries fuel :
  forall attempt, blind (attempts url maxRetries attempt fuel).
Proof. induction fuel as [|fuel IH]; intros attempt; simpl; fx. Qed.

#[local] Hint Resolve quiet_newDateISOString blind_newDateISOString
  quiet_getCacheBustingUrl blind_getCacheBustingUrl quiet_attempts blind_attempts : fx.

Lemma quiet_fetchWithCacheBusting url maxRetries :
  preserves quiet (fetchWithCacheBusting url maxRetries).
Proof. unfold CryptoDataFetcher.fetchWithCacheBusting. fx. Qed.

Lemma blind_fetchWithCacheBusting url maxRetries :
  blind (fetchWithCacheBusting url maxRetries).
Proof. unfold CryptoDataFetcher.fetchWithCacheBusting. fx. Qed.

#[local] Hint Resolve quiet_fetchWithCacheBusting blind_fetchWithCacheBusting : fx.

Lemma quiet_tryUrl url best : preserves quiet (tryUrl url best).
Proof. unfold CryptoDataFetcher.tryUrl. fx. Qed.

Lemma blind_tryUrl url best : blind (tryUrl url best).
Proof. unfold CryptoDataFetcher.tryUrl. fx. Qed.

#[local] Hint Resolve quiet_tryUrl blind_tryUrl : fx.

Lemma quiet_tryUrls urls : forall best, preserves quiet (tryUrls urls best).
Proof. induction urls as [|url urls IH]; intros best; simpl; fx. Qed.

Lemma blind_tryUrls urls : forall best, blind (tryUrls urls best).
Proof. induction urls as [|url urls IH]; intros best; simpl; fx. Qed.

Lemma quiet_candidateUrls path : preserves quiet (candidateUrls path).
Proof. unfold CryptoDataFetcher.candidateUrls. fx. Qed.

Lemma blind_candidateUrls path : blind (candidateUrls path).
Proof. unfold CryptoDataFetcher.candidateUrls. fx. Qed.

Lemma quiet_checkConsistency r : preserves quiet (checkConsistency r).
Proof. unfold CryptoDataFetcher.checkConsistency. fx. Qed.

Lemma blind_checkConsistency r : blind (checkConsistency r).
Proof. unfold CryptoDataFetcher.checkConsistency. fx. Qed.

#[local] Hint Resolve quiet_tryUrls blind_tryUrls quiet_candidateUrls blind_candidateUrls
  quiet_checkConsistency blind_checkConsistency : fx.

(** *** The request log of one candidate URL *)

Lemma failed_no_candidate url e : failed url e -> candidateOf e = None.
Proof.
  intros [_ H]. unfold candidateOf. destruct (snd e) as [r|]; [|reflexivity].
  now rewrite H.
Qed.

(** The retry loop: it logs at most [fuel] requests for [url], all failed
    but the last one when it returns a response. *)
Lemma attempts_log url maxRetries fuel :
  forall attempt s res s',
    attempts url maxRetries attempt fuel s = (res, s') ->
    cache s' = cache s /\ ticks s' = ticks s /\ draws s' = draws s
    /\ exists new,
        requests s' = requests s ++ new
        /\ List.length new <= fuel
        /\ (attempt <= maxRetries -> 1 <= fuel -> 1 <= List.length new)
        /\ match res with
           | inr (Some r) =>
             Response.ok r = true
             /\ exists fails, new = fails ++ [(url, Some r)] /\ Forall (failed url) fails
           | _ => Forall (failed url) new
           end.
Proof.
  induction fuel as [|fuel IH]; intros attempt s res s' Hrun; simpl in Hrun.
  - inversion Hrun; subst. repeat split; auto.
    exists []. rewrite app_nil_r. repeat split; auto; lia.
  - destruct (Nat.leb attempt maxRetries) eqn:Hle.
    2:{ inversion Hrun; subst. repeat split; auto.
        exists []. rewrite app_nil_r. apply Nat.leb_gt in Hle.
        repeat split; auto; simpl; lia. }
    unfold tryCatch, bind, CryptoDataFetcher.fetch in Hrun.
    set (s1 := mkState (cache s) (ticks s) (draws s)
                 (requests s ++ [(url, network url (List.length (requests s)))])) in *.
    assert (Hretry : forall e,
               (if Nat.eqb attempt maxRetries then throw e
                else attempts url maxRetries (S attempt) fuel) s1 = (res, s') ->
               failed url (url, network url (List.length (requests s))) ->
               cache s' = cache s /\ ticks s' = ticks s /\ draws s' = draws s
               /\ exists new,
                   requests s' = requests s ++ new
                   /\ List.length new <= S fuel
                   /\ (attempt <= maxRetries -> 1 <= S fuel -> 1 <= List.length new)
                   /\ match res with
                      | inr (Some r) =>
                        Response.ok r = true
                        /\ exists fails, new = fails ++ [(url, Some r)]
                                         /\ Forall (failed url) fails
                      | _ => Forall (failed url) new
                      end).
    { intros e Hh Hfail. destruct (Nat.eqb attempt maxRetries).
      - inversion Hh; subst. repeat split; auto.
        eexists. split; [reflexivity|]. simpl. repeat split; auto; lia.
      - apply IH in Hh. destruct Hh as (Hc & Ht & Hd & new & Hreq & Hlen & _ & Hres).
        repeat split; auto.
        exists ((url, network url (List.length (requests s))) :: new).
        split; [rewrite Hreq; simpl; now rewrite <- app_assoc|].
        split; [simpl; lia|]. split; [simpl; lia|].
        destruct res as [e'|[r|]]; auto.
        destruct Hres as (Hok & fails & -> & Hfails). split; [assumption|].
        exists ((url, network url (List.length (requests s))) :: fails). split; auto. }
    destruct (network url (List.length (requests s))) as [r|] eqn:Hnet; simpl in Hrun.
    + destruct (Response.ok r) eqn:Hok; simpl in Hrun.
      * inversion Hrun; subst. repeat split; auto.
        eexists. split; [reflexivity|]. simpl. repeat split; auto; try lia.
        exists []. split; auto.
      * apply (Hretry _ Hrun). split; auto.
    + apply (Hretry _ Hrun). split; simpl; auto.
Qed.

Lemma recordsOf_blank text : Js.truthy (Js.trim text) = false -> recordsOf text = [].
Proof.
  intros H. unfold recordsOf. apply JsFacts.not_truthy in H. rewrite H. reflexivity.
Qed.

Lemma length_zero_nil {A : Type} (l : list A) : Nat.eqb (List.length l) 0 = true -> l = [].
Proof. destruct l; [reflexivity | discriminate]. Qed.

(** The retry loop with the attempts it has left, [fuel] of them up to
    [maxRetries]: a response it returns is a success, the answer to the last
    request it sent, after fewer than [fuel] failed ones; it throws after
    exactly [fuel] failed requests, the error of the last; it falls through
    only when no attempt is left. *)
Lemma attempts_contract url maxRetries fuel :
  forall attempt s res s',
    attempt + fuel = S maxRetries ->
    attempts url maxRetries attempt fuel s = (res, s') ->
    exists new,
      requests s' = requests s ++ new
      /\ match res with
         | inr (Some r) =>
           Response.ok r = true
           /\ exists fails,
               new = fails ++ [(url, Some r)]
               /\ Forall (failed url) fails
               /\ List.length fails < fuel
               /\ network url (List.length (requests s) + List.length fails) = Some r
         | inr None => fuel = 0 /\ new = []
         | inl e =>
           1 <= fuel /\ List.length new = fuel /\ Forall (failed url) new
           /\ e = errorOf url (List.length (requests s) + fuel - 1)
         end.
Proof.
  induction fuel as [|fuel IH]; intros attempt s res s' Hsum Hrun; simpl in Hrun.
  - inversion Hrun; subst. exists []. rewrite app_nil_r. auto.
  - replace (Nat.leb attempt maxRetries) with true in Hrun
      by (symmetry; apply Nat.leb_le; lia).
    unfold tryCatch, bind, CryptoDataFetcher.fetch in Hrun.
    set (k := List.length (requests s)) in *.
    set (s1 := mkState (cache s) (ticks s) (draws s) (requests s ++ [(url, network url k)]))
      in *.
    assert (Hretry :
              failed url (url, network url k) ->
              (if Nat.eqb attempt maxRetries then throw (errorOf url k)
               else attempts url maxRetries (S attempt) fuel) s1 = (res, s') ->
              exists new,
                requests s' = requests s ++ new
                /\ match res with
                   | inr (Some r) =>
                     Response.ok r = true
                     /\ exists fails,
                         new = fails ++ [(url, Some r)]
                         /\ Forall (failed url) fails
                         /\ List.length fails < S fuel
                         /\ network url (k + List.length fails) = Some r
                   | inr None => S fuel = 0 /\ new = []
                   | inl e =>
                     1 <= S fuel /\ List.length new = S fuel /\ Forall (failed url) new
                     /\ e = errorOf url (k + S fuel - 1)
                   end).
    { intros Hfail Hh. destruct (Nat.eqb attempt maxRetries) eqn:Hlast.
      - apply Nat.eqb_eq in Hlast. assert (fuel = 0) by lia. subst fuel.
        inversion Hh; subst. eexists. split; [reflexivity|].
        split; [lia|]. split; [reflexivity|]. split; [now constructor|].
        f_equal. lia.
      - apply Nat.eqb_neq in Hlast.
        apply IH in Hh; [|lia]. destruct Hh as (new & Hreq & Hres).
        assert (Hk : List.length (requests s1) = S k).
        { subst s1 k. simpl. rewrite length_app. simpl. lia. }
        exists ((url, network url k) :: new).
        split; [rewrite Hreq; subst s1; simpl; now rewrite <- app_assoc|].
        destruct res as [e|[r|]].
        + destruct Hres as (Hf & Hlen & Hall & He). rewrite Hk in He.
          split; [lia|]. split; [simpl; lia|]. split; [now constructor|].
          rewrite He. f_equal. lia.
        + destruct Hres as (Hok & fails & -> & Hall & Hlen & Hnet). rewrite Hk in Hnet.
          split; [exact Hok|]. exists ((url, network url k) :: fails).
          split; [reflexivity|]. split; [now constructor|]. split; [simpl; lia|].
          rewrite <- Hnet. f_equal. simpl. lia.
        + destruct Hres as [Hz _]. lia. }
    unfold errorOf in Hretry.
    destruct (network url k) as [r|] eqn:Hnet; simpl in Hrun.
    + destruct (Response.ok r) eqn:Hok; simpl in Hrun.
      * inversion Hrun; subst. eexists. split; [reflexivity|].
        split; [exact Hok|]. exists []. split; [reflexivity|].
        split; [constructor|]. split; [simpl; lia|].
        rewrite Nat.add_0_r. exact Hnet.
      * apply Hretry; [split; simpl; auto | exact Hrun].
    + apply Hretry; [split; simpl; auto | exact Hrun].
Qed.

(** One turn of the loop over the candidate URLs: it never throws; it logs
    one or two requests, all for [url]; and [best] changes only by [pick],
    on the records of the last of these requests, the only one that can
    have yielded any. *)
Lemma tryUrl_spec url best s res s' :
  tryUrl url best s = (res, s') ->
  exists best' new,
    res = inr best'
    /\ requests s' = requests s ++ new
    /\ 1 <= List.length new <= 2
    /\ Forall (fun e => fst e = url) new
    /\ ((best' = best /\ Forall (fun e => candidateOf e = None) new)
        \/ exists fails e recs lr fetchTime,
            new = fails ++ [e]
            /\ Forall (fun e' => candidateOf e' = None) fails
            /\ candidateOf e = Some (url, recs, lr)
            /\ best' = pick best url recs lr fetchTime).
Proof.
  unfold CryptoDataFetcher.tryUrl, CryptoDataFetcher.fetchWithCacheBusting.
  unfold tryCatch at 1. unfold bind at 1 2 3.
  cbn [CryptoDataFetcher.dateNow CryptoDataFetcher.mathRandom cache ticks draws requests].
  set (s0 := mkState (cache s) (S (ticks s)) (S (draws s)) (requests s)).
  destruct (attempts url 2 1 2 s0) as [r1 s1] eqn:Hatt.
  destruct (attempts_log _ _ _ _ _ _ _ Hatt) as (_ & _ & _ & new & Hreq & Hlen & Hone & Hres).
  change (requests s0) with (requests s) in Hreq.
  assert (Hurl : Forall (fun e => fst e = url) new).
  { destruct r1 as [e|[r|]].
    - eapply Forall_impl; [|exact Hres]. now intros a [Ha _].
    - destruct Hres as (_ & fails & -> & Hf). apply Forall_app. split.
      + eapply Forall_impl; [|exact Hf]. now intros a [Ha _].
      + now constructor.
    - eapply Forall_impl; [|exact Hres]. now intros a [Ha _]. }
  assert (Hnone : Forall (failed url) new -> Forall (fun e => candidateOf e = None) new).
  { intros H. eapply Forall_impl; [|exact H]. intros a. apply failed_no_candidate. }
  assert (Hkeep : forall s2, requests s2 = requests s1 ->
             Forall (fun e => candidateOf e = None) new ->
             (@inr Error _ best, s2) = (res, s') ->
             exists best' new0,
               res = inr best' /\ requests s' = requests s ++ new0
               /\ 1 <= List.length new0 <= 2
               /\ Forall (fun e => fst e = url) new0
               /\ ((best' = best /\ Forall (fun e => candidateOf e = None) new0)
                   \/ exists fails e recs lr fetchTime,
                       new0 = fails ++ [e]
                       /\ Forall (fun e' => candidateOf e' = None) fails
                       /\ candidateOf e = Some (url, recs, lr)
                       /\ best' = pick best url recs lr fetchTime)).
  { intros s2 Hs2 Hn Heq. inversion Heq; subst. exists best, new.
    split; [reflexivity|]. split; [congruence|]. split; [lia|]. split; auto. }
  destruct r1 as [e|[r|]]; simpl.
  - apply Hkeep; auto.
  - destruct Hres as (Hok & fails & Hnew & Hfails).
    assert (Hfn : Forall (fun e => candidateOf e = None) fails).
    { eapply Forall_impl; [|exact Hfails]. intros a. apply failed_no_candidate. }
    assert (Hlast : forall text, Response.body r = Some text ->
               Js.lastOf (recordsOf text) = None ->
               Forall (fun e => candidateOf e = None) new).
    { intros text Hb Hl. rewrite Hnew. apply Forall_app. split; auto.
      constructor; auto. unfold candidateOf. simpl. now rewrite Hok, Hb, Hl. }
    unfold CryptoDataFetcher.responseText, CryptoDataFetcher.newDateISOString.
    unfold bind, ret, throw. cbv beta iota.
    change (fun s2 : State => (@inr Error CryptoDataFetcher.Best best, s2)) with (ret best) in *.
    destruct (Response.body r) as [text|] eqn:Hbody; cbv beta iota.
    2:{ apply Hkeep; auto. rewrite Hnew. apply Forall_app. split; auto.
        constructor; auto. unfold candidateOf. simpl. now rewrite Hok, Hbody. }
    fold (recordsOf text).
    destruct (Js.truthy (Js.trim text)) eqn:Htrim; cbn [negb].
    2:{ apply Hkeep; auto. apply (Hlast text); auto.
        now rewrite recordsOf_blank. }
    destruct (Nat.eqb _ 0) eqn:Hlines.
    { apply Hkeep; auto. apply (Hlast text); auto.
      unfold recordsOf. now rewrite (length_zero_nil _ Hlines). }
    destruct (Js.lastOf (recordsOf text)) as [lr|] eqn:Hlr.
    2:{ apply Hkeep; auto. apply (Hlast text); auto. }
    assert (Hcand : candidateOf (url, Some r) = Some (url, recordsOf text, lr)).
    { unfold candidateOf. simpl. now rewrite Hok, Hbody, Hlr. }
    destruct (CryptoDataFetcher.unset (snd best)
              || CryptoDataFetcher.later (NdRecord.t lr) (snd best)) eqn:Hcond.
    + cbn [CryptoDataFetcher.dateNow]. cbv beta iota.
      intros Heq. inversion Heq; subst res s'. eexists. exists new.
      split; [reflexivity|]. split; [simpl; congruence|]. split; [lia|]. split; auto.
      right. exists fails, (url, Some r), (recordsOf text), lr.
      exists (toISOString (clock (ticks s1))).
      repeat split; auto. unfold pick. now rewrite Hcond.
    + intros Heq. inversion Heq; subst res s'. exists best, new.
      split; [reflexivity|]. split; [simpl; congruence|]. split; [lia|]. split; auto.
      right. exists fails, (url, Some r), (recordsOf text), lr, "".
      repeat split; auto. unfold pick. now rewrite Hcond.
  - apply Hkeep; auto.
Qed.

(** *** What sends no request *)

Lemma offline_dateNow : preserves offline dateNow.
Proof. intros s. reflexivity. Qed.

Lemma offline_mathRandom : preserves offline mathRandom.
Proof. intros s. reflexivity. Qed.

Lemma offline_cacheSet key v : preserves offline (CryptoDataFetcher.cacheSet key v).
Proof. intros s. reflexivity. Qed.

Lemma offline_cacheDelete key : preserves offline (CryptoDataFetcher.cacheDelete key).
Proof. intros s. reflexivity. Qed.

Lemma offline_cacheEntries : preserves offline CryptoDataFetcher.cacheEntries.
Proof. intros s. reflexivity. Qed.

Lemma offline_cacheGet key : preserves offline (CryptoDataFetcher.cacheGet key).
Proof. intros s. reflexivity. Qed.

#[local] Hint Resolve offline_dateNow offline_mathRandom offline_cacheSet offline_cacheDelete
  offline_cacheEntries offline_cacheGet : fx.

Lemma offline_candidateUrls path : preserves offline (candidateUrls path).
Proof.
  unfold CryptoDataFetcher.candidateUrls, CryptoDataFetcher.getCacheBustingUrl. fx.
Qed.

Lemma offline_checkConsistency r : preserves offline (checkConsistency r).
Proof. unfold CryptoDataFetcher.checkConsistency. fx. Qed.

Lemma offline_cleanOldEntries entries : preserves offline (cleanOldEntries entries).
Proof. induction entries as [|[key v] entries IH]; simpl; fx. Qed.

#[local] Hint Resolve offline_candidateUrls offline_checkConsistency
  offline_cleanOldEntries : fx.

Lemma offline_storeResult key r : preserves offline (storeResult key r).
Proof. unfold CryptoDataFetcher.storeResult. fx. Qed.

#[local] Hint Resolve offline_storeResult : fx.

(** *** The freshest candidate *)

Lemma freshest_start : freshest (None, None) [].
Proof.
  split; [|split]; simpl.
  - intros e url recs lr [].
  - discriminate.
  - reflexivity.
Qed.

Lemma freshest_keep best log new :
  freshest best log -> Forall (fun e => candidateOf e = None) new ->
  freshest best (log ++ new).
Proof.
  intros (Hmax & Hin & Hnone) Hnew. rewrite Forall_forall in Hnew.
  split; [|split].
  - intros e url recs lr He Hc. apply in_app_iff in He. destruct He as [He|He].
    + eapply Hmax; eauto.
    + rewrite (Hnew e He) in Hc. discriminate.
  - intros res Hres. destruct (Hin res Hres) as (Hsnd & e & lr & He & Hc & Ht).
    split; [assumption|]. exists e, lr. rewrite in_app_iff. auto.
  - assumption.
Qed.

Lemma freshest_pick best log fails e url recs lr fetchTime :
  freshest best log ->
  Forall (fun e' => candidateOf e' = None) fails ->
  candidateOf e = Some (url, recs, lr) ->
  freshest (pick best url recs lr fetchTime) (log ++ fails ++ [e]).
Proof.
  intros Hfresh Hfails Hcand.
  assert (Hkeep := freshest_keep _ _ _ Hfresh Hfails).
  destruct Hkeep as (Hmax & Hin & Hnone). rewrite app_assoc.
  unfold pick. destruct best as [ob ol]. simpl in *.
  destruct (CryptoDataFetcher.unset ol || CryptoDataFetcher.later (NdRecord.t lr) ol)
    eqn:Hcond; simpl.
  - (* the candidate replaces the result *)
    split; [|split]; simpl; try discriminate.
    + intros e' url' recs' lr' He' Hc'. eexists. split; [reflexivity|]. simpl.
      apply in_app_iff in He'. destruct He' as [He'|[<-|[]]].
      * destruct (Hmax _ _ _ _ He' Hc') as (res & -> & Hle).
        destruct (Hin res eq_refl) as (-> & _).
        apply orb_true_iff in Hcond. destruct Hcond as [Hunset|Hlater]; simpl in *.
        -- apply negb_true_iff, JsFacts.not_truthy in Hunset. rewrite Hunset in Hle.
           now apply JsFacts.gtString_below_empty.
        -- destruct (Js.gtString (NdRecord.t lr') (NdRecord.t lr)) eqn:Hlt; [|reflexivity].
           rewrite (JsFacts.gtString_trans _ _ _ Hlt Hlater) in Hle. discriminate.
      * rewrite Hcand in Hc'. inversion Hc'; subst. apply JsFacts.gtString_irrefl.
    + intros res Hres. inversion Hres; subst. simpl. split; [reflexivity|].
      exists e, lr. rewrite in_app_iff. simpl. auto.
  - (* the result stays *)
    apply orb_false_iff in Hcond. destruct Hcond as [Hunset Hlater].
    destruct ol as [l|]; [|discriminate]. simpl in Hlater.
    destruct ob as [res|]; [|specialize (Hnone eq_refl); discriminate].
    destruct (Hin res eq_refl) as (Hl & e0 & lr0 & He0 & Hc0 & Ht0).
    inversion Hl; subst l.
    split; [|split]; simpl; try discriminate.
    + intros e' url' recs' lr' He' Hc'.
      apply in_app_iff in He'. destruct He' as [He'|[<-|[]]].
      * eapply Hmax; eauto.
      * rewrite Hcand in Hc'. inversion Hc'; subst. eauto.
    + intros res' Hres'. inversion Hres'; subst. split; [reflexivity|].
      exists e0, lr0. rewrite in_app_iff. auto.
Qed.

(** The loop over the candidate URLs never throws, and keeps the freshest
    of the candidates it logs; each URL is asked once or twice. *)
Lemma tryUrls_spec urls :
  forall best s res s' log,
    tryUrls urls best s = (res, s') ->
    freshest best log ->
    exists best' new,
      res = inr best'
      /\ requests s' = requests s ++ new
      /\ List.length urls <= List.length new <= 2 * List.length urls
      /\ freshest best' (log ++ new).
Proof.
  induction urls as [|url urls IH]; intros best s res s' log Hrun Hfresh; simpl in Hrun.
  - inversion Hrun; subst. exists best, []. rewrite !app_nil_r. simpl. auto.
  - unfold bind in Hrun. destruct (tryUrl url best s) as [r1 s1] eqn:H1.
    destruct (tryUrl_spec _ _ _ _ _ H1) as (best1 & new1 & -> & Hreq1 & Hlen1 & _ & Hcase).
    assert (Hfresh1 : freshest best1 (log ++ new1)).
    { destruct Hcase as [[-> Hnone]|(fails & e & recs & lr & ft & -> & Hf & Hc & ->)].
      - now apply freshest_keep.
      - now apply freshest_pick. }
    destruct (IH _ _ _ _ _ Hrun Hfresh1) as (best' & new & -> & Hreq & Hlen & Hfresh').
    exists best', (new1 ++ new). split; [reflexivity|].
    split; [rewrite Hreq, Hreq1; now rewrite app_assoc|].
    split; [rewrite length_app; simpl; lia|].
    now rewrite app_assoc.
Qed.

(** *** The shape of a call to fetchCryptoData *)

Lemma candidateUrls_run path s :
  candidateUrls path s
  = (inr (urlsAt path s),
     mkState (cache s) (S (S (S (ticks s)))) (S (S (draws s))) (requests s)).
Proof. reflexivity. Qed.

Lemma cleanOldEntries_returns entries :
  forall s, fst (cleanOldEntries entries s) = inr tt.
Proof.
  induction entries as [|[key v] entries IH]; intros s; simpl; [reflexivity|].
  unfold bind. simpl.
  destruct (negb (Js.endsWith key _)); simpl; apply IH.
Qed.

Lemma storeResult_returns key r s : fst (storeResult key r s) = inr tt.
Proof.
  unfold CryptoDataFetcher.storeResult, bind. simpl. apply cleanOldEntries_returns.
Qed.

(** A call either answers from the cache, after one reading of the clock,
    or runs a round over the candidate URLs: it then throws when the round
    found no result, and otherwise returns the result the round found, after
    the consistency check and, when the cache is in use, the store. *)
Lemma fetchCryptoData_cases exchange asset timeframe date options s res s' :
  fetchCryptoData exchange asset timeframe date options s = (res, s') ->
  let path := pathOf exchange asset timeframe date in
  let key := cacheKeyOf path (clock (ticks s)) in
  let useCache := Options.default true (Options.useCache options) in
  let consistencyCheck := Options.default true (Options.consistencyCheck options) in
  (useCache = true
   /\ exists r, Js.Map.get key (cache s) = Some r /\ res = inr r /\ s' = tick s)
  \/ ((useCache = false \/ Js.Map.get key (cache s) = None)
      /\ exists best s2,
          tryUrls (urlsAt path (tick s)) (None, None)
            (mkState (cache s) (4 + ticks s) (2 + draws s) (requests s))
          = (inr best, s2)
          /\ ((fst best = None /\ res = inl (FetchExhausted exchange asset) /\ s' = s2)
              \/ exists r,
                  fst best = Some r /\ res = inr r
                  /\ s' = let s3 := if consistencyCheck then tick s2 else s2 in
                          if useCache then snd (storeResult key r s3) else s3)).
Proof.
  intros Hrun path key useCache consistencyCheck.
  unfold CryptoDataFetcher.fetchCryptoData in Hrun.
  fold path in Hrun. unfold bind at 1 in Hrun.
  cbn [CryptoDataFetcher.dateNow] in Hrun. fold (tick s) in Hrun.
  fold key useCache consistencyCheck in Hrun.
  unfold bind at 1 in Hrun. clearbody useCache consistencyCheck.
  assert (Hmiss : (useCache = false \/ Js.Map.get key (cache s) = None) ->
            (urls <- candidateUrls path;;
             best <- tryUrls urls (None, None);;
             match fst best with
             | Some bestResult =>
               (if consistencyCheck then checkConsistency bestResult else ret tt);;;
               (if useCache then storeResult key bestResult else ret tt);;;
               ret bestResult
             | None => throw (FetchExhausted exchange asset)
             end) (tick s) = (res, s') ->
            (useCache = false \/ Js.Map.get key (cache s) = None)
            /\ exists best s2,
                tryUrls (urlsAt path (tick s)) (None, None)
                  (mkState (cache s) (4 + ticks s) (2 + draws s) (requests s))
                = (inr best, s2)
                /\ ((fst best = None /\ res = inl (FetchExhausted exchange asset) /\ s' = s2)
                    \/ exists r,
                        fst best = Some r /\ res = inr r
                        /\ s' = let s3 := if consistencyCheck then tick s2 else s2 in
                                if useCache then snd (storeResult key r s3) else s3)).
  { intros Hm H. split; [exact Hm|].
    unfold bind at 1 in H. rewrite candidateUrls_run in H.
    unfold bind at 1 in H. simpl cache in H. simpl ticks in H. simpl draws in H.
    simpl requests in H.
    destruct (tryUrls (urlsAt path (tick s)) (None, None) _) as [rb s2] eqn:Hround.
    destruct (tryUrls_spec _ _ _ _ _ [] Hround freshest_start) as (best & new & -> & _).
    exists best, s2. split; [reflexivity|].
    destruct (fst best) as [r|].
    - right. exists r. split; [reflexivity|].
      unfold bind, ret in H.
      assert (Hcheck : (if consistencyCheck then checkConsistency r
                        else fun s0 => (inr tt, s0)) s2
                       = (inr tt, if consistencyCheck then tick s2 else s2)).
      { destruct consistencyCheck; reflexivity. }
      rewrite Hcheck in H. cbv zeta.
      destruct useCache.
      + pose proof (storeResult_returns key r (if consistencyCheck then tick s2 else s2)) as Hst.
        destruct (storeResult key r _) as [rs s3]. simpl in Hst. subst rs.
        inversion H; subst. split; reflexivity.
      + inversion H; subst. split; reflexivity.
    - left. inversion H; subst. auto. }
  destruct useCache eqn:Huse.
  - unfold CryptoDataFetcher.cacheGet in Hrun.
    change (cache (tick s)) with (cache s) in Hrun.
    destruct (Js.Map.get key (cache s)) as [r|] eqn:Hget.
    + left. split; [reflexivity|]. exists r. unfold ret in Hrun.
      inversion Hrun; subst. auto.
    + right. apply Hmiss; auto.
  - right. apply Hmiss; auto.
Qed.

(** The requests of a call that ran a round, and what the round found. *)
Lemma fetchCryptoData_round exchange asset timeframe date options s res s' :
  Options.default true (Options.useCache options) = false
  \/ Js.Map.get (cacheKeyOf (pathOf exchange asset timeframe date) (clock (ticks s)))
       (cache s) = None ->
  fetchCryptoData exchange asset timeframe date options s = (res, s') ->
  exists best round,
    requests s' = requests s ++ round
    /\ 3 <= List.length round <= 6
    /\ freshest best round
    /\ match fst best with
       | Some r => res = inr r
       | None => res = inl (FetchExhausted exchange asset)
       end.
Proof.
  intros Hmiss Hrun.
  destruct (fetchCryptoData_cases _ _ _ _ _ _ _ _ Hrun)
    as [(Huse & r & Hget & _)|(_ & best & s2 & Hround & Hend)].
  { destruct Hmiss; congruence. }
  destruct (tryUrls_spec _ _ _ _ _ [] Hround freshest_start)
    as (best' & round & Hbest & Hreq & Hlen & Hfresh).
  inversion Hbest; subst best'. simpl in Hreq, Hlen, Hfresh.
  exists best, round. split; [|split; [lia|split; [exact Hfresh|]]].
  - destruct Hend as [(_ & _ & ->)|(r & _ & _ & ->)]; [exact Hreq|].
    rewrite <- Hreq. cbv zeta.
    assert (H3 : requests (if Options.default true (Options.consistencyCheck options)
                           then tick s2 else s2) = requests s2).
    { destruct (Options.default true (Options.consistencyCheck options)); reflexivity. }
    destruct (Options.default true (Options.useCache options)); [|exact H3].
    rewrite <- H3. apply offline_storeResult.
  - destruct Hend as [(-> & -> & _)|(r & -> & -> & _)]; reflexivity.
Qed.

(** *** Each URL is asked, and where the result stands *)

Lemma offline_responseText response : preserves offline (CryptoDataFetcher.responseText response).
Proof. unfold CryptoDataFetcher.responseText. fx. Qed.

Lemma offline_newDateISOString : preserves offline newDateISOString.
Proof. unfold CryptoDataFetcher.newDateISOString. fx. Qed.

#[local] Hint Resolve offline_responseText offline_newDateISOString : fx.

Lemma requests_tryCatch_bind {A B : Type} (m : M A) (k : A -> M B) (h : Error -> M B) s :
  (forall a, preserves offline (k a)) -> (forall e, preserves offline (h e)) ->
  requests (snd (tryCatch (bind m k) h s)) = requests (snd (m s)).
Proof.
  intros Hk Hh. unfold tryCatch, bind.
  destruct (m s) as [[e|a] s1]; cbn [snd].
  - apply (Hh e s1).
  - pose proof (Hk a s1) as H1. unfold offline in H1.
    destruct (k a s1) as [[e|b] s2]; cbn [snd] in *.
    + rewrite <- H1. apply (Hh e s2).
    + exact H1.
Qed.

(** One turn of the loop asks its URL: once, and once more when that
    failed. *)
Lemma tryUrl_asked url best s :
  exists new, requests (snd (tryUrl url best s)) = requests s ++ new /\ asked url new.
Proof.
  unfold CryptoDataFetcher.tryUrl. rewrite requests_tryCatch_bind.
  - unfold CryptoDataFetcher.fetchWithCacheBusting. unfold bind at 1 2.
    cbn [CryptoDataFetcher.dateNow CryptoDataFetcher.mathRandom cache ticks draws requests].
    set (s0 := mkState (cache s) (S (ticks s)) (S (draws s)) (requests s)).
    destruct (attempts url 2 1 2 s0) as [r1 s1] eqn:Hatt.
    destruct (attempts_contract url 2 2 1 s0 r1 s1 eq_refl Hatt) as (new & Hreq & Hres).
    exists new. split; [exact Hreq|].
    destruct r1 as [e|[r|]].
    + destruct Hres as (_ & Hlen & Hfails & _).
      destruct new as [|a [|b [|c new]]]; try discriminate.
      inversion Hfails as [|? ? Ha Hrest]; subst.
      inversion Hrest as [|? ? Hb _]; subst.
      exists [a], b. split; [reflexivity|]. split; [exact (proj1 Hb)|].
      split; [now constructor|]. split; [simpl; lia | reflexivity].
    + destruct Hres as (Hok & fails & -> & Hfails & Hlen & _).
      exists fails, (url, Some r). split; [reflexivity|]. split; [reflexivity|].
      split; [exact Hfails|]. split; [lia|].
      intros [_ Hfailed]. simpl in Hfailed. congruence.
    + destruct Hres as [Habs _]. discriminate.
  - intros response. fx.
  - intros e. fx.
Qed.

Lemma placed_start : placed (None, None) [].
Proof. intros res H. discriminate. Qed.

Lemma placed_keep best log new :
  placed best log -> Forall (fun e => candidateOf e = None) new ->
  placed best (log ++ new).
Proof.
  intros Hp Hnew res Hres. rewrite Forall_forall in Hnew.
  destruct (Hp res Hres) as (before & e & after & lr & -> & Hc & Ht & Hold & Hlate).
  exists before, e, (after ++ new), lr.
  split; [now rewrite <- app_assoc|]. split; [exact Hc|]. split; [exact Ht|].
  split; [exact Hold|].
  intros e' url recs lr' He' Hc'. apply in_app_iff in He'. destruct He' as [He'|He'].
  - eapply Hlate; eauto.
  - rewrite (Hnew e' He') in Hc'. discriminate.
Qed.

Lemma placed_pick best log fails e url recs lr fetchTime :
  freshest best log -> placed best log ->
  Forall (fun e' => candidateOf e' = None) fails ->
  candidateOf e = Some (url, recs, lr) ->
  placed (pick best url recs lr fetchTime) (log ++ fails ++ [e]).
Proof.
  intros (Hmax & Hin & Hnone) Hp Hfails Hcand.
  unfold pick. destruct best as [ob ol]. cbn [fst snd] in *.
  destruct (CryptoDataFetcher.unset ol || CryptoDataFetcher.later (NdRecord.t lr) ol)
    eqn:Hcond.
  - (* the candidate replaces the result *)
    intros res Hres. cbn [fst] in Hres. inversion Hres; subst res; clear Hres.
    exists (log ++ fails), e, [], lr. cbn [FetchResult.metadata FetchResult.records
      Metadata.url Metadata.timestamp].
    split; [now rewrite app_assoc|]. split; [exact Hcand|]. split; [reflexivity|].
    split; [|intros e' url' recs' lr' []].
    intros e' url' recs' lr' He' Hc'. apply in_app_iff in He'. destruct He' as [He'|He'].
    2:{ rewrite Forall_forall in Hfails. rewrite (Hfails e' He') in Hc'. discriminate. }
    destruct (Hmax _ _ _ _ He' Hc') as (res0 & -> & Hle).
    destruct (Hin res0 eq_refl) as (-> & _).
    destruct (Hp res0 eq_refl) as (b & e0 & a & lr0 & -> & Hc0 & Ht0 & Hold & Hlate).
    rewrite Ht0 in Hle, Hcond.
    apply orb_true_iff in Hcond. cbn [CryptoDataFetcher.unset CryptoDataFetcher.later] in Hcond.
    apply in_app_iff in He'. destruct He' as [He'|[<-|He']].
    + destruct (Hold _ _ _ _ He' Hc') as [Hgt|Hempty]; [|now right].
      destruct Hcond as [Hunset|Hlater].
      * apply negb_true_iff, JsFacts.not_truthy in Hunset. rewrite Hunset in Hgt.
        rewrite JsFacts.gtString_empty in Hgt. discriminate.
      * left. exact (JsFacts.gtString_trans _ _ _ Hlater Hgt).
    + rewrite Hc0 in Hc'. inversion Hc'; subst lr'.
      destruct Hcond as [Hunset|Hlater]; [right; now apply negb_true_iff | now left].
    + destruct (Hlate _ _ _ _ He' Hc') as [Htruthy Hnot].
      destruct Hcond as [Hunset|Hlater].
      * rewrite Htruthy in Hunset. discriminate.
      * left. exact (JsFacts.gtString_le_trans _ _ _ Hnot Hlater).
  - (* the result stays *)
    apply orb_false_iff in Hcond. destruct Hcond as [Hunset Hlater].
    intros res Hres. cbn [fst] in Hres. subst ob.
    destruct (Hin res eq_refl) as (-> & _).
    cbn [CryptoDataFetcher.unset CryptoDataFetcher.later] in Hunset, Hlater.
    apply negb_false_iff in Hunset.
    destruct (Hp res eq_refl) as (b & e0 & a & lr0 & -> & Hc0 & Ht0 & Hold & Hlate).
    rewrite Ht0 in Hunset, Hlater.
    exists b, e0, (a ++ fails ++ [e]), lr0.
    split; [now rewrite <- app_assoc|]. split; [exact Hc0|]. split; [exact Ht0|].
    split; [exact Hold|].
    intros e' url' recs' lr' He' Hc'.
    apply in_app_iff in He'. destruct He' as [He'|He']; [eapply Hlate; eauto|].
    apply in_app_iff in He'. destruct He' as [He'|[<-|[]]].
    + rewrite Forall_forall in Hfails. rewrite (Hfails e' He') in Hc'. discriminate.
    + rewrite Hcand in Hc'. inversion Hc'; subst lr'. auto.
Qed.

(** The loop asks every URL of its list, in the order of the list, and
    keeps the freshest of the candidates it logs, in its place. *)
Lemma tryUrls_rounds urls :
  forall best s res s' log,
    tryUrls urls best s = (res, s') ->
    freshest best log -> placed best log ->
    exists best' rounds,
      res = inr best'
      /\ requests s' = requests s ++ List.concat rounds
      /\ Forall2 asked urls rounds
      /\ freshest best' (log ++ List.concat rounds)
      /\ placed best' (log ++ List.concat rounds).
Proof.
  induction urls as [|url urls IH]; intros best s res s' log Hrun Hfresh Hplaced;
    simpl in Hrun.
  - inversion Hrun; subst. exists best, []. simpl. rewrite !app_nil_r. auto.
  - unfold bind in Hrun. destruct (tryUrl url best s) as [r1 s1] eqn:H1.
    destruct (tryUrl_asked url best s) as (round & Hround & Hasked).
    rewrite H1 in Hround. cbn [snd] in Hround.
    destruct (tryUrl_spec _ _ _ _ _ H1) as (best1 & new1 & -> & Hreq1 & _ & _ & Hcase).
    assert (new1 = round) by (apply (app_inv_head (requests s)); congruence). subst new1.
    assert (Hboth : freshest best1 (log ++ round) /\ placed best1 (log ++ round)).
    { destruct Hcase as [[-> Hnone]|(fails & e & recs & lr & ft & -> & Hf & Hc & ->)].
      - split; [now apply freshest_keep | now apply placed_keep].
      - split; [now apply freshest_pick | now apply placed_pick]. }
    destruct Hboth as [Hfresh1 Hplaced1].
    destruct (IH _ _ _ _ _ Hrun Hfresh1 Hplaced1)
      as (best' & rounds & -> & Hreq & Hall & Hfresh' & Hplaced').
    exists best', (round :: rounds). split; [reflexivity|]. cbn [List.concat].
    split; [rewrite Hreq, Hround; now rewrite app_assoc|].
    split; [now constructor|].
    rewrite app_assoc. auto.
Qed.

(** C1: a call that succeeds after a round over the candidate URLs has
    asked each of its three URLs, in the order of the list: once, and once
    more when that attempt failed. It returns one of the candidates of that
    round, that is a request answered with a success status whose body
    yielded at least one record, with the timestamp [t] of its last record
    as [metadata.timestamp]; and the last record of no candidate of the
    round is stamped later. Only the stamps decide which candidate it is:
    every candidate asked before it is stamped earlier, or with the empty
    string, and none asked after it is stamped later. *)
Theorem freshest_candidate_is_returned :
  forall exchange asset timeframe date options s result s',
    Options.default true (Options.useCache options) = false
    \/ Js.Map.get (cacheKeyOf (pathOf exchange asset timeframe date) (clock (ticks s)))
         (cache s) = None ->
    fetchCryptoData exchange asset timeframe date options s = (inr result, s') ->
    exists rounds before e after lastRecord,
      requests s' = requests s ++ List.concat rounds
      /\ Forall2 asked (urlsAt (pathOf exchange asset timeframe date) (tick s)) rounds
      /\ List.concat rounds = before ++ e :: after
      /\ candidateOf e
         = Some (Metadata.url (FetchResult.metadata result),
                 FetchResult.records result, lastRecord)
      /\ Metadata.timestamp (FetchResult.metadata result) = NdRecord.t lastRecord
      /\ (forall e' url records lastRecord',
             In e' (List.concat rounds) ->
             candidateOf e' = Some (url, records, lastRecord') ->
             Js.gtString (NdRecord.t lastRecord') (NdRecord.t lastRecord) = false)
      /\ (forall e' url records lastRecord',
             In e' before ->
             candidateOf e' = Some (url, records, lastRecord') ->
             Js.gtString (NdRecord.t lastRecord) (NdRecord.t lastRecord') = true
             \/ Js.truthy (NdRecord.t lastRecord') = false)
      /\ (forall e' url records lastRecord',
             In e' after ->
             candidateOf e' = Some (url, records, lastRecord') ->
             Js.truthy (NdRecord.t lastRecord) = true
             /\ Js.gtString (NdRecord.t lastRecord') (NdRecord.t lastRecord) = false).
Proof.
  intros exchange asset timeframe date options s result s' Hmiss Hrun.
  destruct (fetchCryptoData_cases _ _ _ _ _ _ _ _ Hrun)
    as [(Huse & r & Hget & _)|(_ & best & s2 & Hround & Hend)].
  { destruct Hmiss; congruence. }
  destruct (tryUrls_rounds _ _ _ _ _ [] Hround freshest_start placed_start)
    as (best' & rounds & Hbest & Hreq & Hasked & (Hmax & _) & Hplaced).
  inversion Hbest; subst best'. cbn [app requests] in Hreq, Hmax, Hplaced.
  destruct Hend as [(_ & Hres & _)|(r & Hb & Hres & Hs')]; [discriminate|].
  inversion Hres; subst r.
  assert (Hsame : requests s' = requests s2).
  { rewrite Hs'. cbv zeta.
    assert (H3 : requests (if Options.default true (Options.consistencyCheck options)
                           then tick s2 else s2) = requests s2).
    { destruct (Options.default true (Options.consistencyCheck options)); reflexivity. }
    destruct (Options.default true (Options.useCache options)); [|exact H3].
    rewrite <- H3. apply offline_storeResult. }
  destruct (Hplaced result Hb) as (before & e & after & lr & Hlog & Hc & Ht & Hold & Hlate).
  exists rounds, before, e, after, lr.
  split; [congruence|]. split; [exact Hasked|]. split; [exact Hlog|].
  split; [exact Hc|]. split; [exact Ht|]. split; [|split; [exact Hold | exact Hlate]].
  intros e' url records lr' He' Hc'.
  destruct (Hmax _ _ _ _ He' Hc') as (res' & Hres' & Hle).
  rewrite Hb in Hres'. inversion Hres'; subst res'. now rewrite <- Ht.
Qed.

(** *** When every request is answered with HTTP 500 *)

(** The retry loop then makes every attempt it is allowed, [maxRetries] of
    them from the first on, and throws the last error. *)
Lemma attempts_all_500 url maxRetries :
  (forall k, exists body, network url k = Some (Response.mk 500 body)) ->
  forall fuel attempt s,
    attempt + fuel = S maxRetries -> 1 <= fuel ->
    exists new,
      attempts url maxRetries attempt fuel s
      = (inl (HttpError 500),
         mkState (cache s) (ticks s) (draws s) (requests s ++ new))
      /\ List.length new = fuel
      /\ Forall (answered500 url) new.
Proof.
  intros H500. induction fuel as [|fuel IH]; intros attempt s Hsum Hfuel; [lia|].
  simpl. replace (Nat.leb attempt maxRetries) with true
    by (symmetry; apply Nat.leb_le; lia).
  unfold tryCatch, bind, CryptoDataFetcher.fetch.
  destruct (H500 (List.length (requests s))) as [body Hnet]. rewrite Hnet. simpl.
  destruct (Nat.eqb attempt maxRetries) eqn:Hlast.
  - apply Nat.eqb_eq in Hlast. assert (fuel = 0) by lia. subst fuel.
    eexists. split; [reflexivity|]. split; [reflexivity|].
    constructor; [|constructor]. split; [reflexivity|]. now exists body.
  - apply Nat.eqb_neq in Hlast.
    destruct (IH (S attempt)
                (mkState (cache s) (ticks s) (draws s)
                   (requests s ++ [(url, Some (Response.mk 500 body))])))
      as (new & Hrun & Hlen & Hall); [lia | lia |].
    exists ((url, Some (Response.mk 500 body)) :: new).
    split; [|split].
    + rewrite Hrun. simpl. now rewrite <- app_assoc.
    + simpl. now rewrite Hlen.
    + constructor; [|assumption]. split; [reflexivity|]. now exists body.
Qed.

Section All500.

Hypothesis all500 : forall url k, exists body, network url k = Some (Response.mk 500 body).

Lemma tryUrl_all_500 url best s :
  exists e1 e2,
    tryUrl url best s
    = (inr best,
       mkState (cache s) (S (ticks s)) (S (draws s)) (requests s ++ [e1; e2]))
    /\ answered500 url e1 /\ answered500 url e2.
Proof.
  unfold CryptoDataFetcher.tryUrl, CryptoDataFetcher.fetchWithCacheBusting.
  unfold tryCatch at 1. unfold bind at 1 2 3.
  cbn [CryptoDataFetcher.dateNow CryptoDataFetcher.mathRandom cache ticks draws requests].
  destruct (attempts_all_500 url 2 (all500 url) 2 1
              (mkState (cache s) (S (ticks s)) (S (draws s)) (requests s)))
    as (new & Hrun & Hlen & Hall); [reflexivity | lia |].
  rewrite Hrun. simpl.
  destruct new as [|e1 [|e2 [|e3 new]]]; try discriminate.
  inversion Hall as [|? ? H1 Hall']; subst. inversion Hall' as [|? ? H2 _]; subst.
  exists e1, e2. auto.
Qed.

Lemma tryUrls_all_500 urls :
  forall best s,
    exists s' round,
      tryUrls urls best s = (inr best, s')
      /\ requests s' = requests s ++ round
      /\ map fst round = flat_map (fun url => [url; url]) urls
      /\ Forall (fun e => exists body, snd e = Some (Response.mk 500 body)) round.
Proof.
  induction urls as [|url urls IH]; intros best s; simpl.
  - exists s, []. rewrite app_nil_r. repeat split; auto.
  - destruct (tryUrl_all_500 url best s) as (e1 & e2 & Hrun & [Hu1 Hb1] & [Hu2 Hb2]).
    unfold bind. rewrite Hrun.
    destruct (IH best (mkState (cache s) (S (ticks s)) (S (draws s)) (requests s ++ [e1; e2])))
      as (s' & round & Hrest & Hreq & Hmap & Hall).
    exists s', (e1 :: e2 :: round). split; [exact Hrest|].
    split; [rewrite Hreq; simpl; now rewrite <- app_assoc|].
    split; [simpl; now rewrite Hu1, Hu2, Hmap|].
    repeat constructor; assumption.
Qed.

Lemma urlsAt_distinct path s :
  exists u1 u2 u3, urlsAt path s = [u1; u2; u3] /\ u1 <> u2 /\ u1 <> u3 /\ u2 <> u3.
Proof.
  unfold urlsAt. do 3 eexists. split; [reflexivity|].
  repeat split; intros H;
    apply JsFacts.append_inv_head in H; simpl in H; inversion H as [H'];
    apply JsFacts.append_inv_head in H'; discriminate H'.
Qed.

(** C2, as the program has it: when every request is answered with HTTP
    500, a call that goes to the network fails with the exhaustion error
    after exactly two attempts on each of its three candidate URLs, whatever
    [options.maxRetries] is (3 by default): the option is read and never
    used, the attempts are the constant 2 passed to
    [fetchWithCacheBusting]. *)
Theorem exhausted_after_two_attempts_per_url :
  forall exchange asset timeframe date options s,
    Options.default true (Options.useCache options) = false
    \/ Js.Map.get (cacheKeyOf (pathOf exchange asset timeframe date) (clock (ticks s)))
         (cache s) = None ->
    exists u1 u2 u3 s' round,
      fetchCryptoData exchange asset timeframe date options s
      = (inl (FetchExhausted exchange asset), s')
      /\ u1 <> u2 /\ u1 <> u3 /\ u2 <> u3
      /\ requests s' = requests s ++ round
      /\ map fst round = [u1; u1; u2; u2; u3; u3]
      /\ Forall (fun e => exists body, snd e = Some (Response.mk 500 body)) round.
Proof.
  intros exchange asset timeframe date options s Hmiss.
  destruct (fetchCryptoData exchange asset timeframe date options s) as [res s'] eqn:Hrun.
  destruct (fetchCryptoData_cases _ _ _ _ _ _ _ _ Hrun)
    as [(Huse & r & Hget & _)|(_ & best & s2 & Hround & Hend)].
  { destruct Hmiss; congruence. }
  destruct (urlsAt_distinct (pathOf exchange asset timeframe date) (tick s))
    as (u1 & u2 & u3 & Hurls & H12 & H13 & H23).
  destruct (tryUrls_all_500 (urlsAt (pathOf exchange asset timeframe date) (tick s))
              (None, None)
              (mkState (cache s) (4 + ticks s) (2 + draws s) (requests s)))
    as (s2' & round & Hround' & Hreq & Hmap & Hall).
  rewrite Hround in Hround'. inversion Hround'; subst best s2'.
  destruct Hend as [(_ & -> & ->)|(r & Hbest & _)]; [|discriminate].
  exists u1, u2, u3, s2, round. rewrite Hurls in Hmap.
  repeat split; auto.
Qed.

End All500.

(** *** Calls that do not use the cache *)

Lemma blind_fetchCryptoData exchange asset timeframe date options :
  Options.useCache options = Some false ->
  blind (fetchCryptoData exchange asset timeframe date options).
Proof.
  intros Huse. unfold CryptoDataFetcher.fetchCryptoData. rewrite Huse. simpl Options.default.
  cbv zeta. fx.
Qed.

(** C9: with [useCache] off, a call neither reads nor writes the cache.
    The map it leaves is the map it found, nothing stored and nothing
    pruned; started on any other map, it returns the same and leaves that
    map in place; and it goes to the network, with one or two requests for
    each of the three candidate URLs. *)
Theorem without_cache_the_map_is_untouched :
  forall exchange asset timeframe date options s,
    Options.useCache options = Some false ->
    let run := fetchCryptoData exchange asset timeframe date options s in
    cache (snd run) = cache s
    /\ (forall c,
           fetchCryptoData exchange asset timeframe date options (withCache c s)
           = (fst run, withCache c (snd run)))
    /\ exists round,
        requests (snd run) = requests s ++ round /\ 3 <= List.length round <= 6.
Proof.
  intros exchange asset timeframe date options s Huse run.
  pose proof (blind_fetchCryptoData exchange asset timeframe date options Huse) as Hblind.
  split; [|split].
  - apply blind_keeps_cache. exact Hblind.
  - intros c. apply Hblind.
  - destruct run as [res s'] eqn:Hrun. subst run.
    destruct (fetchCryptoData_round _ _ _ _ _ _ _ _
                (or_introl (f_equal (Options.default true) Huse)) Hrun)
      as (best & round & Hreq & Hlen & _).
    exists round. auto.
Qed.

(** *** The cache slots *)

Lemma cleanOldEntries_step key v entries s :
  cleanOldEntries ((key, v) :: entries) s
  = cleanOldEntries entries
      (if current key (ticks s)
       then tick s
       else withCache (Js.Map.delete key (cache s)) (tick s)).
Proof.
  simpl. unfold bind. simpl. unfold current, bucket.
  destruct (Js.endsWith key _); reflexivity.
Qed.

Lemma cleanOldEntries_ticks entries :
  forall s, ticks (snd (cleanOldEntries entries s)) = ticks s + List.length entries.
Proof.
  induction entries as [|[key v] entries IH]; intros s.
  - simpl. lia.
  - rewrite cleanOldEntries_step, IH. destruct (current key (ticks s)); simpl; lia.
Qed.

(** The loop keeps a slot whose key passes the test at every reading. *)
Lemma cleanOldEntries_keeps key v entries :
  forall s,
    Js.Map.get key (cache s) = Some v ->
    (forall i, ticks s <= i < ticks s + List.length entries -> current key i = true) ->
    Js.Map.get key (cache (snd (cleanOldEntries entries s))) = Some v.
Proof.
  induction entries as [|[k w] entries IH]; intros s Hget Hcur; [exact Hget|].
  rewrite cleanOldEntries_step. apply IH.
  - destruct (current k (ticks s)) eqn:Hk; simpl; [exact Hget|].
    rewrite JsFacts.get_delete_other; [exact Hget|].
    intros ->. rewrite Hcur in Hk; [discriminate | simpl; lia].
  - intros i Hi. apply Hcur. destruct (current k (ticks s)); simpl in *; lia.
Qed.

(** The loop only deletes. *)
Lemma cleanOldEntries_subset entries :
  forall s e, In e (cache (snd (cleanOldEntries entries s))) -> In e (cache s).
Proof.
  induction entries as [|[k w] entries IH]; intros s e He; [exact He|].
  rewrite cleanOldEntries_step in He. apply IH in He.
  destruct (current k (ticks s)); simpl in He; [exact He|].
  clear -He. induction (cache s) as [|[k' v'] m IHm]; simpl in *; [exact He|].
  destruct (String.eqb k k'); [now right|].
  destruct He as [He|He]; [now left | right; auto].
Qed.

(** Run over the entries [rest] of a map whose other entries, before them,
    all pass the test, while the clock stays in the bucket [b], the loop
    leaves only entries that pass the test. *)
Lemma cleanOldEntries_prunes b rest :
  forall kept s,
    cache s = kept ++ rest ->
    (forall i, ticks s <= i < ticks s + List.length rest -> bucket i = b) ->
    (forall e, In e kept -> Js.endsWith (fst e) ("-" ++ Js.showN b) = true) ->
    forall e, In e (cache (snd (cleanOldEntries rest s))) ->
              Js.endsWith (fst e) ("-" ++ Js.showN b) = true.
Proof.
  induction rest as [|[k w] rest IH]; intros kept s Hcache Hb Hkept e He.
  - simpl in He. rewrite Hcache, app_nil_r in He. auto.
  - rewrite cleanOldEntries_step in He.
    assert (Hnow : current k (ticks s) = Js.endsWith k ("-" ++ Js.showN b)).
    { unfold current. rewrite Hb; [reflexivity | simpl; lia]. }
    destruct (current k (ticks s)) eqn:Hk.
    + apply (IH (kept ++ [(k, w)]) (tick s)); auto.
      * simpl. rewrite Hcache, <- app_assoc. reflexivity.
      * intros i Hi. apply Hb. simpl in *. lia.
      * intros e' He'. apply in_app_iff in He'. destruct He' as [He'|[<-|[]]]; auto.
    + apply (IH kept (withCache (Js.Map.delete k (cache s)) (tick s))); auto.
      * simpl. rewrite Hcache. apply JsFacts.delete_middle.
        intros w' Hin. pose proof (Hkept _ Hin) as Hx. cbn [fst] in Hx.
        rewrite <- Hnow in Hx. discriminate.
      * intros i Hi. apply Hb. simpl in *. lia.
Qed.

Lemma set_In {V : Type} key (v : V) m e :
  In e (Js.Map.set key v m) -> In e m \/ e = (key, v).
Proof.
  induction m as [|[k w] m IH]; simpl.
  - intros [<-|[]]. now right.
  - destruct (String.eqb key k) eqn:E.
    + apply String.eqb_eq in E. subst k. intros [<-|H]; [now right | left; now right].
    + intros [<-|H]; [left; now left|].
      destruct (IH H) as [H'|H']; [left; now right | now right].
Qed.

Lemma endsWith_cacheKey path now :
  Js.endsWith (cacheKeyOf path now) ("-" ++ Js.showN (now / cacheTimeout)) = true.
Proof. apply JsFacts.endsWith_iff. exists path. reflexivity. Qed.

(** A cache key ends with the mark of one bucket only, its own. *)
Lemma endsWith_cacheKey_inv path now b :
  Js.endsWith (cacheKeyOf path now) ("-" ++ Js.showN b) = true ->
  (now / cacheTimeout)%N = b.
Proof.
  intros H. apply JsFacts.endsWith_iff in H. destruct H as [pre H].
  unfold CryptoDataFetcher.cacheKeyOf in H.
  apply (JsFacts.dash_split_unique path pre) in H; try apply JsFacts.noDash_showN.
  destruct H as [_ H]. now apply JsFacts.showN_inj.
Qed.

(** A cache key names one path and one bucket. *)
Lemma cacheKeyOf_inj path now path' now' :
  cacheKeyOf path now = cacheKeyOf path' now' ->
  path = path' /\ (now / cacheTimeout)%N = (now' / cacheTimeout)%N.
Proof.
  unfold CryptoDataFetcher.cacheKeyOf. intros H.
  apply JsFacts.dash_split_unique in H; try apply JsFacts.noDash_showN.
  destruct H as [Hp Hb]. split; [exact Hp | now apply JsFacts.showN_inj].
Qed.

(** *** The store *)

Lemma storeResult_run key r s :
  storeResult key r s
  = cleanOldEntries (Js.Map.set key r (cache s)) (withCache (Js.Map.set key r (cache s)) s).
Proof. reflexivity. Qed.

Lemma storeResult_ticks key r s :
  ticks (snd (storeResult key r s))
  = ticks s + List.length (Js.Map.set key r (cache s)).
Proof. rewrite storeResult_run, cleanOldEntries_ticks. reflexivity. Qed.

(** The store leaves the result in its slot, if the key of the slot passes
    the test of the cleaning loop at every reading. *)
Lemma storeResult_get key r s :
  (forall i, ticks s <= i < ticks (snd (storeResult key r s)) -> current key i = true) ->
  Js.Map.get key (cache (snd (storeResult key r s))) = Some r.
Proof.
  intros Hcur. rewrite storeResult_run. apply cleanOldEntries_keeps.
  - simpl. apply JsFacts.get_set_same.
  - intros i Hi. apply Hcur. rewrite storeResult_ticks. simpl in Hi. lia.
Qed.

(** The store keeps any other slot whose key passes the test at every
    reading. *)
Lemma storeResult_keeps key r key' v s :
  key' <> key ->
  Js.Map.get key' (cache s) = Some v ->
  (forall i, ticks s <= i < ticks (snd (storeResult key r s)) -> current key' i = true) ->
  Js.Map.get key' (cache (snd (storeResult key r s))) = Some v.
Proof.
  intros Hne Hget Hcur. rewrite storeResult_run. apply cleanOldEntries_keeps.
  - simpl. now rewrite JsFacts.get_set_other.
  - intros i Hi. apply Hcur. rewrite storeResult_ticks. simpl in Hi. lia.
Qed.

(** The store writes one slot, the result under its key. *)
Lemma storeResult_subset key r s e :
  In e (cache (snd (storeResult key r s))) -> In e (cache s) \/ e = (key, r).
Proof.
  rewrite storeResult_run. intros He. apply cleanOldEntries_subset in He.
  simpl in He. now apply set_In.
Qed.

(** While the clock stays in the bucket [b], the store leaves only slots
    whose key ends with the mark of [b]. *)
Lemma storeResult_prunes key r s b :
  (forall i, ticks s <= i < ticks (snd (storeResult key r s)) -> bucket i = b) ->
  forall e, In e (cache (snd (storeResult key r s))) ->
            Js.endsWith (fst e) ("-" ++ Js.showN b) = true.
Proof.
  intros Hb. rewrite storeResult_run.
  apply (cleanOldEntries_prunes b _ []).
  - reflexivity.
  - intros i Hi. apply Hb. rewrite storeResult_ticks. simpl in Hi. lia.
  - intros e [].
Qed.

(** *** One call, and the slots of the cache *)

Lemma tryUrls_quiet_run urls best s res s' :
  tryUrls urls best s = (res, s') -> cache s' = cache s /\ ticks s <= ticks s'.
Proof.
  intros H. pose proof (quiet_tryUrls urls best s) as Hq. rewrite H in Hq.
  destruct Hq as (Hc & Ht & _). auto.
Qed.

Lemma fetchCryptoData_ticks exchange asset timeframe date options s res s' :
  fetchCryptoData exchange asset timeframe date options s = (res, s') ->
  ticks s < ticks s'.
Proof.
  intros Hrun.
  destruct (fetchCryptoData_cases _ _ _ _ _ _ _ _ Hrun)
    as [(_ & r & _ & _ & ->)|(_ & best & s2 & Hround & Hend)]; [simpl; lia|].
  apply tryUrls_quiet_run in Hround. destruct Hround as [_ Ht]. simpl in Ht.
  destruct Hend as [(_ & _ & ->)|(r & _ & _ & ->)]; [lia|].
  cbv zeta.
  assert (H3 : ticks s2 <= ticks (if Options.default true (Options.consistencyCheck options)
                                  then tick s2 else s2)).
  { destruct (Options.default true (Options.consistencyCheck options)); simpl; lia. }
  destruct (Options.default true (Options.useCache options)); [|lia].
  rewrite storeResult_ticks. lia.
Qed.

(** A call keeps a slot whose key passes the test of the cleaning loop at
    every reading of the clock the call makes. *)
Lemma fetchCryptoData_keeps_slot exchange asset timeframe date options s res s' key v :
  fetchCryptoData exchange asset timeframe date options s = (res, s') ->
  Js.Map.get key (cache s) = Some v ->
  (forall i, ticks s <= i < ticks s' -> current key i = true) ->
  Js.Map.get key (cache s') = Some v.
Proof.
  intros Hrun Hget Hcur.
  destruct (fetchCryptoData_cases _ _ _ _ _ _ _ _ Hrun)
    as [(_ & r & _ & _ & ->)|(Hmiss & best & s2 & Hround & Hend)]; [exact Hget|].
  apply tryUrls_quiet_run in Hround. destruct Hround as [Hc Ht]. simpl in Hc, Ht.
  destruct Hend as [(_ & _ & ->)|(r & _ & _ & Hs')]; [congruence|].
  cbv zeta in Hs'.
  set (s3 := if Options.default true (Options.consistencyCheck options)
             then tick s2 else s2) in *.
  assert (Hc3 : cache s3 = cache s).
  { subst s3. destruct (Options.default true (Options.consistencyCheck options));
      simpl; congruence. }
  assert (Ht3 : ticks s2 <= ticks s3).
  { subst s3. destruct (Options.default true (Options.consistencyCheck options));
      simpl; lia. }
  destruct (Options.default true (Options.useCache options)) eqn:Huse.
  - destruct Hmiss as [Hmiss|Hmiss]; [discriminate|].
    subst s'. apply storeResult_keeps.
    + intros ->. congruence.
    + congruence.
    + intros i Hi. apply Hcur. lia.
  - subst s'. congruence.
Qed.

(** A call that ran a round and stores its result ends with the store. *)
Lemma fetchCryptoData_stores exchange asset timeframe date options s result s' :
  Options.default true (Options.useCache options) = true ->
  Js.Map.get (cacheKeyOf (pathOf exchange asset timeframe date) (clock (ticks s)))
    (cache s) = None ->
  fetchCryptoData exchange asset timeframe date options s = (inr result, s') ->
  exists s3,
    s' = snd (storeResult
                (cacheKeyOf (pathOf exchange asset timeframe date) (clock (ticks s)))
                result s3)
    /\ cache s3 = cache s /\ ticks s < ticks s3.
Proof.
  intros Huse Hnone Hrun.
  destruct (fetchCryptoData_cases _ _ _ _ _ _ _ _ Hrun)
    as [(_ & r & Hget & _)|(_ & best & s2 & Hround & Hend)]; [congruence|].
  apply tryUrls_quiet_run in Hround. destruct Hround as [Hc Ht]. simpl in Hc, Ht.
  destruct Hend as [(_ & Hres & _)|(r & _ & Hres & Hs')]; [discriminate|].
  inversion Hres; subst r. cbv zeta in Hs'. rewrite Huse in Hs'.
  eexists. split; [exact Hs'|].
  destruct (Options.default true (Options.consistencyCheck options)); simpl; split;
    try congruence; lia.
Qed.

(** *** Calls one after the other *)

Lemma after_cons c calls s :
  after (c :: calls) s
  = after calls
      (snd (fetchCryptoData (callExchange c) (callAsset c) (callTimeframe c) (callDate c)
              (callOptions c) s)).
Proof. reflexivity. Qed.

Lemma after_ticks calls : forall s, ticks s <= ticks (after calls s).
Proof.
  induction calls as [|c calls IH]; intros s; [simpl; lia|].
  rewrite after_cons.
  destruct (fetchCryptoData (callExchange c) (callAsset c) (callTimeframe c) (callDate c)
              (callOptions c) s) as [res s'] eqn:Hrun.
  apply fetchCryptoData_ticks in Hrun. specialize (IH s'). simpl snd. lia.
Qed.

Lemma after_keeps_slot key v calls :
  forall s,
    Js.Map.get key (cache s) = Some v ->
    (forall i, ticks s <= i < ticks (after calls s) -> current key i = true) ->
    Js.Map.get key (cache (after calls s)) = Some v.
Proof.
  induction calls as [|c calls IH]; intros s Hget Hcur; [exact Hget|].
  rewrite after_cons in *.
  destruct (fetchCryptoData (callExchange c) (callAsset c) (callTimeframe c) (callDate c)
              (callOptions c) s) as [res s'] eqn:Hrun.
  simpl snd in *. pose proof (fetchCryptoData_ticks _ _ _ _ _ _ _ _ Hrun) as Ht.
  pose proof (after_ticks calls s') as Ht'.
  apply IH.
  - eapply fetchCryptoData_keeps_slot; eauto. intros i Hi. apply Hcur. lia.
  - intros i Hi. apply Hcur. lia.
Qed.

Lemma fetchCryptoData_hit exchange asset timeframe date options s r :
  Options.default true (Options.useCache options) = true ->
  Js.Map.get (cacheKeyOf (pathOf exchange asset timeframe date) (clock (ticks s)))
    (cache s) = Some r ->
  fetchCryptoData exchange asset timeframe date options s = (inr r, tick s).
Proof.
  intros Huse Hget. unfold CryptoDataFetcher.fetchCryptoData. rewrite Huse.
  unfold bind, CryptoDataFetcher.cacheGet. simpl. rewrite Hget. reflexivity.
Qed.

(** On a clock that never runs backwards, the readings between two
    readings of one bucket are in that bucket. *)
Lemma bucket_between i j k :
  (forall a b, a <= b -> (clock a <= clock b)%N) ->
  i <= j <= k -> bucket k = bucket i -> bucket j = bucket i.
Proof.
  intros Hmono [Hij Hjk] Heq. unfold bucket in *.
  assert (H1 : (clock i / cacheTimeout <= clock j / cacheTimeout)%N).
  { apply N.Div0.div_le_mono. now apply Hmono. }
  assert (H2 : (clock j / cacheTimeout <= clock k / cacheTimeout)%N).
  { apply N.Div0.div_le_mono. now apply Hmono. }
  lia.
Qed.

Lemma current_in_bucket path i j :
  bucket j = bucket i -> current (cacheKeyOf path (clock i)) j = true.
Proof. intros H. unfold current. rewrite H. apply endsWith_cacheKey. Qed.

Lemma app_eq_self {A : Type} (l new : list A) : l ++ new = l -> new = [].
Proof.
  intros H. apply (app_inv_head l). now rewrite app_nil_r.
Qed.

(** A call with the cache in use that returns without sending a request
    answered from the slot of its path and its bucket. *)
Lemma fetchCryptoData_silent exchange asset timeframe date options s result s' :
  fetchCryptoData exchange asset timeframe date options s = (inr result, s') ->
  requests s' = requests s ->
  Js.Map.get (cacheKeyOf (pathOf exchange asset timeframe date) (clock (ticks s)))
    (cache s) = Some result.
Proof.
  intros Hrun Hreq.
  destruct (fetchCryptoData_cases _ _ _ _ _ _ _ _ Hrun)
    as [(_ & r & Hget & Hres & _)|(Hmiss & _)].
  - inversion Hres; subst. exact Hget.
  - destruct (fetchCryptoData_round _ _ _ _ _ _ _ _ Hmiss Hrun)
      as (best & round & Hreq' & Hlen & _).
    rewrite Hreq in Hreq'. symmetry in Hreq'. apply app_eq_self in Hreq'.
    subst round. simpl in Hlen. lia.
Qed.

Lemma set_keys_NoDup {V : Type} key (v : V) m :
  NoDup (map fst m) -> NoDup (map fst (Js.Map.set key v m)).
Proof.
  intros Hnd. induction m as [|[k w] m IH]; simpl.
  - constructor; [intros [] | constructor].
  - simpl in Hnd. inversion Hnd as [|? ? Hnot Hnd']; subst.
    destruct (String.eqb key k) eqn:E; simpl.
    + constructor; assumption.
    + constructor; [|now apply IH].
      intros Hin. apply in_map_iff in Hin. destruct Hin as ([k' v'] & Hk' & Hin).
      simpl in Hk'. subst k'. apply set_In in Hin. destruct Hin as [Hin|Heq].
      * apply Hnot. apply in_map_iff. now exists (k, v').
      * inversion Heq; subst. rewrite String.eqb_refl in E. discriminate.
Qed.

(** The cleaning loop, exactly: of the entries still to test, it leaves
    those whose key passes the test at the reading of its turn. *)
Lemma cleanOldEntries_exact entries :
  forall kept s,
    cache s = (kept ++ entries)%list ->
    NoDup (map fst (kept ++ entries)) ->
    cache (snd (cleanOldEntries entries s)) = (kept ++ survivors entries (ticks s))%list.
Proof.
  induction entries as [|[key v] entries IH]; intros kept s Hcache Hnd.
  - simpl. now rewrite app_nil_r in *.
  - rewrite cleanOldEntries_step. cbn [FetcherSpec.survivors].
    destruct (current key (ticks s)) eqn:Hcur.
    + replace (kept ++ (key, v) :: survivors entries (S (ticks s)))%list
        with ((kept ++ [(key, v)]) ++ survivors entries (S (ticks s)))%list
        by (rewrite <- app_assoc; reflexivity).
      apply (IH (kept ++ [(key, v)])%list (tick s)).
      * cbn [FetcherSpec.tick cache]. rewrite Hcache, <- app_assoc. reflexivity.
      * rewrite <- app_assoc. exact Hnd.
    + apply (IH kept (withCache (Js.Map.delete key (cache s)) (tick s))).
      * cbn [withCache cache]. rewrite Hcache. apply JsFacts.delete_middle.
        intros w Hin. rewrite map_app in Hnd. cbn [map fst] in Hnd.
        apply NoDup_remove_2 in Hnd. apply Hnd. apply in_or_app. left.
        apply in_map_iff. now exists (key, w).
      * rewrite map_app in Hnd |- *. cbn [map fst] in Hnd. now apply NoDup_remove_1 in Hnd.
Qed.

Lemma storeResult_exact key r s :
  NoDup (map fst (cache s)) ->
  cache (snd (storeResult key r s)) = survivors (Js.Map.set key r (cache s)) (ticks s).
Proof.
  intros Hnd. rewrite storeResult_run.
  apply (cleanOldEntries_exact _ [] (withCache (Js.Map.set key r (cache s)) s)).
  - reflexivity.
  - now apply set_keys_NoDup.
Qed.

(** A key the map does not hold is put last. *)
Lemma set_new_last {V : Type} key (v : V) m :
  Js.Map.get key m = None -> Js.Map.set key v m = (m ++ [(key, v)])%list.
Proof.
  induction m as [|[k w] m IH]; simpl; [reflexivity|].
  destruct (String.eqb key k); [discriminate|]. intros H. now rewrite IH.
Qed.

(** The entry put last is gone when its key fails the test of its turn,
    the last of the loop. *)
Lemma survivors_drops_last key v m :
  forall i,
    Js.Map.get key m = None ->
    current key (i + List.length (m ++ [(key, v)]) - 1) = false ->
    Js.Map.get key (survivors (m ++ [(key, v)]) i) = None.
Proof.
  induction m as [|[k w] m IH]; intros i Hget Hcur.
  - cbn [app List.length FetcherSpec.survivors] in *.
    replace (i + 1 - 1) with i in Hcur by lia. now rewrite Hcur.
  - simpl in Hget. destruct (String.eqb key k) eqn:E; [discriminate|].
    change (((k, w) :: m) ++ [(key, v)])%list with ((k, w) :: (m ++ [(key, v)]))%list in *.
    cbn [List.length FetcherSpec.survivors] in *.
    assert (Hrest : Js.Map.get key (survivors (m ++ [(key, v)]) (S i)) = None).
    { apply IH; [exact Hget|].
      replace (S i + List.length (m ++ [(key, v)]) - 1)
        with (i + S (List.length (m ++ [(key, v)])) - 1) by lia.
      exact Hcur. }
    destruct (current k i); [|exact Hrest].
    cbn [Js.Map.get]. now rewrite E.
Qed.

(** C4: on a clock that never runs backwards, take a call that uses the
    cache and returns [result] for the slot [key] of its path and bucket.

    - Reuse: after any further calls, a call for the same path that uses the
      cache and starts in the same bucket returns [result] from the slot,
      reading the clock once and sending no request.

    - No reuse across a boundary: any call that returns without sending a
      request answers from the slot of its own path and bucket, and that
      slot is not [key] when its bucket differs; and the first call wrote no
      slot but [key].

    - Pruning: if the first call sent requests, it ends with the store of
      [result] under [key]. The store tests every entry of the map, the new
      one included, in the order of insertion, each against the bucket of a
      reading of the clock of its own, and leaves exactly those that pass.
      So no slot of another bucket is left if the clock stays in one bucket
      during the store; but a store during which the clock crosses a
      boundary leaves the older slots it tested before the boundary, and
      removes the slot it has just written when it tests it after. *)
Theorem cache_slot_lives_in_its_bucket :
  forall exchange asset timeframe date options s result s1,
    (forall a b, a <= b -> (clock a <= clock b)%N) ->
    Options.default true (Options.useCache options) = true ->
    fetchCryptoData exchange asset timeframe date options s = (inr result, s1) ->
    let path := pathOf exchange asset timeframe date in
    let key := cacheKeyOf path (clock (ticks s)) in
    (forall calls options',
        Options.default true (Options.useCache options') = true ->
        bucket (ticks (after calls s1)) = bucket (ticks s) ->
        fetchCryptoData exchange asset timeframe date options' (after calls s1)
        = (inr result, tick (after calls s1))
        /\ requests (tick (after calls s1)) = requests (after calls s1))
    /\ (forall exchange' asset' timeframe' date' options' s2 result' s3,
          fetchCryptoData exchange' asset' timeframe' date' options' s2 = (inr result', s3) ->
          requests s3 = requests s2 ->
          let key' :=
            cacheKeyOf (pathOf exchange' asset' timeframe' date') (clock (ticks s2)) in
          Js.Map.get key' (cache s2) = Some result'
          /\ (bucket (ticks s2) <> bucket (ticks s) -> key' <> key))
    /\ (forall e, In e (cache s1) -> In e (cache s) \/ e = (key, result))
    /\ (requests s1 <> requests s ->
        exists s0,
          s1 = snd (storeResult key result s0)
          /\ cache s0 = cache s
          /\ (NoDup (map fst (cache s)) ->
              cache s1 = survivors (Js.Map.set key result (cache s)) (ticks s0))
          /\ (forall b,
                (forall i, ticks s0 <= i < ticks s1 -> bucket i = b) ->
                forall path' now',
                  (now' / cacheTimeout)%N <> b ->
                  Js.Map.get (cacheKeyOf path' now') (cache s1) = None)
          /\ (current key
                (ticks s0
                 + List.length (Js.Map.set key result (cache s)) - 1) = false ->
              Js.Map.get key (cache s) = None ->
              NoDup (map fst (cache s)) ->
              Js.Map.get key (cache s1) = None)).
Proof.
  intros exchange asset timeframe date options s result s1 Hmono Huse Hrun path key.
  assert (Hshape :
            (s1 = tick s /\ Js.Map.get key (cache s) = Some result)
            \/ (Js.Map.get key (cache s) = None
                /\ exists s0, s1 = snd (storeResult key result s0)
                              /\ cache s0 = cache s /\ ticks s < ticks s0)).
  { destruct (Js.Map.get key (cache s)) as [r|] eqn:Hget.
    - left. rewrite (fetchCryptoData_hit _ _ _ _ _ _ _ Huse Hget) in Hrun.
      inversion Hrun; subst. auto.
    - right. split; [reflexivity|].
      apply (fetchCryptoData_stores _ _ _ _ _ _ _ _ Huse Hget Hrun). }
  split; [|split; [|split]].
  - (* reuse *)
    intros calls options' Huse' Hbucket.
    split; [|reflexivity].
    apply fetchCryptoData_hit; [exact Huse'|].
    replace (cacheKeyOf (pathOf exchange asset timeframe date)
               (clock (ticks (after calls s1)))) with key.
    2:{ unfold key, path, CryptoDataFetcher.cacheKeyOf. unfold bucket in Hbucket.
        now rewrite Hbucket. }
    pose proof (after_ticks calls s1) as Hafter.
    pose proof (fetchCryptoData_ticks _ _ _ _ _ _ _ _ Hrun) as Hfirst.
    assert (Hcur : forall i, ticks s <= i <= ticks (after calls s1) -> current key i = true).
    { intros i Hi. apply current_in_bucket.
      apply (bucket_between (ticks s) i (ticks (after calls s1))); auto. }
    apply after_keeps_slot.
    + destruct Hshape as [[-> Hget]|(_ & s0 & -> & _ & Ht0)]; [exact Hget|].
      apply storeResult_get. intros i Hi. apply Hcur. lia.
    + intros i Hi. apply Hcur. lia.
  - (* no reuse across a boundary *)
    intros exchange' asset' timeframe' date' options' s2 result' s3 Hrun' Hsilent key'.
    split; [exact (fetchCryptoData_silent _ _ _ _ _ _ _ _ Hrun' Hsilent)|].
    intros Hne Heq. apply cacheKeyOf_inj in Heq. destruct Heq as [_ Heq].
    apply Hne. exact Heq.
  - (* the only slot written *)
    intros e He. destruct Hshape as [[-> _]|(_ & s0 & -> & Hc0 & _)]; [now left|].
    apply storeResult_subset in He. now rewrite Hc0 in He.
  - (* pruning *)
    intros Hsent. destruct Hshape as [[-> _]|(_ & s0 & Hs1 & Hc0 & _)]; [now elim Hsent|].
    exists s0. split; [exact Hs1|]. split; [exact Hc0|].
    assert (Hexact : NoDup (map fst (cache s)) ->
                     cache s1 = survivors (Js.Map.set key result (cache s)) (ticks s0)).
    { intros Hnd. rewrite Hs1, <- Hc0. apply storeResult_exact. now rewrite Hc0. }
    split; [exact Hexact|]. split.
    + intros b Hb path' now' Hother.
      apply JsFacts.get_None_not_In. intros v Hin. apply Hother.
      apply (endsWith_cacheKey_inv path').
      rewrite Hs1 in Hin, Hb.
      exact (storeResult_prunes key result s0 b Hb _ Hin).
    + intros Hcur Hnone Hnd. rewrite (Hexact Hnd).
      rewrite (set_new_last _ _ _ Hnone) in Hcur |- *.
      now apply survivors_drops_last.
Qed.

(** *** getLatestPrices *)

Lemma grows_fetchCryptoData exchange asset timeframe date options :
  preserves grows (fetchCryptoData exchange asset timeframe date options).
Proof.
  intros s.
  destruct (fetchCryptoData exchange asset timeframe date options s) as [res s'] eqn:Hrun.
  simpl. pose proof (fetchCryptoData_ticks _ _ _ _ _ _ _ _ Hrun) as Ht.
  destruct (fetchCryptoData_cases _ _ _ _ _ _ _ _ Hrun)
    as [(_ & r & _ & _ & ->)|(Hmiss & _)].
  - split; [simpl; lia|]. split; [simpl; lia|]. exists []. simpl. now rewrite app_nil_r.
  - destruct (fetchCryptoData_round _ _ _ _ _ _ _ _ Hmiss Hrun)
      as (best & round & Hreq & _).
    split; [lia|]. split; [|eauto].
    (* the draws *)
    clear Hreq. destruct (fetchCryptoData_cases _ _ _ _ _ _ _ _ Hrun)
      as [(_ & r & _ & _ & ->)|(_ & best' & s2 & Hround & Hend)]; [simpl; lia|].
    pose proof (quiet_tryUrls (urlsAt (pathOf exchange asset timeframe date) (tick s))
                  (None, None)
                  (mkState (cache s) (4 + ticks s) (2 + draws s) (requests s))) as Hq.
    rewrite Hround in Hq. destruct Hq as (_ & _ & Hd & _). simpl in Hd.
    destruct Hend as [(_ & _ & ->)|(r & _ & _ & ->)]; [lia|]. cbv zeta.
    assert (H3 : draws (if Options.default true (Options.consistencyCheck options)
                        then tick s2 else s2) = draws s2).
    { destruct (Options.default true (Options.consistencyCheck options)); reflexivity. }
    destruct (Options.default true (Options.useCache options)); [|lia].
    rewrite storeResult_run.
    assert (Hclean : forall entries s0, draws (snd (cleanOldEntries entries s0)) = draws s0).
    { induction entries as [|[k w] entries IH]; intros s0; [reflexivity|].
      rewrite cleanOldEntries_step, IH. destruct (current k (ticks s0)); reflexivity. }
    rewrite Hclean. simpl. lia.
Qed.

(** The entry of a pair is made without an error escaping. *)
Lemma priceOf_run exchange asset date options s :
  priceOf exchange asset date options s
  = (inr (entryFor exchange asset date options s),
     snd (fetchCryptoData exchange asset "1min" date options s)).
Proof.
  unfold CryptoDataFetcher.priceOf, entryFor, tryCatch, bind.
  destruct (fetchCryptoData exchange asset "1min" date options s) as [[e|data] s1];
    simpl; [reflexivity|].
  unfold CryptoDataFetcher.summarize, summaryOf.
  destruct (Js.lastOf (FetchResult.records data)); reflexivity.
Qed.

Lemma assetsLoop_spec exchange date options start assets :
  forall done row s,
    grows start s ->
    (forall asset, In asset done ->
       exists entry, Js.Map.get asset row = Some entry
                     /\ entryOfRun exchange date options start asset entry) ->
    exists row' s',
      assetsLoop exchange date options assets row s = (inr row', s')
      /\ grows start s'
      /\ forall asset, In asset (done ++ assets) ->
           exists entry, Js.Map.get asset row' = Some entry
                         /\ entryOfRun exchange date options start asset entry.
Proof.
  induction assets as [|asset assets IH]; intros done row s Hs Hdone.
  - exists row, s. rewrite app_nil_r. auto.
  - simpl. unfold bind. rewrite priceOf_run.
    set (entry := entryFor exchange asset date options s).
    set (s1 := snd (fetchCryptoData exchange asset "1min" date options s)).
    assert (Hs1 : grows start s1).
    { eapply grows_trans; [exact Hs | apply grows_fetchCryptoData]. }
    destruct (IH (done ++ [asset]) (CryptoDataFetcher.objSet asset entry row) s1 Hs1)
      as (row' & s' & Hrun & Hs' & Hall).
    + intros a Ha. unfold CryptoDataFetcher.objSet.
      destruct (string_dec a asset) as [->|Hne].
      * exists entry. rewrite JsFacts.get_set_same. split; [reflexivity|].
        exists s. auto.
      * rewrite JsFacts.get_set_other by exact Hne.
        apply in_app_iff in Ha. destruct Ha as [Ha|[->|[]]]; [auto | congruence].
    + exists row', s'. rewrite <- app_assoc in Hall. auto.
Qed.

Lemma exchangesLoop_spec date options start assets exchanges :
  forall done results s,
    grows start s ->
    (forall exchange, In exchange done ->
       exists row, Js.Map.get exchange results = Some row
         /\ forall asset, In asset assets ->
              exists entry, Js.Map.get asset row = Some entry
                            /\ entryOfRun exchange date options start asset entry) ->
    exists results' s',
      exchangesLoop date options exchanges assets results s = (inr results', s')
      /\ forall exchange, In exchange (done ++ exchanges) ->
           exists row, Js.Map.get exchange results' = Some row
             /\ forall asset, In asset assets ->
                  exists entry, Js.Map.get asset row = Some entry
                                /\ entryOfRun exchange date options start asset entry.
Proof.
  induction exchanges as [|exchange exchanges IH]; intros done results s Hs Hdone.
  - exists results, s. rewrite app_nil_r. auto.
  - simpl. unfold bind.
    destruct (assetsLoop_spec exchange date options start assets [] [] s Hs)
      as (row & s1 & Hrow & Hs1 & Hentries); [intros a []|].
    rewrite Hrow. simpl in Hentries.
    destruct (IH (done ++ [exchange]) (CryptoDataFetcher.objSet exchange row results) s1 Hs1)
      as (results' & s' & Hrun & Hall).
    + intros x Hx. unfold CryptoDataFetcher.objSet.
      destruct (string_dec x exchange) as [->|Hne].
      * exists row. rewrite JsFacts.get_set_same. auto.
      * rewrite JsFacts.get_set_other by exact Hne.
        apply in_app_iff in Hx. destruct Hx as [Hx|[->|[]]]; [auto | congruence].
    + exists results', s'. rewrite <- app_assoc in Hall. auto.
Qed.

(** *** fetchWithCacheBusting, on its own *)

(** X1: [fetchWithCacheBusting(url, maxRetries)] reads the clock and draws
    a random number once, for its header, and leaves the cache alone. It sends
    at most [maxRetries] requests, all for [url]. When it returns a response,
    that response is a success and answers the last request sent, every
    request before it having failed. When it throws, exactly [maxRetries]
    requests were sent, none succeeded, and the error is that of the last.
    It returns [undefined] exactly when [maxRetries] is 0, and then sends
    nothing. *)
Theorem fetchWithCacheBusting_contract :
  forall url maxRetries s res s',
    fetchWithCacheBusting url maxRetries s = (res, s') ->
    cache s' = cache s /\ ticks s' = S (ticks s) /\ draws s' = S (draws s)
    /\ exists new,
        requests s' = requests s ++ new
        /\ List.length new <= maxRetries
        /\ Forall (fun e => fst e = url) new
        /\ match res with
           | inr (Some r) =>
             Response.ok r = true
             /\ exists fails,
                 new = fails ++ [(url, Some r)] /\ Forall (failed url) fails
           | inr None => maxRetries = 0 /\ new = []
           | inl e =>
             1 <= maxRetries /\ List.length new = maxRetries /\ Forall (failed url) new
             /\ e = errorOf url (List.length (requests s) + maxRetries - 1)
           end.
Proof.
  intros url maxRetries s res s' Hrun.
  unfold CryptoDataFetcher.fetchWithCacheBusting in Hrun.
  unfold bind at 1 2 in Hrun.
  cbn [CryptoDataFetcher.dateNow CryptoDataFetcher.mathRandom cache ticks draws requests]
    in Hrun.
  pose proof (attempts_log _ _ _ _ _ _ _ Hrun) as (Hc & Ht & Hd & _).
  apply attempts_contract in Hrun; [|lia].
  destruct Hrun as (new & Hreq & Hres). simpl in *.
  split; [exact Hc|]. split; [exact Ht|]. split; [exact Hd|].
  exists new. split; [exact Hreq|].
  assert (Hfst : forall l, Forall (failed url) l -> Forall (fun e => fst e = url) l).
  { intros l Hl. eapply Forall_impl; [|exact Hl]. now intros a [Ha _]. }
  destruct res as [e|[r|]].
  - destruct Hres as (H1 & Hlen & Hall & He). split; [lia|]. split; [auto|]. auto.
  - destruct Hres as (Hok & fails & -> & Hall & Hlen & _).
    split; [rewrite length_app; simpl; lia|].
    split; [apply Forall_app; split; [auto | now constructor]|].
    split; [exact Hok|]. eauto.
  - destruct Hres as [-> ->]. split; [simpl; lia|]. split; [constructor|]. auto.
Qed.

(** X2: the wait between two attempts is at least one second and at most
    five, never shrinks from one attempt to the next, doubles over the
    first three attempts, and is five seconds from the fourth attempt
    on. *)
Theorem backoffDelay_bounds :
  forall attempt,
    1 <= attempt ->
    (1000 <= CryptoDataFetcher.backoffDelay attempt <= 5000)%N
    /\ (CryptoDataFetcher.backoffDelay attempt
        <= CryptoDataFetcher.backoffDelay (S attempt))%N
    /\ (attempt <= 3 ->
        CryptoDataFetcher.backoffDelay attempt = (1000 * 2 ^ N.of_nat (attempt - 1))%N)
    /\ (4 <= attempt -> CryptoDataFetcher.backoffDelay attempt = 5000%N).
Proof.
  intros attempt Hone. unfold CryptoDataFetcher.backoffDelay.
  assert (Hpow : forall n m, n <= m -> (2 ^ N.of_nat n <= 2 ^ N.of_nat m)%N).
  { intros n m Hnm. apply N.pow_le_mono_r; lia. }
  assert (H1 : (1 <= 2 ^ N.of_nat (attempt - 1))%N).
  { change 1%N with (2 ^ N.of_nat 0)%N. apply Hpow. lia. }
  split; [|split; [|split]].
  - split; [apply N.min_glb; lia | apply N.le_min_r].
  - apply N.min_le_compat_r. apply N.mul_le_mono_l. apply Hpow. lia.
  - intros H3. apply N.min_l.
    assert (H4 : (2 ^ N.of_nat (attempt - 1) <= 2 ^ N.of_nat 2)%N) by (apply Hpow; lia).
    change (2 ^ N.of_nat 2)%N with 4%N in H4. lia.
  - intros H4. apply N.min_r.
    assert (H8 : (2 ^ N.of_nat 3 <= 2 ^ N.of_nat (attempt - 1))%N) by (apply Hpow; lia).
    change (2 ^ N.of_nat 3)%N with 8%N in H8. lia.
Qed.

(** *** The candidate URLs *)

Lemma startsWith_append p x : Js.startsWith (p ++ x) p = true.
Proof.
  induction p as [|c p IH]; simpl; [reflexivity|].
  now rewrite Ascii.eqb_refl, IH.
Qed.

(** X3: the three candidate URLs of a call are built without a request and
    without touching the cache, from three readings of the clock and two
    random draws; they are pairwise distinct, and each is the URL of the
    same object, [baseUrl/path], followed by a query string. *)
Theorem candidate_urls_same_object :
  forall path s,
    exists u1 u2 u3 s',
      candidateUrls path s = (inr [u1; u2; u3], s')
      /\ u1 <> u2 /\ u1 <> u3 /\ u2 <> u3
      /\ (forall u, In u [u1; u2; u3] ->
            Js.startsWith u (CryptoDataFetcher.baseUrl bucketName ++ "/" ++ path ++ "?")%string
            = true)
      /\ cache s' = cache s /\ requests s' = requests s
      /\ ticks s' = 3 + ticks s /\ draws s' = 2 + draws s.
Proof.
  intros path s. rewrite candidateUrls_run.
  destruct (urlsAt_distinct path s) as (u1 & u2 & u3 & Hurls & H12 & H13 & H23).
  exists u1, u2, u3. eexists. rewrite Hurls. split; [reflexivity|].
  split; [exact H12|]. split; [exact H13|]. split; [exact H23|].
  split; [|simpl; auto].
  intros u Hu. rewrite <- Hurls in Hu. unfold FetcherSpec.urlsAt in Hu.
  assert (Hpre : forall q,
             Js.startsWith
               (CryptoDataFetcher.baseUrl bucketName ++ "/" ++ path ++ "?" ++ q)%string
               (CryptoDataFetcher.baseUrl bucketName ++ "/" ++ path ++ "?")%string = true).
  { intros q.
    replace (CryptoDataFetcher.baseUrl bucketName ++ "/" ++ path ++ "?" ++ q)%string
      with ((CryptoDataFetcher.baseUrl bucketName ++ "/" ++ path ++ "?") ++ q)%string.
    - apply startsWith_append.
    - rewrite !JsFacts.append_assoc. reflexivity. }
  destruct Hu as [<-|[<-|[<-|[]]]]; apply Hpre.
Qed.

(** *** Results and caches as the fetcher makes them *)

Lemma candidateOf_inv e url recs lr :
  candidateOf e = Some (url, recs, lr) ->
  url = fst e /\ Js.lastOf recs = Some lr.
Proof.
  unfold FetcherSpec.candidateOf. destruct (snd e) as [r|]; [|discriminate].
  destruct (Response.ok r); [|discriminate].
  destruct (Response.body r) as [text|]; [|discriminate].
  destruct (Js.lastOf (recordsOf text)) as [l|] eqn:Hl; [|discriminate].
  intros H. inversion H; subst. auto.
Qed.

(** What the loop over the URLs keeps is well formed and comes from one of
    the URLs it has tried. *)
Lemma tryUrls_wellFormed urls :
  forall seen best s best' s',
    tryUrls urls best s = (inr best', s') ->
    (forall r, fst best = Some r ->
               wellFormed r /\ In (Metadata.url (FetchResult.metadata r)) seen) ->
    forall r, fst best' = Some r ->
              wellFormed r /\ In (Metadata.url (FetchResult.metadata r)) (seen ++ urls).
Proof.
  induction urls as [|url urls IH]; intros seen best s best' s' Hrun Hbest; simpl in Hrun.
  - inversion Hrun; subst. rewrite app_nil_r. exact Hbest.
  - unfold bind in Hrun. destruct (tryUrl url best s) as [r1 s1] eqn:H1.
    destruct (tryUrl_spec _ _ _ _ _ H1) as (best1 & new1 & -> & _ & _ & _ & Hcase).
    replace (seen ++ url :: urls) with ((seen ++ [url]) ++ urls)
      by (rewrite <- app_assoc; reflexivity).
    apply (IH (seen ++ [url]) best1 s1 best' s' Hrun).
    intros r Hr.
    destruct Hcase as [[-> _]|(fails & e & recs & lr & ft & _ & _ & Hc & ->)].
    + destruct (Hbest r Hr) as [Hwf Hin]. split; [exact Hwf|].
      apply in_app_iff. now left.
    + apply candidateOf_inv in Hc. destruct Hc as [_ Hlast].
      unfold FetcherSpec.pick in Hr.
      destruct (CryptoDataFetcher.unset (snd best)
                || CryptoDataFetcher.later (NdRecord.t lr) (snd best)).
      * simpl in Hr. inversion Hr; subst r. split.
        -- exists lr. simpl. auto.
        -- simpl. apply in_app_iff. right. now left.
      * destruct (Hbest r Hr) as [Hwf Hin]. split; [exact Hwf|].
        apply in_app_iff. now left.
Qed.

(** X4: a call that throws throws the exhaustion error, after a round of
    three to six requests none of which yielded a record, and leaves the
    cache as it was; and a round none of whose requests yielded a record
    makes the call throw. *)
Theorem throws_exactly_when_no_candidate :
  forall exchange asset timeframe date options s res s',
    fetchCryptoData exchange asset timeframe date options s = (res, s') ->
    (forall e, res = inl e ->
       e = FetchExhausted exchange asset
       /\ cache s' = cache s
       /\ exists round,
           requests s' = requests s ++ round
           /\ 3 <= List.length round <= 6
           /\ Forall (fun x => candidateOf x = None) round)
    /\ (Options.default true (Options.useCache options) = false
        \/ Js.Map.get (cacheKeyOf (pathOf exchange asset timeframe date) (clock (ticks s)))
             (cache s) = None ->
        forall round,
          requests s' = requests s ++ round ->
          Forall (fun x => candidateOf x = None) round ->
          res = inl (FetchExhausted exchange asset)).
Proof.
  intros exchange asset timeframe date options s res s' Hrun. split.
  - intros e ->.
    destruct (fetchCryptoData_cases _ _ _ _ _ _ _ _ Hrun)
      as [(_ & r & _ & Hres & _)|(Hmiss & best & s2 & Hround & Hend)]; [discriminate|].
    destruct Hend as [(Hnone & Hres & ->)|(r & _ & Hres & _)]; [|discriminate].
    inversion Hres; subst e. split; [reflexivity|].
    pose proof (tryUrls_quiet_run _ _ _ _ _ Hround) as [Hc _]. split; [exact Hc|].
    destruct (tryUrls_spec _ _ _ _ _ [] Hround freshest_start)
      as (best' & round & Hbest & Hreq & Hlen & (Hmax & _)).
    inversion Hbest; subst best'. exists round. simpl in *.
    split; [exact Hreq|]. split; [lia|].
    apply Forall_forall. intros x Hx.
    destruct (candidateOf x) as [[[u recs] lr]|] eqn:Hc'; [|reflexivity].
    destruct (Hmax _ _ _ _ Hx Hc') as (res' & Hres' & _). congruence.
  - intros Hmiss round Hreq Hnone.
    destruct (fetchCryptoData_round _ _ _ _ _ _ _ _ Hmiss Hrun)
      as (best & round' & Hreq' & _ & (_ & Hin & _) & Hres).
    rewrite Hreq in Hreq'. apply app_inv_head in Hreq'. subst round'.
    destruct (fst best) as [r|] eqn:Hbest; [|exact Hres].
    destruct (Hin r eq_refl) as (_ & e & lr & He & Hc & _).
    rewrite Forall_forall in Hnone. rewrite (Hnone e He) in Hc. discriminate.
Qed.

Lemma delete_In {V : Type} key (m : Js.Map.t V) e : In e (Js.Map.delete key m) -> In e m.
Proof.
  induction m as [|[k w] m IH]; simpl; [auto|].
  destruct (String.eqb key k); [now right|].
  intros [He|He]; [now left | right; auto].
Qed.

Lemma delete_keys_NoDup {V : Type} key (m : Js.Map.t V) :
  NoDup (map fst m) -> NoDup (map fst (Js.Map.delete key m)).
Proof.
  induction m as [|[k w] m IH]; simpl; [auto|].
  intros Hnd. inversion Hnd as [|? ? Hnot Hnd']; subst.
  destruct (String.eqb key k); simpl; [assumption|].
  constructor; [|now apply IH].
  intros Hin. apply Hnot. apply in_map_iff in Hin. destruct Hin as ([k' v'] & Hk' & Hin).
  simpl in Hk'. subst k'. apply delete_In in Hin. apply in_map_iff. now exists (k, v').
Qed.

Lemma cleanOldEntries_NoDup entries :
  forall s, NoDup (map fst (cache s)) ->
            NoDup (map fst (cache (snd (cleanOldEntries entries s)))).
Proof.
  induction entries as [|[k w] entries IH]; intros s Hnd; [exact Hnd|].
  rewrite cleanOldEntries_step. apply IH.
  destruct (current k (ticks s)); simpl; [exact Hnd | now apply delete_keys_NoDup].
Qed.

Lemma storeResult_cacheOk key r s :
  cacheOk (cache s) -> wellFormed r ->
  (exists path now, key = cacheKeyOf path now) ->
  cacheOk (cache (snd (storeResult key r s))).
Proof.
  intros [Hnd Hall] Hwf Hkey. split.
  - rewrite storeResult_run. apply cleanOldEntries_NoDup. simpl.
    now apply set_keys_NoDup.
  - intros k v Hin. apply storeResult_subset in Hin. destruct Hin as [Hin|Heq].
    + now apply Hall.
    + inversion Heq; subst. auto.
Qed.

(** A call keeps the cache sound, and on a sound cache what it returns is
    well formed, whether it comes from the cache or from a round. *)
Lemma fetchCryptoData_cacheOk exchange asset timeframe date options s res s' :
  fetchCryptoData exchange asset timeframe date options s = (res, s') ->
  cacheOk (cache s) ->
  cacheOk (cache s') /\ forall r, res = inr r -> wellFormed r.
Proof.
  intros Hrun Hok.
  destruct (fetchCryptoData_cases _ _ _ _ _ _ _ _ Hrun)
    as [(_ & r & Hget & -> & ->)|(_ & best & s2 & Hround & Hend)].
  - split; [exact Hok|]. intros r' Hr'. inversion Hr'; subst r'.
    apply JsFacts.get_In in Hget. now apply (proj2 Hok) in Hget.
  - pose proof (tryUrls_quiet_run _ _ _ _ _ Hround) as [Hc _]. simpl in Hc.
    destruct Hend as [(_ & -> & ->)|(r & Hbest & -> & ->)].
    + split; [now rewrite Hc | discriminate].
    + assert (Hwf : wellFormed r).
      { apply (tryUrls_wellFormed _ [] _ _ _ _ Hround); [discriminate | exact Hbest]. }
      split; [|intros r' Hr'; inversion Hr'; now subst].
      cbv zeta.
      assert (H3 : cache (if Options.default true (Options.consistencyCheck options)
                          then tick s2 else s2) = cache s).
      { destruct (Options.default true (Options.consistencyCheck options)); simpl; exact Hc. }
      destruct (Options.default true (Options.useCache options)).
      * apply storeResult_cacheOk; [now rewrite H3 | exact Hwf | eauto].
      * now rewrite H3.
Qed.

(** X5: the cache of a fresh fetcher is sound, every call keeps it sound, and
    so does every sequence of calls; a result returned on a sound cache has
    a last record, whose time is its timestamp, and counts its records;
    and a result a round returns carries one of the round's three URLs. *)
Theorem cache_stays_sound :
  cacheOk []
  /\ (forall calls s, cacheOk (cache s) -> cacheOk (cache (after calls s)))
  /\ (forall exchange asset timeframe date options s r s',
        cacheOk (cache s) ->
        fetchCryptoData exchange asset timeframe date options s = (inr r, s') ->
        wellFormed r
        /\ (requests s' <> requests s ->
            In (Metadata.url (FetchResult.metadata r))
              (urlsAt (pathOf exchange asset timeframe date) (tick s)))).
Proof.
  split; [|split].
  - split; [constructor | intros key r []].
  - induction calls as [|c calls IH]; intros s Hok; [exact Hok|].
    rewrite after_cons. apply IH.
    destruct (fetchCryptoData (callExchange c) (callAsset c) (callTimeframe c) (callDate c)
                (callOptions c) s) as [res s'] eqn:Hrun.
    simpl. now apply (fetchCryptoData_cacheOk _ _ _ _ _ _ _ _ Hrun).
  - intros exchange asset timeframe date options s r s' Hok Hrun. split.
    + now apply (proj2 (fetchCryptoData_cacheOk _ _ _ _ _ _ _ _ Hrun Hok)).
    + intros Hsent.
      destruct (fetchCryptoData_cases _ _ _ _ _ _ _ _ Hrun)
        as [(_ & r' & _ & _ & ->)|(_ & best & s2 & Hround & Hend)]; [now elim Hsent|].
      destruct Hend as [(_ & Hres & _)|(r' & Hbest & Hres & _)]; [discriminate|].
      inversion Hres; subst r'.
      apply (tryUrls_wellFormed _ [] _ _ _ _ Hround); [discriminate | exact Hbest].
Qed.

(** *** Lines of a response body *)

(** X6: the lines of a response are read one by one. When the trimmed
    body of a successful response is not empty and is a list of lines
    joined by line feeds, the records taken from it are the lines that are
    not blank, that is not empty once trimmed, and that parse, in the order
    of the body: a blank line or a line that fails to parse is left out and
    the others are kept. These records are the candidate the URL gives,
    stamped by the last of them. *)
Theorem damaged_lines_are_left_out :
  forall url best s r text lines,
    network url (List.length (requests s)) = Some r ->
    Response.ok r = true ->
    Response.body r = Some text ->
    Js.truthy (Js.trim text) = true ->
    Js.trim text = String.concat (String "010" "") lines ->
    lines <> [] -> Forall (Js.without "010"%char) lines ->
    let records := Js.filterNotNull (map JSON_parse (filter CryptoDataFetcher.nonBlank lines)) in
    fst (tryUrl url best s)
    = inr match Js.lastOf records with
          | None => best
          | Some lastRecord =>
            if CryptoDataFetcher.unset (snd best)
               || CryptoDataFetcher.later (NdRecord.t lastRecord) (snd best)
            then (Some (FetchResult.mk records
                          (Metadata.mk url (NdRecord.t lastRecord) (List.length records)
                             (toISOString (clock (S (ticks s)))))),
                  Some (NdRecord.t lastRecord))
            else best
          end.
Proof.
  intros url best s r text lines Hnet Hok Hbody Htruthy Htrim Hne Hall records.
  assert (Hrecs : recordsOf text = records).
  { unfold recordsOf. rewrite Htrim, JsFacts.split_concat by assumption. reflexivity. }
  unfold CryptoDataFetcher.tryUrl, CryptoDataFetcher.fetchWithCacheBusting.
  unfold tryCatch at 1. unfold bind at 1 2 3.
  cbn [CryptoDataFetcher.dateNow CryptoDataFetcher.mathRandom cache ticks draws requests].
  set (s0 := mkState (cache s) (S (ticks s)) (S (draws s)) (requests s)).
  assert (Hatt : attempts url 2 1 2 s0
                 = (inr (Some r), mkState (cache s) (S (ticks s)) (S (draws s))
                                    (requests s ++ [(url, Some r)])%list)).
  { cbn [CryptoDataFetcher.attempts Nat.leb]. unfold tryCatch, bind, CryptoDataFetcher.fetch.
    cbn [requests s0 cache ticks draws]. rewrite Hnet, Hok. reflexivity. }
  rewrite Hatt. unfold CryptoDataFetcher.responseText. rewrite Hbody.
  unfold bind at 1. unfold ret at 1.
  rewrite Htruthy. cbn [negb].
  unfold recordsOf in Hrecs. rewrite Hrecs.
  destruct (Nat.eqb _ 0) eqn:Hlines.
  { apply length_zero_nil in Hlines.
    assert (Hnil : records = []).
    { rewrite <- Hrecs, Hlines. reflexivity. }
    rewrite Hnil. reflexivity. }
  destruct (Js.lastOf records) as [lr|]; [|reflexivity].
  destruct (CryptoDataFetcher.unset (snd best) || CryptoDataFetcher.later (NdRecord.t lr) (snd best));
    reflexivity.
Qed.

(** *** The options *)

(** X7: of the three options only [useCache] bears on what a call answers.
    Two calls with the same arguments from the same state whose options
    agree on [useCache] (after defaults) return the same result or throw
    the same error, and send the same requests, whatever [maxRetries] and
    [consistencyCheck] are: the first is never used, the second only
    logs. *)
Theorem only_useCache_changes_the_answer :
  forall exchange asset timeframe date options options' s,
    Options.default true (Options.useCache options)
    = Options.default true (Options.useCache options') ->
    fst (fetchCryptoData exchange asset timeframe date options s)
    = fst (fetchCryptoData exchange asset timeframe date options' s)
    /\ requests (snd (fetchCryptoData exchange asset timeframe date options s))
       = requests (snd (fetchCryptoData exchange asset timeframe date options' s)).
Proof.
  intros exchange asset timeframe date options options' s Huse.
  destruct (fetchCryptoData exchange asset timeframe date options s) as [res1 s1] eqn:Hrun1.
  destruct (fetchCryptoData exchange asset timeframe date options' s) as [res2 s2] eqn:Hrun2.
  cbn [fst snd].
  destruct (fetchCryptoData_cases _ _ _ _ _ _ _ _ Hrun1)
    as [(Hu1 & r1 & Hget1 & -> & ->)|(Hmiss1 & best1 & t1 & Hround1 & Hend1)];
    destruct (fetchCryptoData_cases _ _ _ _ _ _ _ _ Hrun2)
      as [(Hu2 & r2 & Hget2 & -> & ->)|(Hmiss2 & best2 & t2 & Hround2 & Hend2)].
  - split; [congruence | reflexivity].
  - destruct Hmiss2 as [Hm|Hm]; congruence.
  - destruct Hmiss1 as [Hm|Hm]; congruence.
  - rewrite Hround1 in Hround2. inversion Hround2; subst best2 t2.
    assert (Hreq : forall (o : Options.t) key r,
               requests (let s3 := if Options.default true (Options.consistencyCheck o)
                                   then tick t1 else t1 in
                         if Options.default true (Options.useCache o)
                         then snd (storeResult key r s3) else s3)
               = requests t1).
    { intros o key r. cbv zeta.
      assert (H3 : requests (if Options.default true (Options.consistencyCheck o)
                             then tick t1 else t1) = requests t1).
      { destruct (Options.default true (Options.consistencyCheck o)); reflexivity. }
      destruct (Options.default true (Options.useCache o)); [|exact H3].
      rewrite <- H3. apply offline_storeResult. }
    destruct Hend1 as [(Hb1 & -> & ->)|(r1 & Hb1 & -> & ->)];
      destruct Hend2 as [(Hb2 & -> & ->)|(r2 & Hb2 & -> & ->)]; try congruence.
    + split; reflexivity.
    + split; [congruence|]. now rewrite !Hreq.
Qed.

(** *** getLatestPrices, call by call *)

Lemma after_app calls1 calls2 s : after (calls1 ++ calls2) s = after calls2 (after calls1 s).
Proof. unfold FetcherSpec.after. apply fold_left_app. Qed.

Lemma after_snoc calls c s :
  after (calls ++ [c]) s
  = snd (fetchCryptoData (callExchange c) (callAsset c) (callTimeframe c) (callDate c)
           (callOptions c) (after calls s)).
Proof. rewrite after_app. reflexivity. Qed.

Lemma getLatestPrices_start date options s :
  getLatestPrices date options s
  = exchangesLoop (dateFor date s) options CryptoDataFetcher.exchanges CryptoDataFetcher.assets
      [] (startOf date s).
Proof.
  unfold CryptoDataFetcher.getLatestPrices, dateFor, startOf. unfold bind at 1.
  destruct date as [d|]; [destruct (Js.truthy d)|]; reflexivity.
Qed.

(** The run of [getLatestPrices], written out: eight fetches one after the
    other, and the object made of their entries. *)
Lemma getLatestPrices_run date options s :
  let d := dateFor date s in
  let calls := latestCalls d options in
  let at_ n exchange asset :=
        (asset, entryFor exchange asset d options (after (firstn n calls) (startOf date s))) in
  getLatestPrices date options s
  = (inr [("coinbase", [at_ 0 "coinbase" "BTC"; at_ 1 "coinbase" "ETH";
                        at_ 2 "coinbase" "ADA"; at_ 3 "coinbase" "XRP"]);
          ("kraken", [at_ 4 "kraken" "BTC"; at_ 5 "kraken" "ETH";
                      at_ 6 "kraken" "ADA"; at_ 7 "kraken" "XRP"])],
     after calls (startOf date s)).
Proof.
  intros d calls at_. rewrite getLatestPrices_start. fold d.
  set (s0 := startOf date s).
  unfold CryptoDataFetcher.exchanges, CryptoDataFetcher.assets.
  cbn [CryptoDataFetcher.exchangesLoop CryptoDataFetcher.assetsLoop].
  unfold bind, ret, CryptoDataFetcher.objSet.
  repeat (rewrite priceOf_run; cbv beta iota).
  reflexivity.
Qed.

Lemma after_cacheOk calls : forall s, cacheOk (cache s) -> cacheOk (cache (after calls s)).
Proof.
  induction calls as [|c calls IH]; intros s Hok; [exact Hok|].
  rewrite after_cons. apply IH.
  destruct (fetchCryptoData (callExchange c) (callAsset c) (callTimeframe c) (callDate c)
              (callOptions c) s) as [res s'] eqn:Hrun.
  exact (proj1 (fetchCryptoData_cacheOk _ _ _ _ _ _ _ _ Hrun Hok)).
Qed.

Lemma cacheOk_startOf date s : cacheOk (cache s) -> cacheOk (cache (startOf date s)).
Proof.
  unfold startOf. destruct date as [d|]; [destruct (Js.truthy d)|]; auto.
Qed.

(** C10: [getLatestPrices] always returns, and never throws. It fetches
    the pairs one after the other, the assets BTC, ETH, ADA and XRP of
    coinbase and then those of kraken, each fetch from the state the one
    before left. The object it returns has, for each of these exchanges and
    each of these assets, an entry for that pair, the entry of the fetch of
    that pair in this run: [null] when that fetch threw, and otherwise the
    summary made from the last record of the result it returned. *)
Theorem latest_prices_has_every_pair :
  forall date options s,
    exists results s',
      getLatestPrices date options s = (inr results, s')
      /\ forall i j exchange asset,
           nth_error ["coinbase"; "kraken"] i = Some exchange ->
           nth_error ["BTC"; "ETH"; "ADA"; "XRP"] j = Some asset ->
           exists row entry,
             Js.Map.get exchange results = Some row
             /\ Js.Map.get asset row = Some entry
             /\ match fst (fetchCryptoData exchange asset "1min" (dateFor date s) options
                             (after (firstn (4 * i + j)
                                       (latestCalls (dateFor date s) options))
                                (startOf date s))) with
                | inl _ => entry = None
                | inr data => entry = summaryOf data
                end.
Proof.
  intros date options s.
  eexists. eexists. split; [apply getLatestPrices_run|].
  assert (Hentry : forall exchange asset s0,
             match fst (fetchCryptoData exchange asset "1min" (dateFor date s) options s0) with
             | inl _ => entryFor exchange asset (dateFor date s) options s0 = None
             | inr data => entryFor exchange asset (dateFor date s) options s0 = summaryOf data
             end).
  { intros exchange asset s0. unfold entryFor.
    destruct (fst (fetchCryptoData exchange asset "1min" (dateFor date s) options s0));
      reflexivity. }
  intros i j exchange asset Hi Hj.
  destruct i as [|[|i]]; [| |destruct i; discriminate];
    inversion Hi; subst exchange;
    (destruct j as [|[|[|[|j]]]]; [| | | |destruct j; discriminate]);
    inversion Hj; subst asset;
    eexists; eexists; (split; [reflexivity|]); (split; [reflexivity|]); apply Hentry.
Qed.

(** X8: [getLatestPrices] makes eight fetches, one after the other: the
    four assets of coinbase, then the four of kraken, each starting in the
    state the one before ended in, whether that one returned or threw. The
    state it ends in is the state after the eight. The object it returns
    has the two exchanges as its keys, in this order, each with a row whose
    keys are the four assets in their order, and the entry of the [j]-th
    asset of the [i]-th exchange is the entry of fetch number [4 * i + j]. *)
Theorem latest_prices_call_by_call :
  forall date options s,
    let d := dateFor date s in
    let calls := latestCalls d options in
    exists results,
      getLatestPrices date options s = (inr results, after calls (startOf date s))
      /\ map fst results = ["coinbase"; "kraken"]
      /\ (forall exchange row,
             In (exchange, row) results -> map fst row = ["BTC"; "ETH"; "ADA"; "XRP"])
      /\ forall i j exchange asset,
           nth_error ["coinbase"; "kraken"] i = Some exchange ->
           nth_error ["BTC"; "ETH"; "ADA"; "XRP"] j = Some asset ->
           nth_error calls (4 * i + j) = Some (mkCall exchange asset "1min" d options)
           /\ exists row,
               Js.Map.get exchange results = Some row
               /\ Js.Map.get asset row
                  = Some (entryFor exchange asset d options
                            (after (firstn (4 * i + j) calls) (startOf date s))).
Proof.
  intros date options s d calls.
  eexists. split; [apply getLatestPrices_run|].
  split; [reflexivity|]. split.
  - intros exchange row [H|[H|[]]]; inversion H; reflexivity.
  - intros i j exchange asset Hi Hj.
    destruct i as [|[|i]]; [| |destruct i; discriminate];
      inversion Hi; subst exchange;
      (destruct j as [|[|[|[|j]]]]; [| | | |destruct j; discriminate]);
      inversion Hj; subst asset;
      (split; [reflexivity|]); eexists; split; reflexivity.
Qed.

(** X9: on a sound cache, an entry of the object [getLatestPrices] returns
    is [null] exactly when the fetch of its pair in the run threw, the
    fetches being made one after the other, each from the state the one
    before left; the fetch that returned gave a result with a last record,
    and the entry holds the price, the time, the spread and the volume of
    that record with the number of records and the fetch time of the
    result. So no entry is lost to a result without records. The cache is
    sound again after the run. *)
Theorem null_entry_means_failed_fetch :
  forall date options s,
    cacheOk (cache s) ->
    exists results s',
      getLatestPrices date options s = (inr results, s')
      /\ cacheOk (cache s')
      /\ forall i j exchange asset,
           nth_error ["coinbase"; "kraken"] i = Some exchange ->
           nth_error ["BTC"; "ETH"; "ADA"; "XRP"] j = Some asset ->
           exists row entry,
             Js.Map.get exchange results = Some row
             /\ Js.Map.get asset row = Some entry
             /\ match fst (fetchCryptoData exchange asset "1min" (dateFor date s) options
                             (after (firstn (4 * i + j)
                                       (latestCalls (dateFor date s) options))
                                (startOf date s))) with
                | inl _ => entry = None
                | inr data =>
                  exists lastRecord,
                    Js.lastOf (FetchResult.records data) = Some lastRecord
                    /\ Metadata.timestamp (FetchResult.metadata data) = NdRecord.t lastRecord
                    /\ entry
                       = Some (PriceSummary.mk
                                 (NdRecord.mid lastRecord)
                                 (NdRecord.t lastRecord)
                                 (NdRecord.spread_L5_pct lastRecord)
                                 (NdRecord.vol_L50_bids lastRecord
                                  + NdRecord.vol_L50_asks lastRecord)%float
                                 (Metadata.recordCount (FetchResult.metadata data))
                                 (Metadata.fetchTime (FetchResult.metadata data)))
                end.
Proof.
  intros date options s Hok.
  pose proof (getLatestPrices_run date options s) as Hrun. cbv zeta in Hrun.
  set (d := dateFor date s) in *. set (calls := latestCalls d options) in *.
  set (s1 := startOf date s) in *.
  assert (Hok1 : cacheOk (cache s1)) by now apply cacheOk_startOf.
  eexists. eexists. split; [exact Hrun|].
  split; [now apply after_cacheOk|].
  assert (Hentry : forall n exchange asset,
             match fst (fetchCryptoData exchange asset "1min" d options
                          (after (firstn n calls) s1)) with
             | inl _ => entryFor exchange asset d options (after (firstn n calls) s1) = None
             | inr data =>
               exists lastRecord,
                 Js.lastOf (FetchResult.records data) = Some lastRecord
                 /\ Metadata.timestamp (FetchResult.metadata data) = NdRecord.t lastRecord
                 /\ entryFor exchange asset d options (after (firstn n calls) s1)
                    = Some (PriceSummary.mk
                              (NdRecord.mid lastRecord)
                              (NdRecord.t lastRecord)
                              (NdRecord.spread_L5_pct lastRecord)
                              (NdRecord.vol_L50_bids lastRecord
                               + NdRecord.vol_L50_asks lastRecord)%float
                              (Metadata.recordCount (FetchResult.metadata data))
                              (Metadata.fetchTime (FetchResult.metadata data)))
             end).
  { intros n exchange asset.
    assert (Hokn : cacheOk (cache (after (firstn n calls) s1))) by now apply after_cacheOk.
    unfold entryFor.
    destruct (fetchCryptoData exchange asset "1min" d options (after (firstn n calls) s1))
      as [[e|data] s2] eqn:Hfetch; cbn [fst]; [reflexivity|].
    destruct (proj2 (fetchCryptoData_cacheOk _ _ _ _ _ _ _ _ Hfetch Hokn) data eq_refl)
      as (lr & Hlast & Hstamp & Hcount).
    exists lr. split; [exact Hlast|]. split; [exact Hstamp|].
    unfold summaryOf. rewrite Hlast, Hcount. reflexivity. }
  intros i j exchange asset Hi Hj.
  destruct i as [|[|i]]; [| |destruct i; discriminate];
    inversion Hi; subst exchange;
    (destruct j as [|[|[|[|j]]]]; [| | | |destruct j; discriminate]);
    inversion Hj; subst asset;
    eexists; eexists; (split; [reflexivity|]); (split; [reflexivity|]);
    match goal with
    | |- context [firstn ?n calls] => apply (Hentry n)
    end.
Qed.

(** *** A second run in the same bucket *)

(** A result returned with the cache in use is returned again, from its
    slot, by a later call for the same path, as long as every reading of
    the clock from the first call to that one is in one bucket. *)
Lemma fetchCryptoData_reuse exchange asset timeframe date options s result s1 calls options' :
  Options.default true (Options.useCache options) = true ->
  fetchCryptoData exchange asset timeframe date options s = (inr result, s1) ->
  Options.default true (Options.useCache options') = true ->
  (forall i, ticks s <= i <= ticks (after calls s1) -> bucket i = bucket (ticks s)) ->
  fetchCryptoData exchange asset timeframe date options' (after calls s1)
  = (inr result, tick (after calls s1)).
Proof.
  intros Huse Hrun Huse' Hbucket.
  set (key := cacheKeyOf (pathOf exchange asset timeframe date) (clock (ticks s))).
  pose proof (after_ticks calls s1) as Hafter.
  pose proof (fetchCryptoData_ticks _ _ _ _ _ _ _ _ Hrun) as Hfirst.
  assert (Hcur : forall i, ticks s <= i <= ticks (after calls s1) -> current key i = true).
  { intros i Hi. apply current_in_bucket. now apply Hbucket. }
  apply fetchCryptoData_hit; [exact Huse'|].
  replace (cacheKeyOf (pathOf exchange asset timeframe date) (clock (ticks (after calls s1))))
    with key.
  2:{ unfold key, CryptoDataFetcher.cacheKeyOf.
      assert (Hb : bucket (ticks (after calls s1)) = bucket (ticks s)) by (apply Hbucket; lia).
      unfold FetcherSpec.bucket in Hb. now rewrite Hb. }
  apply after_keeps_slot; [|intros i Hi; apply Hcur; lia].
  destruct (Js.Map.get key (cache s)) as [r|] eqn:Hget.
  - rewrite (fetchCryptoData_hit _ _ _ _ _ _ _ Huse Hget) in Hrun.
    inversion Hrun; subst. exact Hget.
  - destruct (fetchCryptoData_stores _ _ _ _ _ _ _ _ Huse Hget Hrun) as (s0 & -> & _ & Ht0).
    apply storeResult_get. intros i Hi. apply Hcur. lia.
Qed.

(** Calls that are all answered from the cache only read the clock, once
    each. *)
Lemma after_hits calls :
  forall s,
    (forall n c, nth_error calls n = Some c ->
       exists r, fetchCryptoData (callExchange c) (callAsset c) (callTimeframe c) (callDate c)
                   (callOptions c) (after (firstn n calls) s)
                 = (inr r, tick (after (firstn n calls) s))) ->
    after calls s
    = mkState (cache s) (List.length calls + ticks s) (draws s) (requests s).
Proof.
  induction calls as [|c calls IH] using rev_ind; intros s Hhits.
  - destruct s; reflexivity.
  - rewrite after_snoc.
    destruct (Hhits (List.length calls) c) as [r Hr].
    { rewrite nth_error_app2 by lia. now rewrite Nat.sub_diag. }
    rewrite firstn_app, firstn_all, Nat.sub_diag in Hr. cbn [firstn] in Hr.
    rewrite app_nil_r in Hr. rewrite Hr. cbn [snd].
    rewrite IH.
    + rewrite length_app. cbn [List.length]. unfold FetcherSpec.tick. cbn [cache ticks draws requests].
      f_equal. lia.
    + intros n c' Hn.
      assert (Hlt : n < List.length calls) by (apply nth_error_Some; congruence).
      specialize (Hhits n c').
      rewrite nth_error_app1 in Hhits by exact Hlt.
      rewrite firstn_app in Hhits.
      replace (n - List.length calls) with 0 in Hhits by lia.
      cbn [firstn] in Hhits. rewrite app_nil_r in Hhits. auto.
Qed.

(** The entry of a fetch of the first of two runs of the same calls is
    made again by the same fetch of the second run, from the cache, when
    the clock stays in one bucket. *)
Lemma entry_repeats calls n c s :
  nth_error calls n = Some c ->
  callTimeframe c = "1min"%string ->
  Options.default true (Options.useCache (callOptions c)) = true ->
  (forall i, ticks s <= i < ticks (after calls (after calls s)) -> bucket i = bucket (ticks s)) ->
  entryFor (callExchange c) (callAsset c) (callDate c) (callOptions c)
    (after (firstn n calls) s) <> None ->
  let s2 := after (firstn n calls) (after calls s) in
  (exists r, fetchCryptoData (callExchange c) (callAsset c) (callTimeframe c) (callDate c)
               (callOptions c) s2 = (inr r, tick s2))
  /\ entryFor (callExchange c) (callAsset c) (callDate c) (callOptions c) s2
     = entryFor (callExchange c) (callAsset c) (callDate c) (callOptions c)
         (after (firstn n calls) s).
Proof.
  intros Hn Hframe Huse Hbucket Hentry s2.
  destruct (nth_error_split calls n Hn) as (pre & post & Hcalls & Hlen).
  assert (Hpre : firstn n calls = pre).
  { rewrite Hcalls, <- Hlen, firstn_app, firstn_all, Nat.sub_diag. cbn [firstn].
    apply app_nil_r. }
  unfold s2. rewrite Hpre in *. clear s2.
  set (sa := after pre s) in *.
  unfold entryFor in Hentry |- *. rewrite <- Hframe in Hentry |- *.
  destruct (fetchCryptoData (callExchange c) (callAsset c) (callTimeframe c) (callDate c)
              (callOptions c) sa) as [[e|data] sb] eqn:Hrun; cbn [fst] in Hentry |- *;
    [congruence|].
  assert (Hs1 : after calls s = after post sb).
  { rewrite Hcalls at 1. rewrite after_app, after_cons. fold sa. now rewrite Hrun. }
  assert (Hsc : after pre (after calls s) = after (post ++ pre) sb).
  { now rewrite Hs1, after_app. }
  assert (Hend : ticks (after (post ++ pre) sb) < ticks (after calls (after calls s))).
  { rewrite <- Hsc. rewrite Hcalls at 2. rewrite after_app, after_cons.
    set (sc := after pre (after calls s)).
    destruct (fetchCryptoData (callExchange c) (callAsset c) (callTimeframe c) (callDate c)
                (callOptions c) sc) as [res sd] eqn:Hrun2.
    pose proof (fetchCryptoData_ticks _ _ _ _ _ _ _ _ Hrun2) as Ht.
    pose proof (after_ticks post sd) as Ht'. cbn [snd]. lia. }
  assert (Hstart : ticks s <= ticks sa) by apply after_ticks.
  assert (Hhit : fetchCryptoData (callExchange c) (callAsset c) (callTimeframe c) (callDate c)
                   (callOptions c) (after (post ++ pre) sb)
                 = (inr data, tick (after (post ++ pre) sb))).
  { apply (fetchCryptoData_reuse _ _ _ _ _ _ _ _ _ _ Huse Hrun Huse).
    intros i Hi. rewrite (Hbucket i) by lia. symmetry. apply Hbucket.
    pose proof (fetchCryptoData_ticks _ _ _ _ _ _ _ _ Hrun).
    pose proof (after_ticks (post ++ pre) sb). lia. }
  rewrite Hsc, Hhit. split; [eauto | reflexivity].
Qed.

Lemma latestCalls_nth d options n c :
  nth_error (latestCalls d options) n = Some c ->
  n < 8
  /\ callTimeframe c = "1min"%string /\ callDate c = d /\ callOptions c = options.
Proof.
  intros Hn.
  do 8 (destruct n as [|n]; [inversion Hn; subst c; repeat split; lia|]).
  destruct n; discriminate.
Qed.

(** X10: a second [getLatestPrices] for the same date, with the cache in
    use, while every reading of the clock of the two runs is in one bucket.
    Every entry of the first run that is not [null] is in the second
    object too, unchanged: its fetch is answered from the cache. And when
    no entry of the first run was [null], the second run returns the same
    object, sends no request, makes no draw, leaves the cache as it was and
    reads the clock eight times. *)
Theorem second_run_is_served_from_the_cache :
  forall d options s,
    Js.truthy d = true ->
    Options.default true (Options.useCache options) = true ->
    let calls := latestCalls d options in
    let s1 := after calls s in
    let s2 := after calls s1 in
    (forall i, ticks s <= i < ticks s2 -> bucket i = bucket (ticks s)) ->
    exists results1 results2,
      getLatestPrices (Some d) options s = (inr results1, s1)
      /\ getLatestPrices (Some d) options s1 = (inr results2, s2)
      /\ (forall exchange asset row1 summary,
             Js.Map.get exchange results1 = Some row1 ->
             Js.Map.get asset row1 = Some (Some summary) ->
             exists row2,
               Js.Map.get exchange results2 = Some row2
               /\ Js.Map.get asset row2 = Some (Some summary))
      /\ (Forall (fun row => Forall (fun entry => snd entry <> None) (snd row)) results1 ->
          results2 = results1
          /\ s2 = mkState (cache s1) (8 + ticks s1) (draws s1) (requests s1)).
Proof.
  intros d options s Htruthy Huse calls s1 s2 Hbucket.
  pose proof (getLatestPrices_run (Some d) options s) as Hrun1.
  pose proof (getLatestPrices_run (Some d) options s1) as Hrun2.
  cbv zeta in Hrun1, Hrun2. unfold dateFor, startOf in Hrun1, Hrun2.
  rewrite Htruthy in Hrun1, Hrun2. fold calls in Hrun1, Hrun2. fold s1 in Hrun1. fold s2 in Hrun2.
  assert (Hrep : forall n c,
             nth_error calls n = Some c ->
             entryFor (callExchange c) (callAsset c) d options (after (firstn n calls) s) <> None ->
             (exists r, fetchCryptoData (callExchange c) (callAsset c) (callTimeframe c)
                          (callDate c) (callOptions c) (after (firstn n calls) s1)
                        = (inr r, tick (after (firstn n calls) s1)))
             /\ entryFor (callExchange c) (callAsset c) d options (after (firstn n calls) s1)
                = entryFor (callExchange c) (callAsset c) d options (after (firstn n calls) s)).
  { intros n c Hn Hentry.
    destruct (latestCalls_nth _ _ _ _ Hn) as (_ & Hframe & Hdate & Hopts).
    pose proof (entry_repeats calls n c s Hn Hframe) as H.
    rewrite Hdate, Hopts in H. rewrite Hdate, Hopts. apply H; auto. }
  eexists. eexists. split; [exact Hrun1|]. split; [exact Hrun2|]. split.
  - intros exchange asset row1 summary Hrow Hentry.
    assert (Hsame : forall n c,
               nth_error calls n = Some c ->
               entryFor (callExchange c) (callAsset c) d options (after (firstn n calls) s)
               = Some summary ->
               entryFor (callExchange c) (callAsset c) d options (after (firstn n calls) s1)
               = Some summary).
    { intros n c Hn He. destruct (Hrep n c Hn) as [_ Heq]; congruence. }
    cbn [Js.Map.get] in Hrow |- *.
    destruct (String.eqb exchange "coinbase");
      [|destruct (String.eqb exchange "kraken"); [|discriminate]];
      inversion Hrow; subst row1; clear Hrow;
      eexists; (split; [reflexivity|]);
      cbn [Js.Map.get] in Hentry |- *;
      (destruct (String.eqb asset "BTC");
       [|destruct (String.eqb asset "ETH");
         [|destruct (String.eqb asset "ADA");
           [|destruct (String.eqb asset "XRP"); [|discriminate]]]]);
      inversion Hentry as [He]; rewrite He; f_equal.
    + exact (Hsame 0 _ eq_refl He).
    + exact (Hsame 1 _ eq_refl He).
    + exact (Hsame 2 _ eq_refl He).
    + exact (Hsame 3 _ eq_refl He).
    + exact (Hsame 4 _ eq_refl He).
    + exact (Hsame 5 _ eq_refl He).
    + exact (Hsame 6 _ eq_refl He).
    + exact (Hsame 7 _ eq_refl He).
  - intros Hall.
    assert (Hfull : forall n c,
               nth_error calls n = Some c ->
               entryFor (callExchange c) (callAsset c) d options (after (firstn n calls) s)
               <> None).
    { inversion Hall as [|? ? Hrow1 Hall']; subst.
      inversion Hall' as [|? ? Hrow2 _]; subst.
      cbn [snd] in Hrow1, Hrow2.
      repeat match goal with
             | H : Forall _ (_ :: _) |- _ => inversion H; subst; clear H
             end.
      cbn [snd] in *.
      intros n c Hn.
      do 8 (destruct n as [|n]; [inversion Hn; subst c; assumption|]).
      destruct n; discriminate. }
    split.
    + assert (Hsame : forall n c,
                 nth_error calls n = Some c ->
                 entryFor (callExchange c) (callAsset c) d options (after (firstn n calls) s1)
                 = entryFor (callExchange c) (callAsset c) d options (after (firstn n calls) s)).
      { intros n c Hn. exact (proj2 (Hrep n c Hn (Hfull n c Hn))). }
      pose proof (Hsame 0 _ eq_refl) as H0. pose proof (Hsame 1 _ eq_refl) as H1.
      pose proof (Hsame 2 _ eq_refl) as H2. pose proof (Hsame 3 _ eq_refl) as H3.
      pose proof (Hsame 4 _ eq_refl) as H4. pose proof (Hsame 5 _ eq_refl) as H5.
      pose proof (Hsame 6 _ eq_refl) as H6. pose proof (Hsame 7 _ eq_refl) as H7.
      cbn [FetcherSpec.callExchange FetcherSpec.callAsset] in H0, H1, H2, H3, H4, H5, H6, H7.
      rewrite H0, H1, H2, H3, H4, H5, H6, H7. reflexivity.
    + unfold s2. rewrite (after_hits calls s1); [reflexivity|].
      intros n c Hn. exact (proj1 (Hrep n c Hn (Hfull n c Hn))).
Qed.

End Facts.

(** *** Runs in the example environment *)

Abbreviation demoFetch network :=
  (CryptoDataFetcher.fetchCryptoData Demo.bucketName Demo.clock Demo.random network
     Demo.JSON_parse Demo.toISOString Demo.numberToString Demo.toString36).

Lemma demo_first_run :
  demoFetch Demo.stale "coinbase" "BTC" "1min" "2025-09-09" Demo.defaults Demo.start
  = (inr Demo.firstResult, Demo.afterFirst).
Proof. vm_compute. reflexivity. Qed.

Lemma demo_clock_monotone : forall a b, a <= b -> (Demo.clock a <= Demo.clock b)%N.
Proof. intros a b H. unfold Demo.clock. lia. Qed.

(** Through the stale network the second URL wins, with the record stamped
    17:44:00, though the first URL answered before it, with a copy that ends
    at 17:40:00; the third URL was asked twice, and gave nothing. *)
Lemma freshest_candidate_is_returned_run :
  exists rounds before e after lastRecord,
    requests Demo.afterFirst = requests Demo.start ++ List.concat rounds
    /\ Forall2 FetcherSpec.asked
         (FetcherSpec.urlsAt Demo.bucketName Demo.clock Demo.random Demo.numberToString
            Demo.toString36 (CryptoDataFetcher.pathOf "coinbase" "BTC" "1min" "2025-09-09")
            (FetcherSpec.tick Demo.start))
         rounds
    /\ List.concat rounds = before ++ e :: after
    /\ FetcherSpec.candidateOf Demo.JSON_parse e
       = Some (Metadata.url (FetchResult.metadata Demo.firstResult),
               FetchResult.records Demo.firstResult, lastRecord)
    /\ Metadata.timestamp (FetchResult.metadata Demo.firstResult) = NdRecord.t lastRecord
    /\ (forall e' url records lastRecord',
           In e' (List.concat rounds) ->
           FetcherSpec.candidateOf Demo.JSON_parse e' = Some (url, records, lastRecord') ->
           Js.gtString (NdRecord.t lastRecord') (NdRecord.t lastRecord) = false)
    /\ (forall e' url records lastRecord',
           In e' before ->
           FetcherSpec.candidateOf Demo.JSON_parse e' = Some (url, records, lastRecord') ->
           Js.gtString (NdRecord.t lastRecord) (NdRecord.t lastRecord') = true
           \/ Js.truthy (NdRecord.t lastRecord') = false)
    /\ (forall e' url records lastRecord',
           In e' after ->
           FetcherSpec.candidateOf Demo.JSON_parse e' = Some (url, records, lastRecord') ->
           Js.truthy (NdRecord.t lastRecord) = true
           /\ Js.gtString (NdRecord.t lastRecord') (NdRecord.t lastRecord) = false).
Proof.
  apply (freshest_candidate_is_returned Demo.bucketName Demo.clock Demo.random Demo.stale
           Demo.JSON_parse Demo.toISOString Demo.numberToString Demo.toString36
           "coinbase" "BTC" "1min" "2025-09-09" Demo.defaults Demo.start).
  - right. reflexivity.
  - vm_compute. reflexivity.
Defined.

Lemma exhausted_after_two_attempts_per_url_run :
  exists u1 u2 u3 s' round,
    demoFetch Demo.down "coinbase" "BTC" "1min" "2025-09-09" Demo.threeRetries Demo.start
    = (inl (FetchExhausted "coinbase" "BTC"), s')
    /\ u1 <> u2 /\ u1 <> u3 /\ u2 <> u3
    /\ requests s' = requests Demo.start ++ round
    /\ map fst round = [u1; u1; u2; u2; u3; u3]
    /\ Forall (fun e => exists body, snd e = Some (Response.mk 500 body)) round.
Proof.
  apply (exhausted_after_two_attempts_per_url Demo.bucketName Demo.clock Demo.random
           Demo.down Demo.JSON_parse Demo.toISOString Demo.numberToString Demo.toString36).
  - intros url k. eexists. reflexivity.
  - right. reflexivity.
Defined.

(** With [maxRetries: 3] and a network that always answers 500, the call
    sends six requests, two for each URL. *)
Lemma three_retries_asked_two_attempts_made :
  exists s',
    demoFetch Demo.down "coinbase" "BTC" "1min" "2025-09-09" Demo.threeRetries Demo.start
    = (inl (FetchExhausted "coinbase" "BTC"), s')
    /\ map fst (requests s')
       = [ "https://storage.googleapis.com/bananazone/coinbase/BTC/1min/2025-09-09.jsonl?t=1757439877001&v=82mvyr&cb=1757439877002";
           "https://storage.googleapis.com/bananazone/coinbase/BTC/1min/2025-09-09.jsonl?t=1757439877001&v=82mvyr&cb=1757439877002";
           "https://storage.googleapis.com/bananazone/coinbase/BTC/1min/2025-09-09.jsonl?nocache=1757439877003";
           "https://storage.googleapis.com/bananazone/coinbase/BTC/1min/2025-09-09.jsonl?nocache=1757439877003";
           "https://storage.googleapis.com/bananazone/coinbase/BTC/1min/2025-09-09.jsonl?_=0.5";
           "https://storage.googleapis.com/bananazone/coinbase/BTC/1min/2025-09-09.jsonl?_=0.5" ]%string.
Proof. eexists. split; vm_compute; reflexivity. Qed.

(** After the first call of the example, a second call for the same path in
    the same bucket gets the stored result without a request, also when
    calls for other paths come in between. *)
Lemma cache_slot_lives_in_its_bucket_run :
  demoFetch Demo.stale "coinbase" "BTC" "1min" "2025-09-09" Demo.defaults
    (FetcherSpec.after Demo.bucketName Demo.clock Demo.random Demo.stale Demo.JSON_parse
       Demo.toISOString Demo.numberToString Demo.toString36
       [FetcherSpec.mkCall "kraken" "ETH" "1min" "2025-09-09" Demo.defaults] Demo.afterFirst)
  = (inr Demo.firstResult,
    FetcherSpec.tick (FetcherSpec.after Demo.bucketName Demo.clock Demo.random Demo.stale Demo.JSON_parse
             Demo.toISOString Demo.numberToString Demo.toString36
             [FetcherSpec.mkCall "kraken" "ETH" "1min" "2025-09-09" Demo.defaults] Demo.afterFirst)).
Proof.
  destruct (cache_slot_lives_in_its_bucket Demo.bucketName Demo.clock Demo.random Demo.stale
              Demo.JSON_parse Demo.toISOString Demo.numberToString Demo.toString36
              "coinbase" "BTC" "1min" "2025-09-09" Demo.defaults Demo.start
              Demo.firstResult Demo.afterFirst
              demo_clock_monotone eq_refl demo_first_run) as [Hreuse _].
  apply (Hreuse [FetcherSpec.mkCall "kraken" "ETH" "1min" "2025-09-09" Demo.defaults] Demo.defaults).
  - reflexivity.
  - vm_compute. reflexivity.
Defined.

Lemma without_cache_the_map_is_untouched_run :
  let run := demoFetch Demo.stale "coinbase" "BTC" "1min" "2025-09-09" Demo.noCache
               Demo.afterFirst in
  cache (snd run) = cache Demo.afterFirst
  /\ (forall c,
         demoFetch Demo.stale "coinbase" "BTC" "1min" "2025-09-09" Demo.noCache
           (withCache c Demo.afterFirst)
         = (fst run, withCache c (snd run)))
  /\ exists round,
      requests (snd run) = requests Demo.afterFirst ++ round
      /\ 3 <= List.length round <= 6.
Proof.
  apply (without_cache_the_map_is_untouched Demo.bucketName Demo.clock Demo.random Demo.stale
           Demo.JSON_parse Demo.toISOString Demo.numberToString Demo.toString36).
  reflexivity.
Defined.

(** Three attempts on a URL of a network that always answers 500: three
    requests, and the error of the third. *)
Lemma fetchWithCacheBusting_contract_run :
  let url := "https://storage.googleapis.com/bananazone/coinbase/BTC/1min/2025-09-09.jsonl?_=0.5"%string in
  let s' := snd (CryptoDataFetcher.fetchWithCacheBusting Demo.clock Demo.random Demo.down
                   url 3 Demo.start) in
  cache s' = cache Demo.start /\ ticks s' = 1 /\ draws s' = 1
  /\ exists new,
      requests s' = requests Demo.start ++ new
      /\ List.length new <= 3
      /\ Forall (fun e => fst e = url) new
      /\ 1 <= 3 /\ List.length new = 3 /\ Forall (FetcherSpec.failed url) new
      /\ HttpError 500 = FetcherSpec.errorOf Demo.down url (0 + 3 - 1).
Proof.
  intros url s'.
  apply (fetchWithCacheBusting_contract Demo.clock Demo.random Demo.down url 3 Demo.start
           (inl (HttpError 500)) s').
  vm_compute. reflexivity.
Defined.

(** The wait after the second failed attempt is two seconds. *)
Lemma backoffDelay_bounds_run :
  (1000 <= CryptoDataFetcher.backoffDelay 2 <= 5000)%N
  /\ (CryptoDataFetcher.backoffDelay 2 <= CryptoDataFetcher.backoffDelay 3)%N
  /\ (2 <= 3 -> CryptoDataFetcher.backoffDelay 2 = (1000 * 2 ^ N.of_nat (2 - 1))%N)
  /\ (4 <= 2 -> CryptoDataFetcher.backoffDelay 2 = 5000%N).
Proof. apply (backoffDelay_bounds 2). lia. Defined.

(** Through the network that always answers 500 the call throws, with the
    cache untouched. *)
Lemma throws_exactly_when_no_candidate_run :
  let run := demoFetch Demo.down "coinbase" "BTC" "1min" "2025-09-09" Demo.defaults
               Demo.start in
  fst run = inl (FetchExhausted "coinbase" "BTC") /\ cache (snd run) = [].
Proof.
  intros run.
  destruct (throws_exactly_when_no_candidate Demo.bucketName Demo.clock Demo.random
              Demo.down Demo.JSON_parse Demo.toISOString Demo.numberToString Demo.toString36
              "coinbase" "BTC" "1min" "2025-09-09" Demo.defaults Demo.start
              (inl (FetchExhausted "coinbase" "BTC")) (snd run))
    as [Hthrows _].
  - vm_compute. reflexivity.
  - destruct (Hthrows _ eq_refl) as (_ & Hcache & _).
    split; [reflexivity | exact Hcache].
Defined.

(** The file with white space of several kinds around it, a blank line
    and a line cut short gives its two whole records. *)
Lemma damaged_lines_are_left_out_run :
  fst (CryptoDataFetcher.tryUrl Demo.clock Demo.random Demo.padded Demo.JSON_parse
         Demo.toISOString "u" (None, None) Demo.start)
  = inr (Some (FetchResult.mk
                 [ NdRecord.mk "2025-09-09T17:43:00Z" 0 0 0 0;
                   NdRecord.mk "2025-09-09T17:44:00Z" 0 0 0 0 ]
                 (Metadata.mk "u" "2025-09-09T17:44:00Z" 2 "2025-09-09T17:44:37.000Z")),
         Some "2025-09-09T17:44:00Z"%string).
Proof.
  apply (damaged_lines_are_left_out Demo.clock Demo.random Demo.padded Demo.JSON_parse
           Demo.toISOString "u" (None, None) Demo.start
           (Response.mk 200 (Some Demo.paddedFile)) Demo.paddedFile
           [ "{2025-09-09T17:43:00Z"; "2025-09-"; Demo.ideographicSpace;
             "{2025-09-09T17:44:00Z" ]%string).
  - reflexivity.
  - reflexivity.
  - reflexivity.
  - vm_compute. reflexivity.
  - vm_compute. reflexivity.
  - discriminate.
  - repeat constructor.
Defined.

(** With and without [maxRetries: 3], the first call of the example gives
    the same result and sends the same requests. *)
Lemma only_useCache_changes_the_answer_run :
  fst (demoFetch Demo.stale "coinbase" "BTC" "1min" "2025-09-09" Demo.defaults Demo.start)
  = fst (demoFetch Demo.stale "coinbase" "BTC" "1min" "2025-09-09" Demo.threeRetries
           Demo.start)
  /\ requests (snd (demoFetch Demo.stale "coinbase" "BTC" "1min" "2025-09-09" Demo.defaults
                      Demo.start))
     = requests (snd (demoFetch Demo.stale "coinbase" "BTC" "1min" "2025-09-09"
                        Demo.threeRetries Demo.start)).
Proof.
  apply (only_useCache_changes_the_answer Demo.bucketName Demo.clock Demo.random Demo.stale
           Demo.JSON_parse Demo.toISOString Demo.numberToString Demo.toString36).
  reflexivity.
Defined.

Abbreviation demoPrices network :=
  (CryptoDataFetcher.getLatestPrices Demo.bucketName Demo.clock Demo.random network
     Demo.JSON_parse Demo.toISOString Demo.numberToString Demo.toString36).

Lemma demo_start_sound : FetcherSpec.cacheOk (cache Demo.start).
Proof. split; [constructor | intros key r []]. Qed.

(** The prices of 2025-09-09 through the stale network, from a fresh
    fetcher: the entry of coinbase BTC, the first pair fetched, is made
    from the record stamped 17:44:00. *)
Lemma null_entry_means_failed_fetch_run :
  exists results s' row summary,
    demoPrices Demo.stale (Some "2025-09-09"%string) Demo.defaults Demo.start
    = (inr results, s')
    /\ FetcherSpec.cacheOk (cache s')
    /\ Js.Map.get "coinbase" results = Some row
    /\ Js.Map.get "BTC" row = Some (Some summary)
    /\ PriceSummary.timestamp summary = "2025-09-09T17:44:00Z"%string.
Proof.
  destruct (null_entry_means_failed_fetch Demo.bucketName Demo.clock Demo.random Demo.stale
              Demo.JSON_parse Demo.toISOString Demo.numberToString Demo.toString36
              (Some "2025-09-09"%string) Demo.defaults Demo.start)
    as (results & s' & Hrun & Hsound & Hentries).
  - split; [constructor | intros key r []].
  - destruct (Hentries 0 0 "coinbase"%string "BTC"%string eq_refl eq_refl)
      as (row & entry & Hrow & Hentry & Hfetch).
    change (FetcherSpec.after Demo.bucketName Demo.clock Demo.random Demo.stale
              Demo.JSON_parse Demo.toISOString Demo.numberToString Demo.toString36
              (firstn (4 * 0 + 0)
                 (FetcherSpec.latestCalls
                    (FetcherSpec.dateFor Demo.clock Demo.toISOString
                       (Some "2025-09-09"%string) Demo.start) Demo.defaults))
              (FetcherSpec.startOf (Some "2025-09-09"%string) Demo.start))
      with Demo.start in Hfetch.
    change (FetcherSpec.dateFor Demo.clock Demo.toISOString (Some "2025-09-09"%string)
              Demo.start) with "2025-09-09"%string in Hfetch.
    rewrite demo_first_run in Hfetch. cbn [fst] in Hfetch.
    destruct Hfetch as (lastRecord & Hlast & Hstamp & Hsummary).
    exists results, s', row. eexists.
    split; [exact Hrun|]. split; [exact Hsound|]. split; [exact Hrow|].
    split; [rewrite Hentry, Hsummary; reflexivity|].
    cbn [PriceSummary.timestamp]. rewrite <- Hstamp. reflexivity.
Defined.

(** The example clock stays in one bucket for its first thousand readings. *)
Lemma demo_bucket i : i < 1000 -> FetcherSpec.bucket Demo.clock i = FetcherSpec.bucket Demo.clock 0.
Proof.
  intros Hi. unfold FetcherSpec.bucket, Demo.clock, CryptoDataFetcher.cacheTimeout.
  transitivity 58581329%N; [|reflexivity].
  symmetry. apply (N.div_unique _ _ _ (7000 + N.of_nat i)); lia.
Qed.

Lemma requests_mkState c t d r : requests (mkState c t d r) = r.
Proof. reflexivity. Qed.

Lemma demo_damaged_prices :
  fst (demoPrices Demo.damaged (Some "2025-09-09"%string) Demo.defaults Demo.start)
  = inr Demo.damagedPrices.
Proof. vm_compute. reflexivity. Qed.

Lemma demo_damaged_prices_full :
  Forall (fun row => Forall (fun entry => snd entry <> None) (snd row)) Demo.damagedPrices.
Proof. repeat constructor; discriminate. Qed.

Lemma demo_two_runs_ticks :
  ticks (FetcherSpec.after Demo.bucketName Demo.clock Demo.random Demo.damaged
           Demo.JSON_parse Demo.toISOString Demo.numberToString Demo.toString36
           (FetcherSpec.latestCalls "2025-09-09" Demo.defaults)
           (FetcherSpec.after Demo.bucketName Demo.clock Demo.random Demo.damaged
              Demo.JSON_parse Demo.toISOString Demo.numberToString Demo.toString36
              (FetcherSpec.latestCalls "2025-09-09" Demo.defaults) Demo.start))
  <= 1000.
Proof. apply Nat.leb_le. vm_compute. reflexivity. Qed.

Lemma demo_first_run_requests :
  List.length
    (requests (FetcherSpec.after Demo.bucketName Demo.clock Demo.random Demo.damaged
                 Demo.JSON_parse Demo.toISOString Demo.numberToString Demo.toString36
                 (FetcherSpec.latestCalls "2025-09-09" Demo.defaults) Demo.start))
  = 24.
Proof. vm_compute. reflexivity. Qed.

(** Two runs one after the other through a network that always answers
    with the same file: the second returns the object of the first and
    sends no request. *)
Lemma second_run_is_served_from_the_cache_run :
  let calls := FetcherSpec.latestCalls "2025-09-09" Demo.defaults in
  let after := FetcherSpec.after Demo.bucketName Demo.clock Demo.random Demo.damaged
                 Demo.JSON_parse Demo.toISOString Demo.numberToString Demo.toString36 in
  let s1 := after calls Demo.start in
  let s2 := after calls s1 in
  exists results,
    demoPrices Demo.damaged (Some "2025-09-09"%string) Demo.defaults Demo.start
    = (inr results, s1)
    /\ demoPrices Demo.damaged (Some "2025-09-09"%string) Demo.defaults s1 = (inr results, s2)
    /\ List.length (requests s1) = 24
    /\ requests s2 = requests s1.
Proof.
  intros calls after s1 s2.
  destruct (second_run_is_served_from_the_cache Demo.bucketName Demo.clock Demo.random
              Demo.damaged Demo.JSON_parse Demo.toISOString Demo.numberToString
              Demo.toString36 "2025-09-09" Demo.defaults Demo.start)
    as (results1 & results2 & Hrun1 & Hrun2 & _ & Hall).
  - reflexivity.
  - reflexivity.
  - intros i [_ Hi]. apply demo_bucket.
    pose proof demo_two_runs_ticks as Hticks. lia.
  - assert (Hres : results1 = Demo.damagedPrices).
    { pose proof demo_damaged_prices as H. rewrite Hrun1 in H. cbn [fst] in H.
      now injection H. }
    assert (Hfull : Forall (fun row => Forall (fun entry => snd entry <> None) (snd row))
                      results1).
    { rewrite Hres. exact demo_damaged_prices_full. }
    destruct (Hall Hfull) as [Heq Hs2].
    exists results1. split; [exact Hrun1|]. split; [|split].
    + rewrite <- Heq. exact Hrun2.
    + exact demo_first_run_requests.
    + unfold s2, s1, after, calls. rewrite Hs2. apply requests_mkState.
Defined.

(** A store across a boundary. On the clock started twenty milliseconds
    before the boundary, which never runs backwards, the first call stores
    its result in bucket 58581329 after ten readings. The second call, for
    another path, starts in that bucket too, sends three requests, returns
    a result and stores it: its loop tests the slot of the first call at
    reading 19, still in bucket 58581329, and keeps it, and tests the slot
    it has just written at reading 20, in bucket 58581330, and deletes it.
    The cache it leaves holds the slot of bucket 58581329 alone, and no
    slot for the result it returned. *)
Lemma store_across_a_bucket_boundary :
  (forall a b, a <= b -> (Demo.lateClock a <= Demo.lateClock b)%N)
  /\ (exists r1, fst Demo.lateFirst = inr r1)
  /\ map fst (cache (snd Demo.lateFirst)) = ["coinbase/BTC/1min/2025-09-09.jsonl-58581329"%string]
  /\ ticks (snd Demo.lateFirst) = 10
  /\ (exists r2, fst Demo.lateSecond = inr r2)
  /\ List.length (requests (snd Demo.lateSecond))
     = 3 + List.length (requests (snd Demo.lateFirst))
  /\ ticks (snd Demo.lateSecond) = 21
  /\ FetcherSpec.bucket Demo.lateClock 10 = 58581329%N
  /\ FetcherSpec.bucket Demo.lateClock 19 = 58581329%N
  /\ FetcherSpec.bucket Demo.lateClock 20 = 58581330%N
  /\ map fst (cache (snd Demo.lateSecond)) = ["coinbase/BTC/1min/2025-09-09.jsonl-58581329"%string]
  /\ Js.Map.get
       (CryptoDataFetcher.cacheKeyOf (CryptoDataFetcher.pathOf "kraken" "ETH" "1min" "2025-09-09")
          (Demo.lateClock 10))
       (cache (snd Demo.lateSecond)) = None.
Proof.
  split; [intros a b H; unfold Demo.lateClock; lia|].
  split; [vm_compute; eexists; reflexivity|].
  split; [vm_compute; reflexivity|].
  split; [vm_compute; reflexivity|].
  split; [vm_compute; eexists; reflexivity|].
  split; [vm_compute; reflexivity|].
  split; [vm_compute; reflexivity|].
  split; [vm_compute; reflexivity|].
  split; [vm_compute; reflexivity|].
  split; [vm_compute; reflexivity|].
  split; vm_compute; reflexivity.
Qed.

End FetcherFacts.
